(** * A shallow embedding of [cal_dav_interface.py]

    The module is a thin client over three libraries: Python's [datetime],
    the [icalendar] codec and the [caldav] transport.  The embedding follows
    that layering:

    - [Py]        : exceptions as an error monad;
    - [Str]       : [str.lower], [str.upper] and [in] on strings of code
                    points below 256;
    - [Datetime]  : [date], [time], [timedelta], [datetime] and pytz-style
                    [tzinfo] objects, after CPython's implementation of the
                    [datetime] module;
    - [ICal]      : component trees of the codec ([walk], [add]);
    - [Dav]       : the transport, as an interface with an in-memory
                    instance;
    - [Client]    : the methods of class [CalDavInterface], one definition
                    each;
    - [Spec]      : the vocabulary in which the specification is stated;
    - [Examples]  : a small collection on which the statements are run.

    The facts follow the definitions: calendar arithmetic, datetime
    arithmetic and comparison, the sort, the decoders, and then the
    properties of the methods.

    Modelling limits: a [str] holds code points below 256 (beyond them
    [str.lower] is not a map of single characters), durations are
    integral (no floating point day counts), [fold] is not modelled, and
    a property occurs at most once in a component. *)

From Stdlib Require Import ZArith List Bool Lia Ascii String.
From Stdlib Require Import Sorting.Sorted Sorting.Permutation.
From stdpp Require Import base gmap strings list fin_maps.
Import ListNotations.

Local Open Scope string_scope.
Local Open Scope Z_scope.

(* ================================================================== *)
(** ** Python exceptions and the error monad                           *)
(* ================================================================== *)

Module Py.

(** The exception classes that the methods of the client can raise.
    [DAVError] stands for the transport's own errors
    ([caldav.lib.error.NotFoundError] and friends), tagged by a message. *)
Inductive exn : Type :=
| TypeError
| AttributeError
| KeyError
| IndexError
| OverflowError
| ValueError
| DAVError (msg : string).

(** A computation either returns a value or raises. *)
Inductive result (A : Type) : Type :=
| Return (a : A)
| Raise (e : exn).
Arguments Return {A} a.
Arguments Raise {A} e.

Definition bind {A B : Type} (m : result A) (k : A -> result B) : result B :=
  match m with
  | Return a => k a
  | Raise e => Raise e
  end.

Definition raises {A : Type} (m : result A) : Prop :=
  exists e, m = Raise e.

Definition returns {A : Type} (m : result A) : Prop :=
  exists a, m = Return a.

End Py.
Export Py.

#[global] Instance result_ret : MRet result := @Return.
#[global] Instance result_bind : MBind result := fun A B k m => bind m k.

(* ================================================================== *)
(** ** Strings: [str.lower], [str.upper], [in]                         *)
(* ================================================================== *)

(** A [str] is held as the sequence of its code points, one character of
    [string] per code point; the code points are those below 256 (ASCII
    and the Latin-1 supplement). *)

Module Str.

(** The letters with a lower case among these code points: A..Z, and
    U+00C0..U+00DE without the multiplication sign U+00D7. *)
Definition is_upper (n : nat) : bool :=
  (Nat.leb 65 n && Nat.leb n 90)
  || (Nat.leb 192 n && Nat.leb n 222 && negb (Nat.eqb n 215)).

(** [str.lower] of one code point: the lower case of each of these
    letters is 32 code points further on; nothing else changes. *)
Definition lower_char (c : ascii) : ascii :=
  let n := nat_of_ascii c in
  if is_upper n then ascii_of_nat (n + 32) else c.

(** [str.lower]: code point by code point. *)
Fixpoint lower (s : string) : string :=
  match s with
  | EmptyString => EmptyString
  | String c s' => String (lower_char c) (lower s')
  end.

(** [str.upper] on the names of components and properties, which the
    iCalendar format writes with ASCII letters, digits and hyphens. *)
Definition upper_ascii (c : ascii) : ascii :=
  let n := nat_of_ascii c in
  if (Nat.leb 97 n && Nat.leb n 122)%bool then ascii_of_nat (n - 32) else c.

Fixpoint upper (s : string) : string :=
  match s with
  | EmptyString => EmptyString
  | String c s' => String (upper_ascii c) (upper s')
  end.

(** [startswith p s]: [p] is a prefix of [s]. *)
Fixpoint startswith (p s : string) : bool :=
  match p, s with
  | EmptyString, _ => true
  | String a p', String b s' => if Ascii.eqb a b then startswith p' s' else false
  | String _ _, EmptyString => false
  end.

(** [contains sub s] is Python's [sub in s]: some suffix of [s] starts
    with [sub]. *)
Fixpoint contains (sub s : string) : bool :=
  if startswith sub s then true
  else match s with
       | EmptyString => false
       | String _ s' => contains sub s'
       end.

End Str.

(* ================================================================== *)
(** ** The [datetime] module                                           *)
(* ================================================================== *)

Module Datetime.

Definition MINYEAR : Z := 1.
Definition MAXYEAR : Z := 9999.
Definition _MAXORDINAL : Z := 3652059.

Definition _DAYS_IN_MONTH : list Z :=
  [-1; 31; 28; 31; 30; 31; 30; 31; 31; 30; 31; 30; 31].
Definition _DAYS_BEFORE_MONTH : list Z :=
  [-1; 0; 31; 59; 90; 120; 151; 181; 212; 243; 273; 304; 334].

Definition tbl (t : list Z) (i : Z) : Z := nth (Z.to_nat i) t (-1).

Definition _is_leap (year : Z) : bool :=
  (year mod 4 =? 0) && (negb (year mod 100 =? 0) || (year mod 400 =? 0)).

Definition _days_before_year (year : Z) : Z :=
  let y := year - 1 in
  y * 365 + y / 4 - y / 100 + y / 400.

Definition _days_in_month (year month : Z) : Z :=
  if (month =? 2) && _is_leap year then 29 else tbl _DAYS_IN_MONTH month.

Definition _days_before_month (year month : Z) : Z :=
  tbl _DAYS_BEFORE_MONTH month
  + (if (2 <? month) && _is_leap year then 1 else 0).

Definition _ymd2ord (year month day : Z) : Z :=
  _days_before_year year + _days_before_month year month + day.

Definition _DI400Y : Z := 146097.
Definition _DI100Y : Z := 36524.
Definition _DI4Y : Z := 1461.

(** Ordinal to (year, month, day), with 0001-01-01 as day 1. *)
Definition _ord2ymd (n0 : Z) : Z * Z * Z :=
  let n := n0 - 1 in
  let n400 := n / _DI400Y in
  let n := n mod _DI400Y in
  let year := n400 * 400 + 1 in
  let n100 := n / _DI100Y in
  let n := n mod _DI100Y in
  let n4 := n / _DI4Y in
  let n := n mod _DI4Y in
  let n1 := n / 365 in
  let n := n mod 365 in
  let year := year + n100 * 100 + n4 * 4 + n1 in
  if (n1 =? 4) || (n100 =? 4) then (year - 1, 12, 31)
  else
    let leapyear := (n1 =? 3) && (negb (n4 =? 24) || (n100 =? 3)) in
    let month := Z.shiftr (n + 50) 5 in
    let preceding :=
      tbl _DAYS_BEFORE_MONTH month
      + (if (2 <? month) && leapyear then 1 else 0) in
    let '(month, preceding) :=
      if n <? preceding
      then (month - 1,
            preceding - (tbl _DAYS_IN_MONTH (month - 1)
                         + (if (month - 1 =? 2) && leapyear then 1 else 0)))
      else (month, preceding) in
    (year, month, n - preceding + 1).

(** *** [date] and [time] *)

Record date : Type := mk_date { year : Z; month : Z; day : Z }.

Record time : Type :=
  mk_time { hour : Z; minute : Z; second : Z; microsecond : Z }.

Definition date_ok (d : date) : bool :=
  (MINYEAR <=? year d) && (year d <=? MAXYEAR)
  && (1 <=? month d) && (month d <=? 12)
  && (1 <=? day d) && (day d <=? _days_in_month (year d) (month d)).

Definition time_ok (t : time) : bool :=
  (0 <=? hour t) && (hour t <=? 23)
  && (0 <=? minute t) && (minute t <=? 59)
  && (0 <=? second t) && (second t <=? 59)
  && (0 <=? microsecond t) && (microsecond t <=? 999999).

Definition date_toordinal (d : date) : Z :=
  _ymd2ord (year d) (month d) (day d).

Definition date_fromordinal (n : Z) : date :=
  let '(y, m, d) := _ord2ymd n in mk_date y m d.

(** *** [timedelta]: normalised days, seconds, microseconds *)

Record timedelta : Type :=
  mk_timedelta { days : Z; seconds : Z; microseconds : Z }.

#[global] Instance timedelta_eq_dec : EqDecision timedelta.
Proof. solve_decision. Defined.

(** [timedelta(days, seconds, microseconds)] on integers: carries are
    propagated upwards and the day count is range checked. *)
Definition timedelta_new (d s us : Z) : result timedelta :=
  let s := s + us / 1000000 in
  let us := us mod 1000000 in
  let d := d + s / 86400 in
  let s := s mod 86400 in
  if Z.abs d <=? 999999999 then Return (mk_timedelta d s us)
  else Raise OverflowError.

Definition timedelta_add (a b : timedelta) : result timedelta :=
  timedelta_new (days a + days b) (seconds a + seconds b)
                (microseconds a + microseconds b).

Definition timedelta_neg (a : timedelta) : result timedelta :=
  timedelta_new (- days a) (- seconds a) (- microseconds a).

Definition timedelta_sub (a b : timedelta) : result timedelta :=
  timedelta_new (days a - days b) (seconds a - seconds b)
                (microseconds a - microseconds b).

(** Truth value of a timedelta: non-zero. *)
Definition timedelta_bool (a : timedelta) : bool :=
  negb ((days a =? 0) && (seconds a =? 0) && (microseconds a =? 0)).

Definition timedelta_ok (a : timedelta) : bool :=
  (Z.abs (days a) <=? 999999999)
  && (0 <=? seconds a) && (seconds a <? 86400)
  && (0 <=? microseconds a) && (microseconds a <? 1000000).

Definition timedelta_us (a : timedelta) : Z :=
  (days a * 86400 + seconds a) * 1000000 + microseconds a.

(** *** [tzinfo]

    Time zone objects as pytz provides them: every [tzinfo] instance
    belongs to a named zone and carries one fixed offset from UTC, in
    seconds.  pytz keeps one instance per (zone, offset), so identity of
    objects ([is]) is equality of records. *)
Record tzinfo : Type := mk_tzinfo { tz_zone : string; tz_utcoffset : Z }.

#[global] Instance tzinfo_eq_dec : EqDecision tzinfo.
Proof. solve_decision. Defined.

Definition tzinfo_ok (tz : tzinfo) : bool :=
  (-86400 <? tz_utcoffset tz) && (tz_utcoffset tz <? 86400).

(** [pytz.UTC] *)
Definition Utc : tzinfo := mk_tzinfo "UTC" 0.

(** *** [datetime] *)

Record datetime : Type := mk_datetime {
  dt_year : Z; dt_month : Z; dt_day : Z;
  dt_hour : Z; dt_minute : Z; dt_second : Z; dt_microsecond : Z;
  dt_tzinfo : option tzinfo
}.

Definition datetime_date (x : datetime) : date :=
  mk_date (dt_year x) (dt_month x) (dt_day x).

Definition datetime_time (x : datetime) : time :=
  mk_time (dt_hour x) (dt_minute x) (dt_second x) (dt_microsecond x).

Definition datetime_ok (x : datetime) : bool :=
  date_ok (datetime_date x) && time_ok (datetime_time x)
  && match dt_tzinfo x with Some tz => tzinfo_ok tz | None => true end.

(** [datetime.min] and [datetime.max] *)
Definition datetime_min : datetime := mk_datetime 1 1 1 0 0 0 0 None.
Definition datetime_max : datetime :=
  mk_datetime 9999 12 31 23 59 59 999999 None.

(** [datetime.combine(date, time)]; the [time] values of this program
    are naive, so the result is naive. *)
Definition datetime_combine (d : date) (t : time) : datetime :=
  mk_datetime (year d) (month d) (day d)
              (hour t) (minute t) (second t) (microsecond t) None.

(** [x.replace(tzinfo=tz)] *)
Definition replace_tzinfo (x : datetime) (tz : option tzinfo) : datetime :=
  mk_datetime (dt_year x) (dt_month x) (dt_day x)
              (dt_hour x) (dt_minute x) (dt_second x) (dt_microsecond x) tz.

Definition datetime_toordinal (x : datetime) : Z :=
  _ymd2ord (dt_year x) (dt_month x) (dt_day x).

(** [x.utcoffset()] of an aware datetime *)
Definition utcoffset (tz : tzinfo) : result timedelta :=
  timedelta_new 0 (tz_utcoffset tz) 0.

(** [datetime.__add__(self, timedelta)] *)
Definition datetime_add (x : datetime) (other : timedelta) : result datetime :=
  delta ← timedelta_new (datetime_toordinal x)
            (dt_hour x * 3600 + dt_minute x * 60 + dt_second x)
            (dt_microsecond x);
  delta ← timedelta_add delta other;
  let hour := seconds delta / 3600 in
  let rem := seconds delta mod 3600 in
  let minute := rem / 60 in
  let second := rem mod 60 in
  if (0 <? days delta) && (days delta <=? _MAXORDINAL) then
    Return (replace_tzinfo
              (datetime_combine (date_fromordinal (days delta))
                 (mk_time hour minute second (microseconds delta)))
              (dt_tzinfo x))
  else Raise OverflowError.

(** [datetime.__sub__(self, timedelta)] is [self + -other]. *)
Definition datetime_sub_timedelta (x : datetime) (other : timedelta)
  : result datetime :=
  n ← timedelta_neg other;
  datetime_add x n.

(** [datetime.__sub__(self, datetime)] for two aware datetimes. *)
Definition datetime_sub (a b : datetime) : result timedelta :=
  let days1 := datetime_toordinal a in
  let days2 := datetime_toordinal b in
  let secs1 := dt_second a + dt_minute a * 60 + dt_hour a * 3600 in
  let secs2 := dt_second b + dt_minute b * 60 + dt_hour b * 3600 in
  base ← timedelta_new (days1 - days2) (secs1 - secs2)
           (dt_microsecond a - dt_microsecond b);
  match dt_tzinfo a, dt_tzinfo b with
  | None, None => Return base
  | Some ta, Some tb =>
      if decide (ta = tb) then Return base
      else
        myoff ← utcoffset ta;
        otoff ← utcoffset tb;
        if decide (myoff = otoff) then Return base
        else
          r ← timedelta_add base otoff;
          timedelta_sub r myoff
  | _, _ => Raise TypeError
  end.

(** Comparison of tuples of integers, as [_cmp] on the field tuples. *)
Fixpoint tuple_cmp (x y : list Z) : comparison :=
  match x, y with
  | [], [] => Eq
  | [], _ :: _ => Lt
  | _ :: _, [] => Gt
  | a :: x', b :: y' =>
      match a ?= b with
      | Eq => tuple_cmp x' y'
      | c => c
      end
  end.

Definition fields (x : datetime) : list Z :=
  [dt_year x; dt_month x; dt_day x;
   dt_hour x; dt_minute x; dt_second x; dt_microsecond x].

(** [datetime._cmp(self, other)]: field-wise when both carry the same
    [tzinfo] object (or the same offset), through the difference of the
    instants otherwise; a naive and an aware datetime do not compare. *)
Definition datetime_cmp (a b : datetime) : result comparison :=
  let base := Return (tuple_cmp (fields a) (fields b)) in
  match dt_tzinfo a, dt_tzinfo b with
  | None, None => base
  | Some ta, Some tb =>
      if decide (ta = tb) then base
      else
        myoff ← utcoffset ta;
        otoff ← utcoffset tb;
        if decide (myoff = otoff) then base
        else
          diff ← datetime_sub a b;
          if days diff <? 0 then Return Lt
          else Return (if timedelta_bool diff then Gt else Eq)
  | _, _ => Raise TypeError
  end.

Definition datetime_lt (a b : datetime) : result bool :=
  c ← datetime_cmp a b;
  Return (match c with Lt => true | _ => false end).

Definition datetime_gt (a b : datetime) : result bool :=
  c ← datetime_cmp a b;
  Return (match c with Gt => true | _ => false end).

(** *** Time zones and [astimezone]

    The zone a client is configured with: the [tzinfo] object itself and,
    as pytz's transition table does, the instance of the zone that is in
    force at a given (naive) UTC wall time. *)
Record timezone : Type := mk_timezone {
  tz_self : tzinfo;
  tz_fromutc : datetime -> tzinfo
}.

(** [tz.fromutc(utc)] of pytz: add the offset in force and attach that
    instance. *)
Definition fromutc (tz : timezone) (utc : datetime) : result datetime :=
  let dt := replace_tzinfo utc None in
  let inst := tz_fromutc tz dt in
  off ← utcoffset inst;
  x ← datetime_add dt off;
  Return (replace_tzinfo x (Some inst)).

(** [x.astimezone(tz)].  A naive [x] is taken to be in the system's
    local time, whose offset (in seconds) at [x] is [sys_utcoffset x]. *)
Definition astimezone (sys_utcoffset : datetime -> Z)
    (x : datetime) (tz : timezone) : result datetime :=
  match dt_tzinfo x with
  | None =>
      myoffset ← timedelta_new 0 (sys_utcoffset x) 0;
      utc ← datetime_sub_timedelta x myoffset;
      fromutc tz (replace_tzinfo utc (Some (tz_self tz)))
  | Some mytz =>
      myoffset ← utcoffset mytz;
      if decide (tz_self tz = mytz) then Return x
      else
        utc ← datetime_sub_timedelta x myoffset;
        fromutc tz (replace_tzinfo utc (Some (tz_self tz)))
  end.

(** A zone with one fixed offset, such as [pytz.UTC]. *)
Definition static_timezone (tz : tzinfo) : timezone :=
  mk_timezone tz (fun _ => tz).

(** *** Reading a datetime as an instant

    The instant of a datetime in microseconds since the start of day 0 of
    the proleptic calendar: on its own wall clock, and on the UTC clock. *)
Definition naive_us (x : datetime) : Z :=
  (datetime_toordinal x * 86400
   + dt_hour x * 3600 + dt_minute x * 60 + dt_second x) * 1000000
  + dt_microsecond x.

Definition offset_us (x : datetime) : Z :=
  match dt_tzinfo x with
  | Some tz => tz_utcoffset tz * 1000000
  | None => 0
  end.

Definition utc_us (x : datetime) : Z := naive_us x - offset_us x.

(** The date and time fields are in range (as they are in every Python
    object). *)
Definition wall_ok (x : datetime) : bool :=
  date_ok (datetime_date x) && time_ok (datetime_time x).

Definition timezone_ok (tz : timezone) : Prop :=
  tzinfo_ok (tz_self tz) = true /\ forall u, tzinfo_ok (tz_fromutc tz u) = true.

(** The UTC instant a datetime denotes; a naive one is read on the
    system's local clock. *)
Definition instant_us (sys_off : datetime -> Z) (x : datetime) : Z :=
  match dt_tzinfo x with
  | Some _ => utc_us x
  | None => naive_us x - sys_off x * 1000000
  end.

(** The tzinfo of [y] is an instance of the zone [tz]. *)
Definition in_zone (tz : timezone) (y : datetime) : Prop :=
  exists inst, dt_tzinfo y = Some inst
               /\ (inst = tz_self tz \/ exists u, inst = tz_fromutc tz u).

(** [d + timedelta(n)] on a [date]. *)
Definition date_add (d : date) (n : Z) : result date :=
  td ← timedelta_new n 0 0;
  let o := date_toordinal d + days td in
  if (0 <? o) && (o <=? _MAXORDINAL) then Return (date_fromordinal o)
  else Raise OverflowError.

(** Leap-flag versions of the month tables, and the month estimate that
    [_ord2ymd] makes for day [n] of a year. *)
Definition dim_l (leap : bool) (m : Z) : Z :=
  if (m =? 2) && leap then 29 else tbl _DAYS_IN_MONTH m.
Definition dbm_l (leap : bool) (m : Z) : Z :=
  tbl _DAYS_BEFORE_MONTH m + (if (2 <? m) && leap then 1 else 0).

Definition month_day (leapyear : bool) (n : Z) : Z * Z :=
  let month := Z.shiftr (n + 50) 5 in
  let preceding :=
    tbl _DAYS_BEFORE_MONTH month
    + (if (2 <? month) && leapyear then 1 else 0) in
  let '(month, preceding) :=
    if n <? preceding
    then (month - 1,
          preceding - (tbl _DAYS_IN_MONTH (month - 1)
                       + (if (month - 1 =? 2) && leapyear then 1 else 0)))
    else (month, preceding) in
  (month, n - preceding + 1).

Definition month_day_check (leap : bool) (n : Z) : bool :=
  let '(m, d) := month_day leap n in
  (1 <=? m) && (m <=? 12) && (1 <=? d) && (d <=? dim_l leap m)
  && (dbm_l leap m + d =? n + 1).

End Datetime.

(* ================================================================== *)
(** ** The codec: [icalendar] component trees                          *)
(* ================================================================== *)

Module ICal.
Import Datetime.

(** What the [dt] attribute of a decoded date property holds. *)
Inductive dt_value : Type :=
| DDate (d : date)
| DDateTime (x : datetime)
| DDuration (td : timedelta).

Inductive prop_value : Type :=
| vDDDTypes (dt : dt_value)
| vText (s : string).

(** A component: its (upper case) name, its properties keyed by upper
    case names, and its sub-components in document order. *)
#[warnings="-register-all"] Inductive Component : Type :=
| mk_component (name : string) (props : gmap string prop_value)
               (subcomponents : list Component).

Definition name (c : Component) : string :=
  match c with mk_component n _ _ => n end.
Definition props (c : Component) : gmap string prop_value :=
  match c with mk_component _ p _ => p end.
Definition subcomponents (c : Component) : list Component :=
  match c with mk_component _ _ s => s end.

(** [Component._walk(name)]: the component itself if its name matches,
    then the matches of its sub-components, depth first. *)
Fixpoint _walk (n : string) (c : Component) : list Component :=
  match c with
  | mk_component cn _ subs =>
      (if decide (cn = n) then [c] else []) ++ flat_map (_walk n) subs
  end.

(** [Component.walk(name)] *)
Definition walk (n : string) (c : Component) : list Component :=
  _walk (Str.upper n) c.

(** [value.dt] *)
Definition dt (v : prop_value) : result dt_value :=
  match v with
  | vDDDTypes d => Return d
  | vText _ => Raise AttributeError
  end.

(** [str(value)] *)
Definition str (v : prop_value) : string :=
  match v with
  | vText s => s
  | vDDDTypes _ => "<icalendar.prop.vDDDTypes object>"
  end.

(** [icalendar.Event()] and [icalendar.Calendar()] *)
Definition new_Event : Component := mk_component "VEVENT" ∅ [].
Definition new_Calendar : Component := mk_component "VCALENDAR" ∅ [].

(** [component.add(name, value)] on a name that is not set yet (the
    only use the client makes of it). *)
Definition add (c : Component) (n : string) (v : prop_value) : Component :=
  mk_component (name c) (<[Str.upper n := v]> (props c)) (subcomponents c).

Definition add_component (c sub : Component) : Component :=
  mk_component (name c) (props c) (subcomponents c ++ [sub]).

(** The payload of a calendar resource, as the codec sees it: either it
    does not parse, or it is a stream of top-level components. *)
Inductive ical_data : Type :=
| Malformed
| Stream (cals : list Component).

(** [icalendar.Calendar.from_ical(data, multiple=True)] *)
Definition from_ical (data : ical_data) : result (list Component) :=
  match data with
  | Malformed => Raise ValueError
  | Stream cals => Return cals
  end.

End ICal.

(* ================================================================== *)
(** ** The transport: [caldav] calendar collections                    *)
(* ================================================================== *)

Module Dav.
Import Datetime ICal.

(** A calendar object resource ([caldav.Event]): its URL and payload. *)
Record CalObject : Type := mk_object { url : string; data : ical_data }.

(** The operations of [caldav.Calendar] and [caldav.Event] the client
    calls.  [Cal] is the state of the remote collection; the mutating
    operations return the new state.

    [save c u inst] is [obj.save()] on the resource at [u] at the moment
    its vobject instance is [inst].  What the server then holds is the
    library's serialisation of [inst], to which it adds the properties
    that the format requires and that it finds missing (VERSION, PRODID,
    UID); that text is the transport's affair. *)
Class Transport (Cal : Type) : Type := {
  events : Cal -> result (list CalObject);
  date_search : Cal -> datetime -> datetime -> bool -> result (list CalObject);
  event_by_url : Cal -> string -> result CalObject;
  add_event : Cal -> Component -> result Cal;
  delete : Cal -> CalObject -> result Cal;
  save : Cal -> string -> Component -> result Cal
}.

Definition ParseError : exn := DAVError "ParseError".

(** [obj.vobject_instance]: the first component of the payload (the
    library reads one component); a payload without one is refused. *)
Definition vobject_instance (o : CalObject) : result Component :=
  match data o with
  | Stream (cal :: _) => Return cal
  | _ => Raise ParseError
  end.

(** [inst.vevent.summary.value = new_title]: the summary of the first
    event directly under the instance. *)
Fixpoint set_first_vevent_summary (subs : list Component) (new_title : string)
  : result (list Component) :=
  match subs with
  | [] => Raise AttributeError
  | c :: rest =>
      if decide (name c = "VEVENT") then
        match props c !! "SUMMARY" with
        | Some _ =>
            Return (mk_component (name c)
                      (<["SUMMARY" := vText new_title]> (props c))
                      (subcomponents c) :: rest)
        | None => Raise AttributeError
        end
      else
        r ← set_first_vevent_summary rest new_title;
        Return (c :: r)
  end.

(** The instance of [o] after the assignment. *)
Definition set_summary (o : CalObject) (new_title : string)
  : result Component :=
  cal ← vobject_instance o;
  subs ← set_first_vevent_summary (subcomponents cal) new_title;
  Return (mk_component (name cal) (props cal) subs).

(** *** An in-memory collection

    A test double for the transport: the collection is the list of its
    resources, in the order the server enumerates them.  It holds the
    objects as they are handed over, without the properties a
    serialisation adds. *)
Definition MemoryCalendar : Type := list CalObject.

Definition NotFoundError : exn := DAVError "NotFoundError".

Definition has_url (u : string) (o : CalObject) : bool :=
  bool_decide (url o = u).

(** Wall-clock fields of the start of an event component, if any. *)
Definition start_fields (c : Component) : option (list Z) :=
  match props c !! "DTSTART" with
  | Some (vDDDTypes (DDate d)) => Some [year d; month d; day d; 0; 0; 0; 0]
  | Some (vDDDTypes (DDateTime x)) => Some (fields x)
  | _ => None
  end.

Definition starts_within (a b : datetime) (c : Component) : bool :=
  match start_fields c with
  | Some f =>
      match tuple_cmp (fields a) f, tuple_cmp f (fields b) with
      | Gt, _ | _, Gt => false
      | _, _ => true
      end
  | None => false
  end.

Definition object_within (a b : datetime) (o : CalObject) : bool :=
  match data o with
  | Stream (cal :: _) => existsb (starts_within a b) (_walk "VEVENT" cal)
  | _ => false
  end.

Fixpoint fresh_url (n : nat) : string :=
  match n with
  | O => "/calendar/e"
  | S n' => fresh_url n' ++ "e"
  end.

#[global] Instance memory_transport : Transport MemoryCalendar := {
  events c := Return c;
  date_search c a b _ := Return (List.filter (object_within a b) c);
  event_by_url c u :=
    match List.find (has_url u) c with
    | Some o => Return o
    | None => Raise NotFoundError
    end;
  add_event c ical :=
    Return (c ++ [mk_object (fresh_url (length c)) (Stream [ical])])%list;
  delete c o :=
    if existsb (has_url (url o)) c
    then Return (List.filter (fun o' => negb (has_url (url o) o')) c)
    else Raise NotFoundError;
  save c u inst :=
    let o := mk_object u (Stream [inst]) in
    if existsb (has_url u) c
    then Return (map (fun o' => if has_url u o' then o else o') c)
    else Return (c ++ [o])%list
}.

End Dav.

(* ================================================================== *)
(** ** The client: class [CalDavInterface]                             *)
(* ================================================================== *)

Module Client.
Import Datetime ICal Dav.

(** Python values that occur in an Event mapping. *)
Inductive value : Type :=
| VNone
| VStr (s : string)
| VDatetime (x : datetime)
| VUrl (u : string).

(** The Event mapping is a [dict] with string keys. *)
Abbreviation Event := (gmap string value).

(** [d[k]] *)
Definition getitem (d : Event) (k : string) : result value :=
  match d !! k with
  | Some v => Return v
  | None => Raise KeyError
  end.

(** [a < b] and [a > b] on the values above; only two datetimes (or two
    strings) are ordered. *)
Definition py_lt (a b : value) : result bool :=
  match a, b with
  | VDatetime x, VDatetime y => datetime_lt x y
  | VStr s, VStr t => Return (String.ltb s t)
  | _, _ => Raise TypeError
  end.

Definition py_gt (a b : value) : result bool :=
  match a, b with
  | VDatetime x, VDatetime y => datetime_gt x y
  | VStr s, VStr t => Return (String.ltb t s)
  | _, _ => Raise TypeError
  end.

(** [v.tzinfo] *)
Definition attr_tzinfo (v : value) : result (option tzinfo) :=
  match v with
  | VDatetime x => Return (dt_tzinfo x)
  | _ => Raise AttributeError
  end.

(** [v.lower()] *)
Definition attr_lower (v : value) : result string :=
  match v with
  | VStr s => Return (Str.lower s)
  | _ => Raise AttributeError
  end.

(** [l[i]] on a list *)
Definition index {A : Type} (l : list A) (i : nat) : result A :=
  match nth_error l i with
  | Some a => Return a
  | None => Raise IndexError
  end.

(** A [for] loop that updates an accumulator and may raise. *)
Fixpoint for_each {A S : Type} (l : list A) (s : S)
    (body : S -> A -> result S) : result S :=
  match l with
  | [] => Return s
  | a :: l' => s' ← body s a; for_each l' s' body
  end.

(** [sorted(l, key=key)]: the keys are computed first, then the list is
    sorted stably with [<] on the keys alone.  CPython sorts with Timsort;
    what this program can observe of it is the sorted list and whether a
    comparison raised.  A stable sort by a total preorder has one result,
    and a sort of two or more elements compares every element with some
    other, so insertion with [<] gives the same list and raises in the
    same cases (a single element is never compared). *)
Fixpoint insort {A : Type} (x : value * A) (l : list (value * A))
  : result (list (value * A)) :=
  match l with
  | [] => Return [x]
  | y :: l' =>
      b ← py_lt (fst y) (fst x);
      if (b : bool) then r ← insort x l'; Return (y :: r)
      else Return (x :: y :: l')
  end.

Fixpoint sort_keyed {A : Type} (l : list (value * A))
  : result (list (value * A)) :=
  match l with
  | [] => Return []
  | x :: l' => r ← sort_keyed l'; insort x r
  end.

Fixpoint with_keys {A : Type} (key : A -> result value) (l : list A)
  : result (list (value * A)) :=
  match l with
  | [] => Return []
  | a :: l' => k ← key a; r ← with_keys key l'; Return ((k, a) :: r)
  end.

Definition sorted {A : Type} (l : list A) (key : A -> result value)
  : result (list A) :=
  keyed ← with_keys key l;
  r ← sort_keyed keyed;
  Return (map snd r).

(** The system the client runs on: the offset of its local time (for
    naive timestamps) and its clock, [today i] being what the [i]-th call
    of [datetime.today()] returns. *)
Record system : Type := mk_system {
  sys_utcoffset : datetime -> Z;
  today : nat -> datetime
}.

(** The attributes of an instance; [Cal] is the state of the remote
    collection behind the calendar handle. *)
Record CalDavInterface (Cal : Type) : Type := mk_client {
  local_timezone : timezone;
  calendar : Cal
}.
Arguments mk_client {Cal} _ _.
Arguments local_timezone {Cal} _.
Arguments calendar {Cal} _.

(** [get_calendar]: the first calendar of the principal, whose
    calendars are what [principal().calendars()] gives (or its failure). *)
Definition get_calendar {Cal : Type} (calendars : result (list Cal))
  : result Cal :=
  cs ← calendars;
  index cs 0.

(** [__init__] *)
Definition init {Cal : Type} (calendars : result (list Cal))
    (local_timezone : timezone) : result (CalDavInterface Cal) :=
  calendar ← get_calendar calendars;
  Return (mk_client local_timezone calendar).

Section Methods.

Context {Cal : Type} `{!Transport Cal}.

Variable sys : system.
Variable self : CalDavInterface Cal.

Definition get_event_details (event : Component) : result Event :=
  start ←
    match props event !! "DTSTART" with
    | Some v =>
        start ← dt v;
        match start with
        | DDateTime x =>
            y ← astimezone (sys_utcoffset sys) x (local_timezone self);
            Return (VDatetime y)
        | DDate d =>
            let start := datetime_combine d (datetime_time datetime_min) in
            Return (VDatetime (replace_tzinfo start (Some Utc)))
        | DDuration _ => Raise TypeError
        end
    | None => Return VNone
    end;
  end_ ←
    match props event !! "DTEND" with
    | Some v =>
        end_ ← dt v;
        match end_ with
        | DDateTime x =>
            y ← astimezone (sys_utcoffset sys) x (local_timezone self);
            Return (VDatetime y)
        | DDate d =>
            let end_ := datetime_combine d (datetime_time datetime_min) in
            Return (VDatetime (replace_tzinfo end_ (Some Utc)))
        | DDuration _ => Raise TypeError
        end
    | None => Return VNone
    end;
  title ←
    match props event !! "SUMMARY" with
    | Some v => Return (str v)
    | None => Return "untitled event"
    end;
  Return ({[ "title" := VStr title; "starttime" := start;
             "endtime" := end_ ]} : Event).

Definition parse_ics_events (events : list CalObject) : result (list Event) :=
  for_each events [] (fun parsed_events event =>
    cal ← from_ical (data event);
    let url := url event in
    cal0 ← index cal 0;
    for_each (walk "vevent" cal0) parsed_events
      (fun parsed_events vevent =>
         event_details ← get_event_details vevent;
         let event_details := <["event_url" := VUrl url]> event_details in
         Return (parsed_events ++ [event_details])%list)).

Definition get_events_for_timeperiod (startdate enddate : datetime)
  : result (list Event) :=
  events ← date_search (calendar self) startdate enddate true;
  parse_ics_events events.

Definition get_events_for_date (requested_date : date)
  : result (list Event) :=
  get_events_for_timeperiod
    (datetime_combine requested_date (datetime_time datetime_min))
    (datetime_combine requested_date (datetime_time datetime_max)).

(** The scan of [get_next_event]; [i] counts the clock readings. *)
Fixpoint next_event_scan (i : nat) (sorted_events : list Event)
  : result (option Event) :=
  match sorted_events with
  | [] => Return None
  | event :: rest =>
      starttime ← getitem event "starttime";
      let now := today sys i in
      tz ← attr_tzinfo starttime;
      let current_time := replace_tzinfo now tz in
      b ← py_gt starttime (VDatetime current_time);
      if (b : bool) then Return (Some event)
      else next_event_scan (S i) rest
  end.

Definition get_next_event : result (option Event) :=
  all_events ← events (calendar self);
  parsed_events ← parse_ics_events all_events;
  sorted_events ← sorted parsed_events (fun i => getitem i "starttime");
  next_event_scan 0 sorted_events.

(** The list comprehension of [get_events_with_title]. *)
Fixpoint matching (title : string) (parsed_events : list Event)
  : result (list Event) :=
  match parsed_events with
  | [] => Return []
  | event :: rest =>
      t ← getitem event "title";
      low ← attr_lower t;
      r ← matching title rest;
      Return (if Str.contains (Str.lower title) low then event :: r else r)
  end.

Definition get_events_with_title (title : string) : result (list Event) :=
  all_events ← events (calendar self);
  parsed_events ← parse_ics_events all_events;
  matching_events ← matching title parsed_events;
  Return matching_events.

(** The [duration] argument of [create_new_event] is a number (of days)
    or a [timedelta]. *)
Inductive duration : Type :=
| Days (n : Z)
| Delta (td : timedelta).

(** Returns the state of the collection after the event was added. *)
Definition create_new_event (title : string) (date : datetime)
    (duration : duration) (fullday : bool) : result Cal :=
  let cal := new_Calendar in
  let event := new_Event in
  let event := add event "summary" (vText title) in
  '(date, end_) ←
    (if fullday then
       let start := datetime_date date in
       td ← match duration with
            | Days n => timedelta_new n 0 0
            | Delta _ => Raise TypeError
            end;
       e ← datetime_add date td;
       let end_ := datetime_date e in
       Return (DDate start, DDate end_)
     else
       e ← match duration with
           | Delta td => datetime_add date td
           | Days _ => Raise TypeError
           end;
       Return (DDateTime date, DDateTime e));
  let event := add event "dtstart" (vDDDTypes date) in
  let event := add event "dtend" (vDDDTypes end_) in
  let cal := add_component cal event in
  add_event (calendar self) cal.

(** [delete_event] and [rename_event] receive the Event mapping by
    reference: next to the outcome they give the mapping as the caller
    finds it after the call. *)
Definition delete_event (event : Event) : result Cal * Event :=
  (u ← getitem event "event_url";
   caldav_event ←
     match u with
     | VUrl u => event_by_url (calendar self) u
     | _ => Raise (DAVError "invalid url")
     end;
   delete (calendar self) caldav_event,
   event).

Definition rename_event (event : Event) (new_title : string)
  : result Cal * Event :=
  (u ← getitem event "event_url";
   caldav_event ←
     match u with
     | VUrl u => event_by_url (calendar self) u
     | _ => Raise (DAVError "invalid url")
     end;
   inst ← set_summary caldav_event new_title;
   save (calendar self) (url caldav_event) inst,
   event).

End Methods.

End Client.

(* ================================================================== *)
(** ** Vocabulary of the specification                                 *)
(* ================================================================== *)

Module Spec.
Import Datetime ICal Dav Client.

(** *** Event mappings *)

Definition mapping (title : string) (start end_ : value) : Event :=
  {[ "title" := VStr title; "starttime" := start; "endtime" := end_ ]}.

Definition attach (u : string) (d : Event) : Event :=
  <["event_url" := VUrl u]> d.

(** The shape of a decoded event. *)
Definition decoded_event (e : Event) : Prop :=
  exists title start end_ u, e = attach u (mapping title start end_).

(** A decoded start or end is null or an aware datetime with fields in
    range. *)
Definition aware_ok (y : datetime) : bool :=
  wall_ok y
  && match dt_tzinfo y with Some tz => tzinfo_ok tz | None => false end.

Definition when_ok (v : value) : bool :=
  match v with
  | VNone => true
  | VDatetime y => aware_ok y
  | _ => false
  end.

Definition decoded_event_ok (e : Event) : Prop :=
  exists title start end_ u,
    e = attach u (mapping title start end_)
    /\ when_ok start = true /\ when_ok end_ = true.

(** The start of an event mapping, and its instant. *)
Definition start_of (e : Event) : value := default VNone (e !! "starttime").

Definition key_us (v : value) : Z :=
  match v with
  | VDatetime y => utc_us y
  | _ => 0
  end.

Definition start_us (e : Event) : Z := key_us (start_of e).

Definition has_start (e : Event) : bool :=
  match start_of e with
  | VNone => false
  | _ => true
  end.

(** [e] starts strictly after [now], the clock reading being given the
    zone of the start. *)
Definition is_after (now : datetime) (e : Event) : bool :=
  match start_of e with
  | VDatetime s =>
      match datetime_gt s (replace_tzinfo now (dt_tzinfo s)) with
      | Return b => b
      | Raise _ => false
      end
  | _ => false
  end.

(** What the specification means by it: the clock reading [now], given
    the zone of the start of [e], denotes an earlier instant than the
    start. *)
Definition strictly_after (now : datetime) (e : Event) : Prop :=
  exists s, e !! "starttime" = Some (VDatetime s)
            /\ utc_us (replace_tzinfo now (dt_tzinfo s)) < utc_us s.

(** Sort keys: instants, or null. *)
Definition is_instant (v : value) : bool :=
  match v with
  | VDatetime y => aware_ok y
  | _ => false
  end.

Definition key_known (v : value) : bool :=
  is_instant v || match v with VNone => true | _ => false end.

Definition by_key {A : Type} (x1 x2 : value * A) : Prop :=
  key_us (fst x1) <= key_us (fst x2).






Definition title_matches (title : string) (e : Event) : bool :=
  match e !! "title" with
  | Some (VStr s) => Str.contains (Str.lower title) (Str.lower s)
  | _ => false
  end.

(** *** Raw payloads *)

(** A DTSTART/DTEND property as Python can hold it: dates and datetimes
    with fields in range. *)
Definition field_ok (field : option prop_value) : bool :=
  match field with
  | Some (vDDDTypes (DDate d)) => date_ok d
  | Some (vDDDTypes (DDateTime x)) => datetime_ok x
  | _ => true
  end.

(** ... and that can be converted: a date, or a timestamp away from the
    first and the last year of [datetime]. *)
Definition field_convertible (field : option prop_value) : Prop :=
  match field with
  | None => True
  | Some (vDDDTypes (DDate d)) => date_ok d = true
  | Some (vDDDTypes (DDateTime x)) =>
      datetime_ok x = true /\ 2 <= dt_year x <= 9998
  | _ => False
  end.

Definition vevent_ok (v : Component) : bool :=
  field_ok (props v !! "DTSTART") && field_ok (props v !! "DTEND").

(** The date fields of the event components that get decoded are
    well-formed. *)
Definition object_ok (o : CalObject) : bool :=
  match data o with
  | Stream (cal0 :: _) => forallb vevent_ok (walk "vevent" cal0)
  | _ => true
  end.

(** Every event component anywhere in the payload of a result. *)
Definition embedded_events (o : CalObject) : list Component :=
  match data o with
  | Stream cals => flat_map (walk "vevent") cals
  | Malformed => []
  end.

Definition title_of (event : Component) : string :=
  match props event !! "SUMMARY" with
  | Some v => str v
  | None => "untitled event"
  end.

(** A calendar object with one event that has a summary, a start and an
    end. *)
Definition payload (title : string) (dtstart dtend : dt_value) : Component :=
  mk_component "VCALENDAR" ∅
    [mk_component "VEVENT"
       {[ "SUMMARY" := vText title; "DTSTART" := vDDDTypes dtstart;
          "DTEND" := vDDDTypes dtend ]} []].

Definition midnight (d : date) : datetime :=
  mk_datetime (year d) (month d) (day d) 0 0 0 0 None.
Definition end_of_day (d : date) : datetime :=
  mk_datetime (year d) (month d) (day d) 23 59 59 999999 None.

Section WithClient.

Context {Cal : Type} `{!Transport Cal}.
Variable sys : system.
Variable self : CalDavInterface Cal.

Definition system_ok : Prop :=
  forall x, -86400 < sys_utcoffset sys x < 86400.

(** The decoding rule that [get_event_details] applies to DTSTART and
    to DTEND. *)
Definition decode_when (field : option prop_value) : result value :=
  match field with
  | Some v =>
      d ← dt v;
      match d with
      | DDateTime x =>
          y ← astimezone (sys_utcoffset sys) x (local_timezone self);
          Return (VDatetime y)
      | DDate d =>
          Return (VDatetime
                    (replace_tzinfo
                       (datetime_combine d (datetime_time datetime_min))
                       (Some Utc)))
      | DDuration _ => Raise TypeError
      end
  | None => Return VNone
  end.

(** What the specification says of a decoded start or end. *)
Definition decoded_as (field : option prop_value) (v : value) : Prop :=
  match field with
  | None => v = VNone
  | Some (vDDDTypes (DDate d)) =>
      v = VDatetime (mk_datetime (year d) (month d) (day d) 0 0 0 0 (Some Utc))
  | Some (vDDDTypes (DDateTime x)) =>
      exists y, v = VDatetime y
                /\ in_zone (local_timezone self) y
                /\ utc_us y = instant_us (sys_utcoffset sys) x
  | _ => False
  end.

(** One raw result decodes to a group of Event mappings: one for each
    event component found by walking its first top-level component, each
    carrying the result's own URL. *)
Definition decodes_to (o : CalObject) (group : list Event) : Prop :=
  exists cal0 rest,
    data o = Stream (cal0 :: rest)
    /\ Forall2 (fun vevent e =>
                  exists d, get_event_details sys self vevent = Return d
                            /\ e = attach (url o) d)
               (walk "vevent" cal0) group.

(** The two claims that the code does not meet as they are worded. *)
Definition one_mapping_per_embedded_event (events : list CalObject) : Prop :=
  forall parsed,
    parse_ics_events sys self events = Return parsed ->
    length parsed = length (flat_map embedded_events events).

Definition null_start_is_comparison_failure : Prop :=
  forall all parsed,
    events (calendar self) = Return all ->
    parse_ics_events sys self all = Return parsed ->
    existsb (fun e => negb (has_start e)) parsed = true ->
    get_next_event sys self = Raise TypeError.

End WithClient.

End Spec.

(* ================================================================== *)
(** ** Example data                                                    *)
(* ================================================================== *)

Module Examples.
Import Datetime ICal Dav Client Spec.

(** A zone with a summer and a winter offset. *)
Definition example_zone : timezone :=
  mk_timezone (mk_tzinfo "Europe/Berlin" 3208)
    (fun u => if (dt_month u <? 4) || (10 <? dt_month u)
              then mk_tzinfo "Europe/Berlin" 3600
              else mk_tzinfo "Europe/Berlin" 7200).

Definition now0 : datetime := mk_datetime 2024 5 30 12 0 0 0 None.

Definition sys0 : system := mk_system (fun _ => 3600) (fun _ => now0).

(** The same system with a clock that advances by a microsecond from one
    reading to the next. *)
Definition ticking (i : nat) : datetime :=
  mk_datetime 2024 5 30 12 0 0 (Z.min (Z.of_nat i) 999999) None.

Definition sys_ticking : system := mk_system (fun _ => 3600) ticking.

Definition vevent (summary : option string) (dtstart : option dt_value)
  : Component :=
  let p : gmap string prop_value := ∅ in
  let p := match summary with Some t => <["SUMMARY" := vText t]> p | None => p end in
  let p := match dtstart with Some d => <["DTSTART" := vDDDTypes d]> p | None => p end in
  mk_component "VEVENT" p [].

Definition vcalendar (subs : list Component) : Component :=
  mk_component "VCALENDAR" ∅ subs.

Definition store0 : MemoryCalendar :=
  [ mk_object "/calendar/a"
      (Stream [vcalendar [vevent (Some "Alpha") (Some (DDate (mk_date 2024 7 1)))]]);
    mk_object "/calendar/b"
      (Stream [vcalendar [vevent (Some "beta")
         (Some (DDateTime (mk_datetime 2024 6 1 23 30 0 0 (Some Utc))))]]);
    mk_object "/calendar/c"
      (Stream [vcalendar [vevent (Some "old") (Some (DDate (mk_date 2020 7 1)))]]) ].

Definition client0 : CalDavInterface MemoryCalendar :=
  mk_client example_zone store0.

Definition parsed_of (c : CalDavInterface MemoryCalendar) : list Event :=
  match parse_ics_events sys0 c (calendar c) with
  | Return l => l
  | Raise _ => []
  end.

(** A collection whose only event has no start. *)
Definition store_null : MemoryCalendar :=
  [ mk_object "/calendar/n" (Stream [vcalendar [vevent (Some "someday") None]]) ].

Definition client_null : CalDavInterface MemoryCalendar :=
  mk_client example_zone store_null.

(** A collection with a dated event and one without a start. *)
Definition store_mixed : MemoryCalendar :=
  [ mk_object "/calendar/a"
      (Stream [vcalendar [vevent (Some "Alpha") (Some (DDate (mk_date 2024 7 1)))]]);
    mk_object "/calendar/n" (Stream [vcalendar [vevent (Some "someday") None]]) ].

Definition client_mixed : CalDavInterface MemoryCalendar :=
  mk_client example_zone store_mixed.

(** A collection with a title that begins with a capital a-umlaut
    (U+00C4; the small one is U+00E4). *)
Definition A_umlaut : ascii := ascii_of_nat 196.
Definition a_umlaut : ascii := ascii_of_nat 228.

Definition store_umlaut : MemoryCalendar :=
  [ mk_object "/calendar/u"
      (Stream [vcalendar [vevent (Some (String A_umlaut "rger")) None]]) ].

Definition client_umlaut : CalDavInterface MemoryCalendar :=
  mk_client example_zone store_umlaut.

(** A result whose payload is a stream of two calendar objects. *)
Definition two_calendars : CalObject :=
  mk_object "/calendar/two"
    (Stream [vcalendar [vevent (Some "first") (Some (DDate (mk_date 2024 7 1)))];
             vcalendar [vevent (Some "second") (Some (DDate (mk_date 2024 7 2)))]]).

(** An Event mapping whose URL is not in [store0]. *)
Definition gone : Event :=
  attach "/calendar/gone" (mapping "gone" VNone VNone).

Definition june_first : datetime := mk_datetime 2024 6 1 0 0 0 0 None.

(** An event component without a summary, from a timestamp to a date. *)
Definition meeting : Component :=
  mk_component "VEVENT"
    {[ "DTSTART" := vDDDTypes (DDateTime (mk_datetime 2024 6 1 23 30 0 0 (Some Utc)));
       "DTEND" := vDDDTypes (DDate (mk_date 2024 6 2)) ]} [].

End Examples.

(* ================================================================== *)
(** ** Vocabulary of the further properties                            *)
(* ================================================================== *)

Module Laws.
Import Datetime ICal Dav Client Spec.

(** Midnight of a date on the UTC clock. *)
Definition utc_midnight (d : date) : datetime :=
  mk_datetime (year d) (month d) (day d) 0 0 0 0 (Some Utc).

(** The resource a server holds for a submitted calendar object. *)
Definition stored (u : string) (ical : Component) : CalObject :=
  mk_object u (Stream [ical]).

(** An event component with its summary replaced. *)
Definition retitle (v : Component) (t : string) : Component :=
  mk_component (name v) (<["SUMMARY" := vText t]> (props v)) (subcomponents v).

(** No event component among [cs] or below them. *)
Definition eventless (cs : list Component) : Prop :=
  flat_map (_walk "VEVENT") cs = [].

(** Keyed elements, and events, whose start is the instant [k]. *)
Definition has_key {A : Type} (k : Z) (p : value * A) : bool :=
  key_us (fst p) =? k.

Definition starts_at (k : Z) (e : Event) : bool := start_us e =? k.

(** A timestamp that iCalendar text holds as it is: on the UTC clock
    (written with the suffix Z) and in whole seconds. *)
Definition wire_exact (x : datetime) : Prop :=
  dt_tzinfo x = Some Utc /\ dt_microsecond x = 0.

(** [b] has the events of [a], in the same order, each with the start,
    the end and the summary it has in [a]; other properties and other
    components may differ. *)
Definition same_when_and_title (v v' : Component) : Prop :=
  props v !! "DTSTART" = props v' !! "DTSTART"
  /\ props v !! "DTEND" = props v' !! "DTEND"
  /\ props v !! "SUMMARY" = props v' !! "SUMMARY".

Definition keeps_events (a b : Component) : Prop :=
  Forall2 same_when_and_title (walk "vevent" a) (walk "vevent" b).

End Laws.

Module MoreExamples.
Import Datetime ICal Dav Client Spec Examples Laws.

(** A transport that cannot reach its server. *)
Definition ConnectionError : exn := DAVError "ConnectionError".

#[global] Instance offline_transport : Transport unit := {
  events _ := Raise ConnectionError;
  date_search _ _ _ _ := Raise ConnectionError;
  event_by_url _ _ := Raise ConnectionError;
  add_event _ _ := Raise ConnectionError;
  delete _ _ := Raise ConnectionError;
  save _ _ _ := Raise ConnectionError
}.

Definition client_offline : CalDavInterface unit := mk_client example_zone tt.

(** A resource whose payload does not parse. *)
Definition broken : CalObject := mk_object "/calendar/x" Malformed.

(** A task list entry: a calendar object without any event. *)
Definition todo_only : CalObject :=
  mk_object "/calendar/t"
    (Stream [vcalendar [mk_component "VTODO"
                          {[ "SUMMARY" := vText "buy milk" ]} []]]).

Definition decoded_of (v : Component) : Event :=
  match get_event_details sys0 client0 v with
  | Return d => d
  | Raise _ => ∅
  end.

(** The first event decoded from [store0]. *)
Definition alpha : Event := hd ∅ (parsed_of client0).

(** An Event mapping for the resource "/calendar/a" of [store0]. *)
Definition alpha_ref : Event :=
  attach "/calendar/a" (mapping "Alpha" VNone VNone).

(** The resource "/calendar/a" of [store0], its event, its instance
    after the title "Omega" is assigned, and what a server may hold for
    it once saved: the same with the properties a serialisation adds. *)
Definition alpha_event : Component :=
  vevent (Some "Alpha") (Some (DDate (mk_date 2024 7 1))).

Definition alpha_object : CalObject :=
  mk_object "/calendar/a" (Stream [vcalendar [alpha_event]]).

Definition omega_instance : Component :=
  mk_component "VCALENDAR" ∅ [retitle alpha_event "Omega"].

Definition omega_held : Component :=
  mk_component "VCALENDAR"
    {[ "VERSION" := vText "2.0"; "PRODID" := vText "-//example//EN" ]}
    [mk_component "VEVENT"
       (<["UID" := vText "20240530T120000Z-1@example"]>
          (props (retitle alpha_event "Omega"))) []].

(** [meeting] with a location, a recurrence rule and an alarm. *)
Definition meeting_weekly : Component :=
  mk_component "VEVENT"
    (<["RRULE" := vText "FREQ=WEEKLY"]>
       (<["LOCATION" := vText "Room 1"]> (props meeting)))
    [mk_component "VALARM" ∅ []].

(** A collection whose only event has no summary. *)
Definition store_untitled : MemoryCalendar :=
  [ mk_object "/calendar/u" (Stream [vcalendar [meeting]]) ].

Definition client_untitled : CalDavInterface MemoryCalendar :=
  mk_client example_zone store_untitled.

Definition untitled : Event :=
  attach "/calendar/u" (mapping "untitled event" VNone VNone).

(** Two events that start at the same instant, after [now0], and a
    later one that is enumerated first. *)
Definition store_ties : MemoryCalendar :=
  [ mk_object "/calendar/late"
      (Stream [vcalendar [vevent (Some "late") (Some (DDate (mk_date 2024 8 1)))]]);
    mk_object "/calendar/first"
      (Stream [vcalendar [vevent (Some "first")
         (Some (DDateTime (mk_datetime 2024 7 1 0 0 0 0 (Some Utc))))]]);
    mk_object "/calendar/second"
      (Stream [vcalendar [vevent (Some "second")
         (Some (DDateTime (mk_datetime 2024 7 1 2 0 0 0
                             (Some (mk_tzinfo "Europe/Berlin" 7200)))))]]) ].

Definition client_ties : CalDavInterface MemoryCalendar :=
  mk_client example_zone store_ties.

Definition next_of (c : CalDavInterface MemoryCalendar) : Event :=
  match get_next_event sys0 c with
  | Return (Some e) => e
  | _ => ∅
  end.

(** [store0] enumerated in the opposite order. *)
Definition client_reversed : CalDavInterface MemoryCalendar :=
  mk_client example_zone (rev store0).

(** What [create_new_event] makes of [store0] for the "Holiday" event. *)
Definition store_holiday : MemoryCalendar :=
  match create_new_event client0 "Holiday" june_first (Days 3) true with
  | Return c => c
  | Raise _ => []
  end.

Definition call_start : datetime := mk_datetime 2024 6 1 23 30 0 0 (Some Utc).
Definition call_end : datetime := mk_datetime 2024 6 2 0 30 0 0 (Some Utc).
Definition one_hour : timedelta := mk_timedelta 0 3600 0.

End MoreExamples.

(* ================================================================== *)
(** ** Facts: the proleptic Gregorian calendar *)
(* ================================================================== *)

Import Datetime ICal Dav Client Spec.

Ltac divlia := Z.div_mod_to_equations; lia.

Lemma days_before_year_succ y :
  _days_before_year (y + 1)
  = _days_before_year y + 365 + (if _is_leap y then 1 else 0).
Proof.
  unfold _days_before_year, _is_leap.
  replace (y + 1 - 1) with y by lia.
  destruct (y mod 4 =? 0) eqn:E4; destruct (y mod 100 =? 0) eqn:E100;
    destruct (y mod 400 =? 0) eqn:E400; simpl;
    rewrite ?Z.eqb_eq, ?Z.eqb_neq in *; divlia.
Qed.

Lemma days_before_year_mono y1 y2 :
  y1 <= y2 -> _days_before_year y1 <= _days_before_year y2.
Proof.
  unfold _days_before_year. intros. divlia.
Qed.

Lemma forallb_range (f : Z -> bool) (k : nat) :
  forallb f (map Z.of_nat (seq 0 k)) = true ->
  forall n, 0 <= n < Z.of_nat k -> f n = true.
Proof.
  intros H n Hn. rewrite forallb_forall in H. apply H.
  apply in_map_iff. exists (Z.to_nat n). split; [lia|].
  apply in_seq. lia.
Qed.

Lemma month_day_ok (leap : bool) (n : Z) :
  0 <= n < 365 + (if leap then 1 else 0) ->
  month_day_check leap n = true.
Proof.
  intros Hn. destruct leap.
  - apply (forallb_range (month_day_check true) 366); [vm_compute; reflexivity | lia].
  - apply (forallb_range (month_day_check false) 365); [vm_compute; reflexivity | lia].
Qed.

Lemma ord2ymd_unfold n0 :
  _ord2ymd n0 =
  let n := n0 - 1 in
  let a := n / 146097 in
  let n := n mod 146097 in
  let b := n / 36524 in
  let n := n mod 36524 in
  let c := n / 1461 in
  let n := n mod 1461 in
  let e := n / 365 in
  let n := n mod 365 in
  let year := a * 400 + 1 + b * 100 + c * 4 + e in
  if (e =? 4) || (b =? 4) then (year - 1, 12, 31)
  else
    let '(m, d) :=
      month_day ((e =? 3) && (negb (c =? 24) || (b =? 3))) n in
    (year, m, d).
Proof.
  unfold _ord2ymd, month_day, _DI400Y, _DI100Y, _DI4Y. cbv zeta.
  destruct (_ || _); [reflexivity|].
  destruct (_ <? _); reflexivity.
Qed.

Lemma is_leap_decomposed a b c e :
  0 <= b <= 3 -> 0 <= c <= 24 -> 0 <= e <= 3 ->
  _is_leap (a * 400 + 1 + b * 100 + c * 4 + e)
  = (e =? 3) && (negb (c =? 24) || (b =? 3)).
Proof.
  intros Hb Hc He. unfold _is_leap.
  destruct (e =? 3) eqn:E3; destruct (c =? 24) eqn:E24;
    destruct (b =? 3) eqn:B3; simpl;
    rewrite ?Z.eqb_eq, ?Z.eqb_neq in *;
    repeat match goal with
    | |- context [?x =? 0] =>
        let E := fresh "E" in destruct (x =? 0) eqn:E;
        rewrite ?Z.eqb_eq, ?Z.eqb_neq in E
    end; simpl; try reflexivity; exfalso; divlia.
Qed.

Lemma days_before_year_decomposed a b c e :
  0 <= b <= 3 -> 0 <= c <= 24 -> 0 <= e <= 3 ->
  _days_before_year (a * 400 + 1 + b * 100 + c * 4 + e)
  = a * 146097 + b * 36524 + c * 1461 + e * 365.
Proof.
  intros. unfold _days_before_year. divlia.
Qed.

Lemma ord2ymd_spec n :
  let '(y, m, d) := _ord2ymd n in
  1 <= m <= 12 /\ 1 <= d <= _days_in_month y m /\ _ymd2ord y m d = n.
Proof.
  rewrite ord2ymd_unfold. cbv zeta.
  remember ((n - 1) / 146097) as a eqn:Ha.
  remember ((n - 1) mod 146097) as r400 eqn:Hr400.
  remember (r400 / 36524) as b eqn:Hb.
  remember (r400 mod 36524) as r100 eqn:Hr100.
  remember (r100 / 1461) as c eqn:Hc.
  remember (r100 mod 1461) as r4 eqn:Hr4.
  remember (r4 / 365) as e eqn:He.
  remember (r4 mod 365) as r eqn:Hr.
  assert (Hn : n - 1 = a * 146097 + b * 36524 + c * 1461 + e * 365 + r
               /\ 0 <= b <= 4 /\ 0 <= c <= 24 /\ 0 <= e <= 4 /\ 0 <= r < 365
               /\ (b = 4 -> c = 0 /\ e = 0 /\ r = 0)
               /\ (e = 4 -> r = 0 /\ c <= 23)) by (subst; divlia).
  clear Ha Hr400 Hb Hr100 Hc Hr4 He Hr.
  destruct Hn as (Hn & Bb & Bc & Be & Br & Hb4 & He4).
  destruct ((e =? 4) || (b =? 4)) eqn:Edge.
  - (* the last day of a leap year *)
    apply orb_true_iff in Edge. rewrite !Z.eqb_eq in Edge.
    assert (Hy : a * 400 + 1 + b * 100 + c * 4 + e - 1
                 = a * 400 + 1 + (if b =? 4 then 3 else b) * 100
                   + (if b =? 4 then 24 else c) * 4 + 3).
    { destruct (b =? 4) eqn:B4; rewrite ?Z.eqb_eq, ?Z.eqb_neq in B4; lia. }
    rewrite Hy. unfold _ymd2ord, _days_in_month, _days_before_month.
    rewrite is_leap_decomposed, days_before_year_decomposed
      by (destruct (b =? 4) eqn:B4; rewrite ?Z.eqb_eq, ?Z.eqb_neq in B4; lia).
    replace (3 =? 3) with true by reflexivity.
    assert (Hl : negb ((if b =? 4 then 24 else c) =? 24)
                 || ((if b =? 4 then 3 else b) =? 3) = true).
    { destruct (b =? 4) eqn:B4; rewrite ?Z.eqb_eq, ?Z.eqb_neq in B4;
        [reflexivity|].
      apply orb_true_iff. left. apply negb_true_iff, Z.eqb_neq. lia. }
    rewrite Hl. simpl.
    destruct (b =? 4) eqn:B4; rewrite ?Z.eqb_eq, ?Z.eqb_neq in B4;
      unfold tbl; simpl; lia.
  - apply orb_false_iff in Edge. rewrite !Z.eqb_neq in Edge.
    pose proof (month_day_ok ((e =? 3) && (negb (c =? 24) || (b =? 3))) r) as M.
    unfold month_day_check in M.
    destruct (month_day _ r) as [m d].
    unfold _ymd2ord, _days_in_month, _days_before_month.
    rewrite is_leap_decomposed, days_before_year_decomposed by lia.
    fold (dim_l ((e =? 3) && (negb (c =? 24) || (b =? 3))) m).
    fold (dbm_l ((e =? 3) && (negb (c =? 24) || (b =? 3))) m).
    rewrite !andb_true_iff, !Z.leb_le, Z.eqb_eq in M.
    destruct M as ((((M1 & M2) & M3) & M4) & M5).
    { destruct (_ && _); lia. }
    lia.
Qed.

Lemma month_cases m : 1 <= m <= 12 ->
  m = 1 \/ m = 2 \/ m = 3 \/ m = 4 \/ m = 5 \/ m = 6 \/
  m = 7 \/ m = 8 \/ m = 9 \/ m = 10 \/ m = 11 \/ m = 12.
Proof. lia. Qed.

Ltac each_month m H :=
  let C := fresh "C" in
  pose proof (month_cases m H) as C;
  repeat (destruct C as [C | C]; [subst m | ]); [.. | subst m].

Lemma day_of_year_bounds (l : bool) m d :
  1 <= m <= 12 -> 1 <= d <= dim_l l m ->
  1 <= dbm_l l m + d <= 365 + (if l then 1 else 0).
Proof.
  intros Hm Hd. unfold dbm_l, dim_l, tbl in *.
  each_month m Hm; destruct l; simpl in Hd |- *; lia.
Qed.

Lemma days_before_month_mono (l : bool) m m' :
  1 <= m <= 12 -> 1 <= m' <= 12 -> m < m' ->
  dbm_l l m + dim_l l m <= dbm_l l m'.
Proof.
  intros Hm Hm' Hlt.
  unfold dbm_l, dim_l, tbl.
  each_month m Hm; each_month m' Hm'; try lia; destruct l; simpl; lia.
Qed.

Lemma date_ok_iff y m d :
  date_ok (mk_date y m d) = true <->
  1 <= y <= 9999 /\ 1 <= m <= 12 /\ 1 <= d <= _days_in_month y m.
Proof.
  unfold date_ok, MINYEAR, MAXYEAR. simpl.
  rewrite !andb_true_iff, !Z.leb_le. lia.
Qed.

Lemma ymd2ord_cmp y1 m1 d1 y2 m2 d2 :
  1 <= m1 <= 12 -> 1 <= d1 <= _days_in_month y1 m1 ->
  1 <= m2 <= 12 -> 1 <= d2 <= _days_in_month y2 m2 ->
  tuple_cmp [y1; m1; d1] [y2; m2; d2]
  = (_ymd2ord y1 m1 d1 ?= _ymd2ord y2 m2 d2).
Proof.
  intros Hm1 Hd1 Hm2 Hd2.
  unfold _ymd2ord, _days_in_month, _days_before_month in *.
  fold (dim_l (_is_leap y1) m1) in Hd1. fold (dim_l (_is_leap y2) m2) in Hd2.
  fold (dbm_l (_is_leap y1) m1). fold (dbm_l (_is_leap y2) m2).
  pose proof (day_of_year_bounds _ _ _ Hm1 Hd1) as B1.
  pose proof (day_of_year_bounds _ _ _ Hm2 Hd2) as B2.
  pose proof (days_before_year_succ y1) as S1.
  pose proof (days_before_year_succ y2) as S2.
  simpl. symmetry.
  destruct (Z.compare_spec y1 y2) as [Ey | Ly | Ly].
  - subst y2.
    destruct (Z.compare_spec m1 m2) as [Em | Lm | Lm].
    + subst m2.
      destruct (Z.compare_spec d1 d2);
        [apply Z.compare_eq_iff | apply Z.compare_lt_iff
         | apply Z.compare_gt_iff]; lia.
    + pose proof (days_before_month_mono (_is_leap y1) _ _ Hm1 Hm2 Lm).
      apply Z.compare_lt_iff. lia.
    + pose proof (days_before_month_mono (_is_leap y1) _ _ Hm2 Hm1 Lm).
      apply Z.compare_gt_iff. lia.
  - pose proof (days_before_year_mono (y1 + 1) y2 ltac:(lia)).
    apply Z.compare_lt_iff. lia.
  - pose proof (days_before_year_mono (y2 + 1) y1 ltac:(lia)).
    apply Z.compare_gt_iff. lia.
Qed.

Lemma ymd2ord_bounds y m d :
  date_ok (mk_date y m d) = true -> 1 <= _ymd2ord y m d <= _MAXORDINAL.
Proof.
  rewrite date_ok_iff. intros (Hy & Hm & Hd).
  unfold _ymd2ord, _days_in_month, _days_before_month in *.
  fold (dim_l (_is_leap y) m) in Hd. fold (dbm_l (_is_leap y) m).
  pose proof (day_of_year_bounds _ _ _ Hm Hd) as B.
  pose proof (days_before_year_succ y) as S.
  pose proof (days_before_year_mono 1 y ltac:(lia)) as L.
  pose proof (days_before_year_mono (y + 1) 10000 ltac:(lia)) as U.
  change (_days_before_year 1) with 0 in L.
  change (_days_before_year 10000) with 3652059 in U.
  unfold _MAXORDINAL. lia.
Qed.

Lemma fromordinal_ok n :
  1 <= n <= _MAXORDINAL ->
  date_ok (date_fromordinal n) = true /\ date_toordinal (date_fromordinal n) = n.
Proof.
  intros Hn. unfold date_fromordinal, date_toordinal.
  pose proof (ord2ymd_spec n) as S.
  destruct (_ord2ymd n) as [[y m] d]. simpl.
  destruct S as (Hm & Hd & Ho). split; [|exact Ho].
  apply date_ok_iff. repeat split; try lia.
  - (* the year is at least 1 *)
    destruct (Z.le_gt_cases 1 y) as [|Hy]; [assumption|exfalso].
    unfold _ymd2ord, _days_in_month, _days_before_month in *.
    fold (dim_l (_is_leap y) m) in Hd. fold (dbm_l (_is_leap y) m) in Ho.
    pose proof (day_of_year_bounds _ _ _ Hm Hd) as B.
    pose proof (days_before_year_succ y) as S.
    pose proof (days_before_year_mono (y + 1) 1 ltac:(lia)) as L.
    change (_days_before_year 1) with 0 in L. lia.
  - destruct (Z.le_gt_cases y 9999) as [|Hy]; [assumption|exfalso].
    unfold _ymd2ord, _days_in_month, _days_before_month in *.
    fold (dim_l (_is_leap y) m) in Hd. fold (dbm_l (_is_leap y) m) in Ho.
    pose proof (day_of_year_bounds _ _ _ Hm Hd) as B.
    pose proof (days_before_year_mono 10000 y ltac:(lia)) as L.
    change (_days_before_year 10000) with 3652059 in L.
    unfold _MAXORDINAL in *. lia.
Qed.

(* ================================================================== *)
(** ** Facts: timedelta and datetime arithmetic *)
(* ================================================================== *)

Lemma timedelta_ok_iff td :
  timedelta_ok td = true <->
  Z.abs (days td) <= 999999999 /\ 0 <= seconds td < 86400
  /\ 0 <= microseconds td < 1000000.
Proof.
  unfold timedelta_ok.
  rewrite !andb_true_iff, !Z.leb_le, !Z.ltb_lt. lia.
Qed.

Lemma timedelta_new_us d s us td :
  timedelta_new d s us = Return td ->
  timedelta_us td = (d * 86400 + s) * 1000000 + us /\ timedelta_ok td = true.
Proof.
  unfold timedelta_new. destruct (_ <=? _) eqn:E; [|discriminate].
  intros [= <-]. apply Z.leb_le in E. split.
  - unfold timedelta_us. simpl. divlia.
  - apply timedelta_ok_iff. simpl. split; [exact E|]. divlia.
Qed.

Lemma timedelta_new_returns d s us :
  Z.abs ((d * 86400 + s) * 1000000 + us) <= 999999999 * 86400000000 ->
  exists td, timedelta_new d s us = Return td.
Proof.
  intros H. unfold timedelta_new.
  destruct (_ <=? _) eqn:E; [eauto|].
  apply Z.leb_gt in E. exfalso. divlia.
Qed.

Lemma timedelta_new_normal d s us :
  Z.abs d <= 999999999 -> 0 <= s < 86400 -> 0 <= us < 1000000 ->
  timedelta_new d s us = Return (mk_timedelta d s us).
Proof.
  intros Hd Hs Hus. unfold timedelta_new.
  rewrite (Z.div_small us), (Z.mod_small us), Z.add_0_r by lia.
  rewrite (Z.div_small s), (Z.mod_small s), Z.add_0_r by lia.
  apply Z.leb_le in Hd. rewrite Hd. reflexivity.
Qed.

Lemma time_ok_iff t :
  time_ok t = true <->
  0 <= hour t <= 23 /\ 0 <= minute t <= 59 /\ 0 <= second t <= 59
  /\ 0 <= microsecond t <= 999999.
Proof.
  unfold time_ok. rewrite !andb_true_iff, !Z.leb_le. lia.
Qed.

Lemma datetime_ok_iff x :
  datetime_ok x = true <->
  date_ok (datetime_date x) = true /\ time_ok (datetime_time x) = true
  /\ match dt_tzinfo x with Some tz => tzinfo_ok tz = true | None => True end.
Proof.
  unfold datetime_ok. rewrite !andb_true_iff.
  destruct (dt_tzinfo x); intuition.
Qed.

Lemma tzinfo_ok_iff tz :
  tzinfo_ok tz = true <-> -86400 < tz_utcoffset tz < 86400.
Proof. unfold tzinfo_ok. rewrite andb_true_iff, !Z.ltb_lt. tauto. Qed.

Lemma utcoffset_ok tz :
  tzinfo_ok tz = true ->
  exists td, utcoffset tz = Return td
             /\ timedelta_us td = tz_utcoffset tz * 1000000
             /\ timedelta_ok td = true.
Proof.
  rewrite tzinfo_ok_iff. intros H. unfold utcoffset.
  destruct (timedelta_new_returns 0 (tz_utcoffset tz) 0) as [td E]; [lia|].
  exists td. split; [exact E|].
  apply timedelta_new_us in E. destruct E as [E1 E2]. split; [lia|exact E2].
Qed.

Lemma bind_Return {A B} (m : result A) (k : A -> result B) b :
  m ≫= k = Return b -> exists a, m = Return a /\ k a = Return b.
Proof. destruct m; [eauto | discriminate]. Qed.

Lemma bind_of_Return {A B} (m : result A) (k : A -> result B) a :
  m = Return a -> m ≫= k = k a.
Proof. intros ->. reflexivity. Qed.

Lemma bind_of_Raise {A B} (m : result A) (k : A -> result B) e :
  m = Raise e -> m ≫= k = Raise e.
Proof. intros ->. reflexivity. Qed.

Lemma split_seconds s :
  0 <= s < 86400 ->
  0 <= s / 3600 <= 23 /\ 0 <= s mod 3600 / 60 <= 59
  /\ 0 <= (s mod 3600) mod 60 <= 59
  /\ s / 3600 * 3600 + s mod 3600 / 60 * 60 + (s mod 3600) mod 60 = s.
Proof. intros H. divlia. Qed.

Lemma naive_us_combine D T tz :
  naive_us (replace_tzinfo (datetime_combine D T) tz)
  = (date_toordinal D * 86400
     + hour T * 3600 + minute T * 60 + second T) * 1000000
    + microsecond T.
Proof. reflexivity. Qed.

Lemma datetime_date_combine D T tz :
  datetime_date (replace_tzinfo (datetime_combine D T) tz) = D.
Proof. destruct D; reflexivity. Qed.

Lemma datetime_time_combine D T tz :
  datetime_time (replace_tzinfo (datetime_combine D T) tz) = T.
Proof. destruct T; reflexivity. Qed.

Lemma datetime_add_us x td y :
  datetime_add x td = Return y ->
  naive_us y = naive_us x + timedelta_us td
  /\ date_ok (datetime_date y) = true
  /\ time_ok (datetime_time y) = true
  /\ dt_tzinfo y = dt_tzinfo x.
Proof.
  unfold datetime_add. intros H.
  apply bind_Return in H. destruct H as (d1 & E1 & H).
  apply bind_Return in H. destruct H as (d2 & E2 & H).
  destruct (_ && _) eqn:R; [|discriminate].
  injection H as <-.
  apply andb_true_iff in R. rewrite Z.ltb_lt, Z.leb_le in R.
  apply timedelta_new_us in E1. destruct E1 as [U1 _].
  unfold timedelta_add in E2. apply timedelta_new_us in E2.
  destruct E2 as [U2 O2]. apply timedelta_ok_iff in O2.
  destruct (fromordinal_ok (days d2) ltac:(lia)) as [Dok Dord].
  destruct (split_seconds (seconds d2) ltac:(lia)) as (S1 & S2 & S3 & S4).
  rewrite naive_us_combine, datetime_date_combine, datetime_time_combine.
  rewrite Dord. cbn [hour minute second microsecond].
  split; [|split; [exact Dok|split; [|reflexivity]]].
  - unfold timedelta_us, naive_us in *. lia.
  - apply time_ok_iff. cbn [hour minute second microsecond]. lia.
Qed.

Lemma datetime_add_returns x td :
  Z.abs (naive_us x) <= 999999999 * 86400000000 ->
  86400000000 <= naive_us x + timedelta_us td
    < (_MAXORDINAL + 1) * 86400000000 ->
  exists y, datetime_add x td = Return y.
Proof.
  intros Hx Hs. unfold datetime_add, _MAXORDINAL in *.
  destruct (timedelta_new_returns (datetime_toordinal x)
              (dt_hour x * 3600 + dt_minute x * 60 + dt_second x)
              (dt_microsecond x)) as [d1 E1].
  { unfold naive_us in Hx. lia. }
  rewrite (bind_of_Return _ _ _ E1).
  apply timedelta_new_us in E1. destruct E1 as [U1 _].
  unfold timedelta_add.
  destruct (timedelta_new_returns (days d1 + days td)
              (seconds d1 + seconds td)
              (microseconds d1 + microseconds td)) as [d2 E2].
  { unfold naive_us, timedelta_us in *. lia. }
  rewrite (bind_of_Return _ _ _ E2).
  apply timedelta_new_us in E2. destruct E2 as [U2 O2].
  apply timedelta_ok_iff in O2.
  assert (R : (0 <? days d2) && (days d2 <=? 3652059) = true).
  { apply andb_true_iff. rewrite Z.ltb_lt, Z.leb_le.
    unfold naive_us, timedelta_us in *. lia. }
  rewrite R. eauto.
Qed.

Lemma lex_step A B x y M :
  0 <= x < M -> 0 <= y < M ->
  match A ?= B with Eq => x ?= y | Lt => Lt | Gt => Gt end
  = (A * M + x ?= B * M + y).
Proof.
  intros Hx Hy. symmetry.
  destruct (Z.compare_spec A B) as [-> | L | L].
  - destruct (Z.compare_spec x y) as [-> | L | L];
      [apply Z.compare_eq_iff | apply Z.compare_lt_iff | apply Z.compare_gt_iff];
      lia.
  - apply Z.compare_lt_iff. nia.
  - apply Z.compare_gt_iff. nia.
Qed.

Lemma lex_last (c : comparison) :
  match c with Eq => Eq | Lt => Lt | Gt => Gt end = c.
Proof. destruct c; reflexivity. Qed.

Lemma tuple_cmp_app l1 l2 l1' l2' :
  length l1 = length l2 ->
  tuple_cmp (l1 ++ l1') (l2 ++ l2')
  = match tuple_cmp l1 l2 with
    | Eq => tuple_cmp l1' l2' | Lt => Lt | Gt => Gt
    end.
Proof.
  revert l2. induction l1 as [|a l1 IH]; intros [|b l2] Hlen;
    try discriminate; simpl; [reflexivity|].
  destruct (a ?= b); try reflexivity. apply IH. simpl in Hlen. lia.
Qed.

Lemma wall_ok_iff x :
  wall_ok x = true <->
  (1 <= dt_year x <= 9999 /\ 1 <= dt_month x <= 12
   /\ 1 <= dt_day x <= _days_in_month (dt_year x) (dt_month x))
  /\ 0 <= dt_hour x <= 23 /\ 0 <= dt_minute x <= 59
  /\ 0 <= dt_second x <= 59 /\ 0 <= dt_microsecond x <= 999999.
Proof.
  unfold wall_ok. rewrite andb_true_iff, time_ok_iff.
  unfold datetime_date. rewrite date_ok_iff. simpl. tauto.
Qed.

Lemma fields_cmp a b :
  wall_ok a = true -> wall_ok b = true ->
  tuple_cmp (fields a) (fields b) = (naive_us a ?= naive_us b).
Proof.
  rewrite !wall_ok_iff.
  intros ((_ & Hm1 & Hd1) & Hh1 & Hmi1 & Hs1 & Hu1)
         ((_ & Hm2 & Hd2) & Hh2 & Hmi2 & Hs2 & Hu2).
  unfold fields.
  change [dt_year a; dt_month a; dt_day a; dt_hour a; dt_minute a;
          dt_second a; dt_microsecond a]
    with ([dt_year a; dt_month a; dt_day a]
          ++ [dt_hour a; dt_minute a; dt_second a; dt_microsecond a])%list.
  change [dt_year b; dt_month b; dt_day b; dt_hour b; dt_minute b;
          dt_second b; dt_microsecond b]
    with ([dt_year b; dt_month b; dt_day b]
          ++ [dt_hour b; dt_minute b; dt_second b; dt_microsecond b])%list.
  rewrite tuple_cmp_app by reflexivity.
  rewrite ymd2ord_cmp by assumption.
  fold (datetime_toordinal a). fold (datetime_toordinal b).
  cbn [tuple_cmp]. rewrite lex_last.
  rewrite (lex_step (dt_second a) (dt_second b) _ _ 1000000) by lia.
  rewrite (lex_step (dt_minute a) (dt_minute b) _ _ 60000000) by lia.
  rewrite (lex_step (dt_hour a) (dt_hour b) _ _ 3600000000) by lia.
  rewrite (lex_step (datetime_toordinal a) (datetime_toordinal b)
             _ _ 86400000000) by lia.
  unfold naive_us. f_equal; lia.
Qed.

Lemma cmp_shift x y k : (x - k ?= y - k) = (x ?= y).
Proof.
  destruct (Z.compare_spec x y);
    [apply Z.compare_eq_iff | apply Z.compare_lt_iff | apply Z.compare_gt_iff];
    lia.
Qed.

Lemma naive_us_bounds x :
  wall_ok x = true ->
  86400000000 <= naive_us x < (_MAXORDINAL + 1) * 86400000000.
Proof.
  intros H. pose proof H as H'. apply wall_ok_iff in H'.
  unfold wall_ok in H. apply andb_true_iff in H. destruct H as [Hd _].
  apply ymd2ord_bounds in Hd. fold (datetime_toordinal x) in Hd.
  unfold naive_us, _MAXORDINAL in *. lia.
Qed.

Lemma timedelta_sign td :
  timedelta_ok td = true ->
  (days td <? 0) = (timedelta_us td <? 0)
  /\ timedelta_bool td = negb (timedelta_us td =? 0).
Proof.
  rewrite timedelta_ok_iff. unfold timedelta_us, timedelta_bool.
  intros (_ & Hs & Hu). split.
  - destruct (Z.ltb_spec (days td) 0), (Z.ltb_spec
      ((days td * 86400 + seconds td) * 1000000 + microseconds td) 0);
      try reflexivity; lia.
  - f_equal.
    destruct (Z.eqb_spec (days td) 0), (Z.eqb_spec (seconds td) 0),
      (Z.eqb_spec (microseconds td) 0),
      (Z.eqb_spec ((days td * 86400 + seconds td) * 1000000
                   + microseconds td) 0); simpl; try reflexivity; lia.
Qed.

Lemma datetime_sub_aware a b ta tb :
  dt_tzinfo a = Some ta -> dt_tzinfo b = Some tb ->
  wall_ok a = true -> wall_ok b = true ->
  tzinfo_ok ta = true -> tzinfo_ok tb = true ->
  exists td, datetime_sub a b = Return td
             /\ timedelta_us td = utc_us a - utc_us b
             /\ timedelta_ok td = true.
Proof.
  intros Ta Tb Wa Wb Oa Ob.
  pose proof (naive_us_bounds a Wa) as Ba.
  pose proof (naive_us_bounds b Wb) as Bb.
  unfold _MAXORDINAL in *.
  destruct (utcoffset_ok ta Oa) as (myoff & Emy & Umy & Omy).
  destruct (utcoffset_ok tb Ob) as (otoff & Eot & Uot & Oot).
  apply tzinfo_ok_iff in Oa, Ob.
  unfold datetime_sub.
  destruct (timedelta_new_returns
    (datetime_toordinal a - datetime_toordinal b)
    (dt_second a + dt_minute a * 60 + dt_hour a * 3600
     - (dt_second b + dt_minute b * 60 + dt_hour b * 3600))
    (dt_microsecond a - dt_microsecond b)) as [base Eb].
  { unfold naive_us in *. lia. }
  rewrite (bind_of_Return _ _ _ Eb).
  apply timedelta_new_us in Eb. destruct Eb as [Ub Okb].
  assert (Ub' : timedelta_us base = naive_us a - naive_us b)
    by (unfold naive_us; lia).
  clear Ub. rewrite Ta, Tb.
  unfold utc_us, offset_us. rewrite Ta, Tb.
  destruct (decide (ta = tb)) as [-> | Hne].
  { exists base. split; [reflexivity|]. split; [lia|exact Okb]. }
  rewrite (bind_of_Return _ _ _ Emy), (bind_of_Return _ _ _ Eot).
  destruct (decide (myoff = otoff)) as [-> | Hoff].
  { exists base. split; [reflexivity|]. split; [lia|exact Okb]. }
  unfold timedelta_add, timedelta_sub.
  destruct (timedelta_new_returns (days base + days otoff)
    (seconds base + seconds otoff)
    (microseconds base + microseconds otoff)) as [r Er].
  { unfold timedelta_us in *. lia. }
  rewrite (bind_of_Return _ _ _ Er).
  apply timedelta_new_us in Er. destruct Er as [Ur Okr].
  destruct (timedelta_new_returns (days r - days myoff)
    (seconds r - seconds myoff)
    (microseconds r - microseconds myoff)) as [d Ed].
  { unfold timedelta_us in *. lia. }
  exists d. split; [exact Ed|].
  apply timedelta_new_us in Ed. destruct Ed as [Ud Okd].
  split; [unfold timedelta_us in *; lia | exact Okd].
Qed.

Lemma datetime_cmp_aware a b ta tb :
  dt_tzinfo a = Some ta -> dt_tzinfo b = Some tb ->
  wall_ok a = true -> wall_ok b = true ->
  tzinfo_ok ta = true -> tzinfo_ok tb = true ->
  datetime_cmp a b = Return (utc_us a ?= utc_us b).
Proof.
  intros Ta Tb Wa Wb Oa Ob.
  destruct (datetime_sub_aware a b ta tb Ta Tb Wa Wb Oa Ob)
    as (diff & Ediff & Udiff & Okdiff).
  destruct (utcoffset_ok ta Oa) as (myoff & Emy & Umy & Omy).
  destruct (utcoffset_ok tb Ob) as (otoff & Eot & Uot & Oot).
  unfold datetime_cmp. rewrite Ta, Tb.
  assert (Base : ta = tb \/ myoff = otoff ->
                 tuple_cmp (fields a) (fields b) = (utc_us a ?= utc_us b)).
  { intros Same. rewrite fields_cmp by assumption.
    unfold utc_us, offset_us. rewrite Ta, Tb.
    assert (tz_utcoffset ta = tz_utcoffset tb) as ->
      by (destruct Same as [-> | ->]; lia).
    symmetry. apply cmp_shift. }
  destruct (decide (ta = tb)) as [Htz | Htz].
  { rewrite Base by auto. reflexivity. }
  rewrite (bind_of_Return _ _ _ Emy), (bind_of_Return _ _ _ Eot).
  destruct (decide (myoff = otoff)) as [Hoff | Hoff].
  { rewrite Base by auto. reflexivity. }
  rewrite (bind_of_Return _ _ _ Ediff).
  destruct (timedelta_sign diff Okdiff) as [Sg Nz]. rewrite Sg, Nz, Udiff.
  destruct (Z.compare_spec (utc_us a) (utc_us b)) as [E | L | G].
  - rewrite E, Z.sub_diag. reflexivity.
  - destruct (Z.ltb_spec (utc_us a - utc_us b) 0); [reflexivity|lia].
  - destruct (Z.ltb_spec (utc_us a - utc_us b) 0); [lia|].
    destruct (Z.eqb_spec (utc_us a - utc_us b) 0); [lia|reflexivity].
Qed.

Lemma naive_us_replace x tz : naive_us (replace_tzinfo x tz) = naive_us x.
Proof. reflexivity. Qed.

Lemma wall_ok_of_add x td y :
  datetime_add x td = Return y -> wall_ok y = true.
Proof.
  intros H. apply datetime_add_us in H. unfold wall_ok.
  destruct H as (_ & -> & -> & _). reflexivity.
Qed.

Lemma fromutc_spec tz utc y :
  timezone_ok tz ->
  fromutc tz utc = Return y ->
  wall_ok y = true /\ in_zone tz y /\ utc_us y = naive_us utc
  /\ (exists inst, dt_tzinfo y = Some inst /\ tzinfo_ok inst = true).
Proof.
  intros [_ Hz] H. unfold fromutc in H.
  set (inst := tz_fromutc tz (replace_tzinfo utc None)) in *.
  destruct (utcoffset_ok inst (Hz _)) as (off & Eoff & Uoff & _).
  rewrite (bind_of_Return _ _ _ Eoff) in H.
  apply bind_Return in H. destruct H as (x & Ex & H). injection H as <-.
  pose proof (wall_ok_of_add _ _ _ Ex) as W.
  apply datetime_add_us in Ex. destruct Ex as (U & _).
  split; [exact W|]. split; [|split].
  - exists inst. split; [reflexivity|]. right. eexists. reflexivity.
  - unfold utc_us, offset_us. simpl dt_tzinfo.
    rewrite naive_us_replace, U, naive_us_replace. lia.
  - exists inst. split; [reflexivity|apply Hz].
Qed.

Lemma datetime_sub_timedelta_us x td y :
  datetime_sub_timedelta x td = Return y ->
  naive_us y = naive_us x - timedelta_us td.
Proof.
  unfold datetime_sub_timedelta. intros H.
  apply bind_Return in H. destruct H as (n & En & H).
  unfold timedelta_neg in En. apply timedelta_new_us in En.
  apply datetime_add_us in H. destruct En as [Un _], H as [U _].
  unfold timedelta_us in *. lia.
Qed.

Lemma astimezone_spec sys_off x tz y :
  wall_ok x = true ->
  match dt_tzinfo x with Some t => tzinfo_ok t = true | None => True end ->
  timezone_ok tz ->
  astimezone sys_off x tz = Return y ->
  wall_ok y = true /\ in_zone tz y /\ utc_us y = instant_us sys_off x
  /\ (exists inst, dt_tzinfo y = Some inst /\ tzinfo_ok inst = true).
Proof.
  intros Wx Tx Ok H. unfold astimezone, instant_us in *.
  destruct (dt_tzinfo x) as [mytz|] eqn:Tz.
  - destruct (utcoffset_ok mytz Tx) as (myoff & Emy & Umy & _).
    rewrite (bind_of_Return _ _ _ Emy) in H.
    destruct (decide (tz_self tz = mytz)) as [Same | Diff].
    + injection H as <-. split; [exact Wx|]. split; [|split].
      * exists mytz. split; [exact Tz|]. left. congruence.
      * reflexivity.
      * exists mytz. split; [exact Tz|exact Tx].
    + apply bind_Return in H. destruct H as (utc & Eutc & H).
      apply datetime_sub_timedelta_us in Eutc.
      apply (fromutc_spec _ _ _ Ok) in H.
      destruct H as (W & Z & U & I). repeat split; try assumption.
      rewrite U, naive_us_replace, Eutc, Umy.
      unfold utc_us, offset_us. rewrite Tz. reflexivity.
  - apply bind_Return in H. destruct H as (myoff & Emy & H).
    apply timedelta_new_us in Emy. destruct Emy as [Umy _].
    apply bind_Return in H. destruct H as (utc & Eutc & H).
    apply datetime_sub_timedelta_us in Eutc.
    apply (fromutc_spec _ _ _ Ok) in H.
    destruct H as (W & Z & U & I). repeat split; try assumption.
    rewrite U, naive_us_replace, Eutc, Umy. lia.
Qed.

Lemma naive_us_inner_bounds x :
  wall_ok x = true -> 2 <= dt_year x <= 9998 ->
  366 * 86400000000 <= naive_us x < 3651695 * 86400000000.
Proof.
  intros H Hy. apply wall_ok_iff in H.
  destruct H as ((_ & Hm & Hd) & Hh & Hmi & Hs & Hu).
  unfold naive_us, datetime_toordinal, _ymd2ord, _days_in_month,
    _days_before_month in *.
  fold (dim_l (_is_leap (dt_year x)) (dt_month x)) in Hd.
  fold (dbm_l (_is_leap (dt_year x)) (dt_month x)).
  pose proof (day_of_year_bounds _ _ _ Hm Hd) as B.
  pose proof (days_before_year_succ (dt_year x)) as S.
  pose proof (days_before_year_mono 2 (dt_year x) ltac:(lia)) as L.
  pose proof (days_before_year_mono (dt_year x + 1) 9999 ltac:(lia)) as U.
  change (_days_before_year 2) with 365 in L.
  change (_days_before_year 9999) with 3651694 in U.
  lia.
Qed.

Lemma fromutc_returns tz utc :
  timezone_ok tz ->
  2 * 86400000000 <= naive_us utc < 3652059 * 86400000000 ->
  exists y, fromutc tz utc = Return y.
Proof.
  intros [_ Hz] B. unfold fromutc.
  set (inst := tz_fromutc tz (replace_tzinfo utc None)).
  destruct (utcoffset_ok inst (Hz _)) as (off & Eoff & Uoff & _).
  pose proof (Hz (replace_tzinfo utc None)) as Oi. fold inst in Oi.
  apply tzinfo_ok_iff in Oi.
  rewrite (bind_of_Return _ _ _ Eoff).
  destruct (datetime_add_returns (replace_tzinfo utc None) off) as [x Ex].
  { rewrite naive_us_replace. lia. }
  { rewrite naive_us_replace. unfold _MAXORDINAL. lia. }
  rewrite (bind_of_Return _ _ _ Ex). eauto.
Qed.

Lemma datetime_sub_timedelta_returns x td :
  timedelta_ok td = true ->
  Z.abs (timedelta_us td) < 86400000000 ->
  2 * 86400000000 <= naive_us x < 3652059 * 86400000000 ->
  exists y, datetime_sub_timedelta x td = Return y.
Proof.
  intros Ok Small B. unfold datetime_sub_timedelta, timedelta_neg.
  destruct (timedelta_new_returns (- days td) (- seconds td)
              (- microseconds td)) as [n En].
  { unfold timedelta_us in *. lia. }
  rewrite (bind_of_Return _ _ _ En).
  apply timedelta_new_us in En. destruct En as [Un _].
  apply datetime_add_returns; unfold timedelta_us, _MAXORDINAL in *; lia.
Qed.

Lemma astimezone_returns sys_off x tz :
  wall_ok x = true -> 2 <= dt_year x <= 9998 ->
  match dt_tzinfo x with
  | Some t => tzinfo_ok t = true
  | None => -86400 < sys_off x < 86400
  end ->
  timezone_ok tz ->
  exists y, astimezone sys_off x tz = Return y.
Proof.
  intros Wx Yx Tx Ok.
  pose proof (naive_us_inner_bounds x Wx Yx) as B.
  unfold astimezone.
  destruct (dt_tzinfo x) as [mytz|] eqn:Tz.
  - destruct (utcoffset_ok mytz Tx) as (myoff & Emy & Umy & Omy).
    apply tzinfo_ok_iff in Tx.
    rewrite (bind_of_Return _ _ _ Emy).
    destruct (decide (tz_self tz = mytz)); [eauto|].
    destruct (datetime_sub_timedelta_returns x myoff Omy) as [utc Eutc];
      [lia | lia |].
    rewrite (bind_of_Return _ _ _ Eutc).
    apply datetime_sub_timedelta_us in Eutc.
    apply fromutc_returns; [exact Ok|]. rewrite naive_us_replace. lia.
  - destruct (timedelta_new_returns 0 (sys_off x) 0) as [myoff Emy]; [lia|].
    rewrite (bind_of_Return _ _ _ Emy).
    apply timedelta_new_us in Emy. destruct Emy as [Umy Omy].
    destruct (datetime_sub_timedelta_returns x myoff Omy) as [utc Eutc];
      [lia | lia |].
    rewrite (bind_of_Return _ _ _ Eutc).
    apply datetime_sub_timedelta_us in Eutc.
    apply fromutc_returns; [exact Ok|]. rewrite naive_us_replace. lia.
Qed.

(* ================================================================== *)
(** ** Facts: sorting by start instant *)
(* ================================================================== *)

Lemma aware_ok_inv y :
  aware_ok y = true ->
  exists tz, dt_tzinfo y = Some tz /\ wall_ok y = true /\ tzinfo_ok tz = true.
Proof.
  unfold aware_ok. rewrite andb_true_iff. intros [W T].
  destruct (dt_tzinfo y) as [tz|]; [eauto | discriminate].
Qed.

Lemma py_lt_instants a b :
  is_instant a = true -> is_instant b = true ->
  py_lt a b = Return (key_us a <? key_us b).
Proof.
  destruct a as [| |x|], b as [| |y|]; simpl; try discriminate.
  intros Hx Hy.
  apply aware_ok_inv in Hx, Hy.
  destruct Hx as (tx & Tx & Wx & Ox), Hy as (ty & Ty & Wy & Oy).
  unfold datetime_lt.
  rewrite (datetime_cmp_aware x y tx ty) by assumption. simpl.
  rewrite Z.ltb_compare. destruct (utc_us x ?= utc_us y); reflexivity.
Qed.

Lemma py_lt_None_r a : is_instant a = true \/ a = VNone -> py_lt a VNone = Raise TypeError.
Proof. destruct a; simpl; intros [H|H]; try discriminate; reflexivity. Qed.

Section Sorting.
Context {A : Type}.
Implicit Types (x : value * A) (l : list (value * A)).

Lemma insort_spec x l :
  is_instant (fst x) = true ->
  Forall (fun p => is_instant (fst p) = true) l ->
  StronglySorted by_key l ->
  exists r, insort x l = Return r /\ Permutation (x :: l) r
            /\ StronglySorted by_key r.
Proof.
  intros Hx Hl Hs. induction l as [|y l IH]; simpl.
  - exists [x]. repeat split; [reflexivity|].
    constructor; constructor.
  - inversion Hl as [|? ? Hy Hl']; subst.
    apply StronglySorted_inv in Hs. destruct Hs as [Hs Hall].
    rewrite (py_lt_instants _ _ Hy Hx). simpl.
    destruct (Z.ltb_spec (key_us (fst y)) (key_us (fst x))) as [Lt | Ge].
    + destruct (IH Hl' Hs) as (r & -> & P & S). simpl.
      exists (y :: r). split; [reflexivity|]. split.
      * rewrite perm_swap. constructor. exact P.
      * constructor; [exact S|].
        eapply Permutation_Forall; [exact P|].
        constructor; [unfold by_key; lia | exact Hall].
    + exists (x :: y :: l). split; [reflexivity|]. split; [reflexivity|].
      constructor; [constructor; assumption|].
      constructor; [exact Ge|].
      eapply Forall_impl; [exact Hall|].
      unfold by_key. intros p Hp. lia.
Qed.

Lemma sort_keyed_spec l :
  Forall (fun p => is_instant (fst p) = true) l ->
  exists r, sort_keyed l = Return r /\ Permutation l r
            /\ StronglySorted by_key r.
Proof.
  induction l as [|x l IH]; intros Hl; simpl.
  - exists []. repeat split; constructor.
  - inversion Hl as [|? ? Hx Hl']; subst.
    destruct (IH Hl') as (r & -> & P & S). simpl.
    destruct (insort_spec x r Hx) as (r' & E & P' & S'); [|exact S|].
    { eapply Permutation_Forall; [exact P|exact Hl']. }
    exists r'. split; [exact E|]. split; [|exact S'].
    rewrite <- P'. constructor. exact P.
Qed.

Lemma insort_null x l :
  l <> [] ->
  fst x = VNone ->
  Forall (fun p => key_known (fst p) = true) l ->
  insort x l = Raise TypeError.
Proof.
  intros Hne Hx Hl. destruct l as [|y l]; [congruence|].
  inversion Hl as [|? ? Hy _]; subst. simpl. rewrite Hx.
  rewrite py_lt_None_r; [reflexivity|].
  unfold key_known in Hy. apply orb_true_iff in Hy.
  destruct Hy as [Hy|Hy]; [auto|]. right. destruct (fst y); try discriminate.
  reflexivity.
Qed.

Lemma sort_keyed_null l :
  (2 <= length l)%nat ->
  Forall (fun p => key_known (fst p) = true) l ->
  Exists (fun p => fst p = VNone) l ->
  sort_keyed l = Raise TypeError.
Proof.
  induction l as [|x l IH]; intros Hlen Hl Hnull; [simpl in Hlen; lia|].
  inversion Hl as [|? ? Hx Hl']; subst. simpl.
  assert (D : forall p : value * A, {fst p = VNone} + {fst p <> VNone}).
  { intros p. destruct (fst p); (left; reflexivity) || (right; discriminate). }
  destruct (List.Exists_dec (fun p : value * A => fst p = VNone) l D)
    as [Hin | Hnot].
  - (* a null key further down *)
    destruct l as [|y [|z l]]; [inversion Hin| |].
    + inversion Hin as [? ? Hy | ? ? Hn]; subst; [|inversion Hn].
      simpl. rewrite Hy. reflexivity.
    + rewrite IH; [reflexivity | simpl; lia | exact Hl' | exact Hin].
  - (* the null key is the first one, the others are instants *)
    assert (Hx0 : fst x = VNone).
    { inversion Hnull; subst; [assumption | contradiction]. }
    assert (Hinst : Forall (fun p : value * A => is_instant (fst p) = true) l).
    { rewrite <- Forall_Exists_neg in Hnot.
      rewrite Forall_forall in Hl', Hnot |- *. intros p Hp.
      specialize (Hl' p Hp). specialize (Hnot p Hp).
      unfold key_known in Hl'. apply orb_true_iff in Hl'.
      destruct Hl' as [|Hl']; [assumption|].
      destruct (fst p); try discriminate. congruence. }
    destruct (sort_keyed_spec l Hinst) as (r & -> & P & _). simpl.
    apply insort_null; [|exact Hx0|].
    + intros ->. apply Permutation_nil_r in P. subst l. simpl in Hlen. lia.
    + eapply Permutation_Forall; [exact P|].
      eapply Forall_impl; [exact Hinst|].
      intros p Hp. unfold key_known. rewrite Hp. reflexivity.
Qed.

End Sorting.

(* ================================================================== *)
(** ** Facts: decoding one event *)
(* ================================================================== *)

Section DecodeFacts.
Context {Cal : Type} `{!Transport Cal}.
Variable sys : system.
Variable self : CalDavInterface Cal.

Lemma get_event_details_unfold event :
  get_event_details sys self event =
  (start ← decode_when sys self (props event !! "DTSTART");
   end_ ← decode_when sys self (props event !! "DTEND");
   Return (mapping (title_of event) start end_)).
Proof.
  unfold get_event_details, decode_when, title_of, mapping.
  destruct (props event !! "DTSTART") as [[[]|]|];
    destruct (props event !! "DTEND") as [[[]|]|];
    destruct (props event !! "SUMMARY"); try reflexivity.
Qed.

Lemma datetime_ok_wall x :
  datetime_ok x = true ->
  wall_ok x = true
  /\ match dt_tzinfo x with Some t => tzinfo_ok t = true | None => True end.
Proof. rewrite datetime_ok_iff. unfold wall_ok. intros (-> & -> & T). auto. Qed.

Lemma decode_when_spec field v :
  timezone_ok (local_timezone self) ->
  field_ok field = true ->
  decode_when sys self field = Return v ->
  decoded_as sys self field v /\ when_ok v = true.
Proof.
  intros Tz Ok H. unfold decode_when in H.
  destruct field as [[[d | x | td] | s] |]; simpl in *; try discriminate.
  - injection H as <-. split; [reflexivity|].
    unfold when_ok, aware_ok, wall_ok. simpl.
    rewrite andb_true_r. apply andb_true_iff. split; [|reflexivity].
    destruct d; exact Ok.
  - apply bind_Return in H. destruct H as (y & Ey & H). injection H as <-.
    apply datetime_ok_wall in Ok. destruct Ok as [W T].
    destruct (astimezone_spec _ _ _ _ W T Tz Ey) as (Wy & Zy & Uy & inst & Ti & Oi).
    split; [exists y; auto|].
    unfold when_ok, aware_ok. rewrite Wy, Ti, Oi. reflexivity.
  - injection H as <-. split; reflexivity.
Qed.

Lemma decode_when_returns field :
  timezone_ok (local_timezone self) -> system_ok sys ->
  field_convertible field ->
  exists v, decode_when sys self field = Return v.
Proof.
  intros Tz So C. unfold decode_when.
  destruct field as [[[d | x | td] | s] |]; simpl in *; try contradiction;
    eauto.
  destruct C as [Ok Yr]. apply datetime_ok_wall in Ok. destruct Ok as [W T].
  destruct (astimezone_returns (sys_utcoffset sys) x (local_timezone self) W Yr)
    as [y Ey]; [|exact Tz|].
  { destruct (dt_tzinfo x); [exact T | apply So]. }
  rewrite (bind_of_Return _ _ _ Ey). eauto.
Qed.

Lemma field_convertible_ok field :
  field_convertible field -> field_ok field = true.
Proof.
  destruct field as [[[d | x | td] | s] |]; simpl; try tauto.
Qed.

Lemma mapping_lookup title start end_ :
  mapping title start end_ !! "title" = Some (VStr title)
  /\ mapping title start end_ !! "starttime" = Some start
  /\ mapping title start end_ !! "endtime" = Some end_
  /\ mapping title start end_ !! "event_url" = None.
Proof. unfold mapping. repeat split; by simplify_map_eq. Qed.

End DecodeFacts.

(* ================================================================== *)
(** ** Facts: decoding a batch *)
(* ================================================================== *)

Section BatchFacts.
Context {Cal : Type} `{!Transport Cal}.
Variable sys : system.
Variable self : CalDavInterface Cal.

Lemma inner_loop_Return u vs acc out :
  for_each vs acc (fun parsed_events vevent =>
     event_details ← get_event_details sys self vevent;
     let event_details := <["event_url" := VUrl u]> event_details in
     Return (parsed_events ++ [event_details])%list) = Return out
  <-> exists group,
       Forall2 (fun vevent e =>
                  exists d, get_event_details sys self vevent = Return d
                            /\ e = attach u d) vs group
       /\ out = (acc ++ group)%list.
Proof.
  revert acc. induction vs as [|v vs IH]; intros acc; simpl.
  - split.
    + intros [= <-]. exists []. split; [constructor|]. by rewrite app_nil_r.
    + intros (g & F & ->). inversion F; subst. by rewrite app_nil_r.
  - split.
    + intros H. apply bind_Return in H. destruct H as (acc' & E & H).
      apply bind_Return in E. destruct E as (d & Ed & E). injection E as <-.
      apply IH in H. destruct H as (g & F & ->).
      exists (attach u d :: g). split.
      * constructor; [eauto | exact F].
      * by rewrite <- app_assoc.
    + intros (g & F & ->). inversion F as [|? e ? g' (d & Ed & ->) F']; subst.
      rewrite Ed. simpl. apply IH. exists g'. split; [exact F'|].
      by rewrite <- app_assoc.
Qed.

Lemma outer_loop_Return os acc out :
  for_each os acc (fun parsed_events event =>
    cal ← from_ical (data event);
    let url := url event in
    cal0 ← index cal 0;
    for_each (walk "vevent" cal0) parsed_events
      (fun parsed_events vevent =>
         event_details ← get_event_details sys self vevent;
         let event_details := <["event_url" := VUrl url]> event_details in
         Return (parsed_events ++ [event_details])%list)) = Return out
  <-> exists groups, Forall2 (decodes_to sys self) os groups
                     /\ out = (acc ++ concat groups)%list.
Proof.
  revert acc. induction os as [|o os IH]; intros acc; simpl.
  - split.
    + intros [= <-]. exists []. split; [constructor|]. by rewrite app_nil_r.
    + intros (g & F & ->). inversion F; subst. by rewrite app_nil_r.
  - split.
    + intros H. apply bind_Return in H. destruct H as (acc' & E & H).
      apply bind_Return in E. destruct E as (cal & Ec & E).
      apply bind_Return in E. destruct E as (cal0 & E0 & E).
      apply inner_loop_Return in E. destruct E as (g & Fg & ->).
      apply IH in H. destruct H as (gs & F & ->).
      exists (g :: gs). split.
      * constructor; [|exact F].
        unfold from_ical in Ec. destruct (data o) as [|cals] eqn:D;
          [discriminate|]. injection Ec as <-.
        destruct cals as [|c rest]; [discriminate|].
        injection E0 as <-. exists c, rest. auto.
      * simpl. by rewrite <- app_assoc.
    + intros (gs & F & ->).
      inversion F as [|? g ? gs' (cal0 & rest & D & Fg) F']; subst.
      rewrite D.
      change (from_ical (Stream (cal0 :: rest))) with (Return (cal0 :: rest)).
      rewrite (bind_of_Return _ _ (cal0 :: rest) eq_refl). cbv zeta.
      change (index (cal0 :: rest) 0) with (Return cal0).
      rewrite (bind_of_Return _ _ cal0 eq_refl).
      assert (E : for_each (walk "vevent" cal0) acc
        (fun parsed_events vevent =>
           event_details ← get_event_details sys self vevent;
           let event_details := <["event_url" := VUrl (url o)]> event_details in
           Return (parsed_events ++ [event_details])%list)
        = Return (acc ++ g)%list).
      { apply inner_loop_Return. eauto. }
      rewrite (bind_of_Return _ _ _ E). apply IH. exists gs'.
      split; [exact F'|]. simpl. by rewrite <- app_assoc.
Qed.

Lemma parse_ics_events_Return events parsed :
  parse_ics_events sys self events = Return parsed
  <-> exists groups, Forall2 (decodes_to sys self) events groups
                     /\ parsed = concat groups.
Proof. apply (outer_loop_Return events [] parsed). Qed.

Lemma get_event_details_Return vevent d :
  get_event_details sys self vevent = Return d ->
  exists start end_,
    d = mapping (title_of vevent) start end_
    /\ decode_when sys self (props vevent !! "DTSTART") = Return start
    /\ decode_when sys self (props vevent !! "DTEND") = Return end_.
Proof.
  rewrite get_event_details_unfold. intros H.
  apply bind_Return in H. destruct H as (start & Es & H).
  apply bind_Return in H. destruct H as (end_ & Ee & H).
  injection H as <-. eauto.
Qed.

Lemma attach_lookup u title start end_ :
  attach u (mapping title start end_) !! "title" = Some (VStr title)
  /\ attach u (mapping title start end_) !! "starttime" = Some start
  /\ attach u (mapping title start end_) !! "endtime" = Some end_
  /\ attach u (mapping title start end_) !! "event_url" = Some (VUrl u).
Proof. unfold attach, mapping. repeat split; by simplify_map_eq. Qed.

Lemma parsed_shape events parsed :
  parse_ics_events sys self events = Return parsed ->
  Forall decoded_event parsed.
Proof.
  intros H. apply parse_ics_events_Return in H. destruct H as (gs & F & ->).
  induction F as [|o g os gs (cal0 & rest & D & Fg) F IH]; simpl;
    [constructor|].
  apply Forall_app. split; [|exact IH]. clear IH F.
  induction Fg as [|v e vs g (d & Ed & ->) Fg IH]; constructor; [|exact IH].
  apply get_event_details_Return in Ed.
  destruct Ed as (start & end_ & -> & _). unfold decoded_event. eauto.
Qed.

Lemma parsed_shape_ok events parsed :
  timezone_ok (local_timezone self) ->
  forallb object_ok events = true ->
  parse_ics_events sys self events = Return parsed ->
  Forall decoded_event_ok parsed.
Proof.
  intros Tz Ok H. apply parse_ics_events_Return in H.
  destruct H as (gs & F & ->).
  induction F as [|o g os gs (cal0 & rest & D & Fg) F IH]; simpl;
    [constructor|].
  simpl in Ok. apply andb_true_iff in Ok. destruct Ok as [Oo Oos].
  apply Forall_app. split; [|exact (IH Oos)]. clear IH F Oos.
  unfold object_ok in Oo. rewrite D in Oo.
  induction Fg as [|v e vs g (d & Ed & ->) Fg IH]; constructor.
  - simpl in Oo. apply andb_true_iff in Oo. destruct Oo as [Ov _].
    unfold vevent_ok in Ov. apply andb_true_iff in Ov. destruct Ov as [Os Oe].
    apply get_event_details_Return in Ed.
    destruct Ed as (start & end_ & -> & Es & Ee).
    apply (decode_when_spec sys self _ _ Tz Os) in Es.
    apply (decode_when_spec sys self _ _ Tz Oe) in Ee.
    exists (title_of v), start, end_, (url o). tauto.
  - apply IH. simpl in Oo. apply andb_true_iff in Oo. tauto.
Qed.

End BatchFacts.

(* ================================================================== *)
(** ** Facts: the scan for the next event *)
(* ================================================================== *)

Section ScanFacts.
Context {Cal : Type} `{!Transport Cal}.
Variable sys : system.
Variable self : CalDavInterface Cal.

Lemma getitem_Some (e : Event) k v : e !! k = Some v -> getitem e k = Return v.
Proof. unfold getitem. intros ->. reflexivity. Qed.

Lemma start_of_Some (e : Event) v : e !! "starttime" = Some v -> start_of e = v.
Proof. unfold start_of. intros ->. reflexivity. Qed.

Lemma with_keys_starts (l : list Event) :
  Forall (fun e => is_Some (e !! "starttime")) l ->
  with_keys (fun i => getitem i "starttime") l
  = Return (map (fun e => (start_of e, e)) l).
Proof.
  induction 1 as [|e l [v Hv] _ IH]; cbn [with_keys map]; [reflexivity|].
  rewrite (bind_of_Return _ _ _ (getitem_Some _ _ _ Hv)).
  rewrite (bind_of_Return _ _ _ IH).
  rewrite (start_of_Some _ _ Hv). reflexivity.
Qed.

Lemma datetime_gt_same_zone s now tz :
  dt_tzinfo s = Some tz ->
  datetime_gt s (replace_tzinfo now (dt_tzinfo s))
  = Return (match tuple_cmp (fields s) (fields now) with
            | Gt => true | _ => false end).
Proof.
  intros T. unfold datetime_gt, datetime_cmp. rewrite T. simpl.
  destruct (decide (tz = tz)); [reflexivity | congruence].
Qed.

Lemma next_event_scan_find now i (l : list Event) :
  (forall i, today sys i = now) ->
  Forall (fun e => is_instant (start_of e) = true /\ is_Some (e !! "starttime")) l ->
  next_event_scan sys i l = Return (List.find (is_after now) l).
Proof.
  intros Clock Hl. revert i.
  induction Hl as [|e l [He [v Hv]] _ IH]; intros i;
    cbn [next_event_scan List.find]; [reflexivity|].
  rewrite (bind_of_Return _ _ _ (getitem_Some _ _ _ Hv)).
  unfold is_after at 1. rewrite (start_of_Some _ _ Hv) in *.
  destruct v as [| |s|]; try discriminate.
  apply aware_ok_inv in He. destruct He as (tz & T & _).
  cbn [attr_tzinfo]. rewrite (bind_of_Return _ _ (dt_tzinfo s) eq_refl).
  rewrite Clock. cbn [py_gt].
  rewrite (datetime_gt_same_zone s now tz T).
  rewrite (bind_of_Return _ _ _ eq_refl).
  destruct (tuple_cmp _ _); try apply IH. reflexivity.
Qed.

Lemma strictly_after_wall now (e : Event) s :
  e !! "starttime" = Some (VDatetime s) ->
  strictly_after now e <-> naive_us now < naive_us s.
Proof.
  intros Hs. unfold strictly_after, utc_us, offset_us.
  split.
  - intros (s' & E & Lt). rewrite Hs in E. injection E as <-.
    rewrite naive_us_replace in Lt. cbn [replace_tzinfo dt_tzinfo] in Lt. lia.
  - intros Lt. exists s. split; [exact Hs|].
    rewrite naive_us_replace. cbn [replace_tzinfo dt_tzinfo]. lia.
Qed.

Lemma is_after_spec now (e : Event) :
  wall_ok now = true ->
  is_instant (start_of e) = true -> is_Some (e !! "starttime") ->
  is_after now e = true <-> strictly_after now e.
Proof.
  intros Wn He [v Hv]. unfold is_after.
  rewrite (start_of_Some _ _ Hv) in *.
  destruct v as [| |s|]; try discriminate.
  apply aware_ok_inv in He. destruct He as (tz & T & Ws & _).
  rewrite (strictly_after_wall now e s Hv).
  rewrite (datetime_gt_same_zone s now tz T).
  rewrite (fields_cmp s now Ws Wn).
  destruct (Z.compare_spec (naive_us s) (naive_us now)); split;
    intros; try discriminate; try reflexivity; lia.
Qed.

Lemma strictly_after_earlier now now' (e : Event) :
  naive_us now <= naive_us now' ->
  strictly_after now' e -> strictly_after now e.
Proof.
  intros Le (s & Hs & Lt).
  apply (strictly_after_wall now e s Hs).
  assert (L : strictly_after now' e) by (exists s; auto).
  apply (strictly_after_wall now' e s Hs) in L. lia.
Qed.

(** The scan stops at the first event that starts after the reading
    taken for it. *)
Lemma next_event_scan_first i (l : list Event) :
  (forall k, wall_ok (today sys k) = true) ->
  Forall (fun e => is_instant (start_of e) = true
                   /\ is_Some (e !! "starttime")) l ->
  exists r, next_event_scan sys i l = Return r
    /\ match r with
       | Some e =>
           exists pre post,
             l = (pre ++ e :: post)%list
             /\ strictly_after (today sys (i + length pre)) e
             /\ forall k e', nth_error pre k = Some e' ->
                   ~ strictly_after (today sys (i + k)) e'
       | None =>
           forall k e', nth_error l k = Some e' ->
             ~ strictly_after (today sys (i + k)) e'
       end.
Proof.
  intros Clock Hl. revert i.
  induction Hl as [|e l [He [v Hv]] _ IH]; intros i;
    cbn [next_event_scan].
  - exists None. split; [reflexivity|]. intros [|k] e' E; discriminate E.
  - rewrite (bind_of_Return _ _ _ (getitem_Some _ _ _ Hv)).
    pose proof (is_after_spec (today sys i) e (Clock i) He
                  (ex_intro _ v Hv)) as Spec.
    unfold is_after in Spec. rewrite (start_of_Some _ _ Hv) in *.
    destruct v as [| |s|]; try discriminate.
    pose proof He as He'. apply aware_ok_inv in He'.
    destruct He' as (tz & T & _).
    cbn [attr_tzinfo]. rewrite (bind_of_Return _ _ (dt_tzinfo s) eq_refl).
    cbn [py_gt].
    rewrite (datetime_gt_same_zone s (today sys i) tz T) in Spec |- *.
    rewrite (bind_of_Return _ _ _ eq_refl).
    destruct (match tuple_cmp (fields s) (fields (today sys i)) with
              | Gt => true | _ => false end) eqn:B.
    + exists (Some e). split; [reflexivity|]. exists [], l.
      split; [reflexivity|]. cbn [length]. rewrite Nat.add_0_r.
      split; [apply Spec; reflexivity|].
      intros [|k] e' E; discriminate E.
    + destruct (IH (S i)) as (r & -> & Hr). exists r.
      split; [reflexivity|].
      assert (N : ~ strictly_after (today sys i) e).
      { intros A. apply Spec in A. discriminate A. }
      destruct r as [e0|].
      * destruct Hr as (pre & post & -> & A & Before).
        exists (e :: pre), post. split; [reflexivity|].
        cbn [length]. rewrite Nat.add_succ_r. split; [exact A|].
        intros [|k] e' E.
        -- injection E as <-. rewrite Nat.add_0_r. exact N.
        -- rewrite Nat.add_succ_r. apply (Before k e' E).
      * intros [|k] e' E.
        -- injection E as <-. rewrite Nat.add_0_r. exact N.
        -- rewrite Nat.add_succ_r. apply (Hr k e' E).
Qed.

Lemma sorted_from (pre post : list Event) e :
  StronglySorted (fun a b => start_us a <= start_us b) (pre ++ e :: post) ->
  forall e', In e' (e :: post) -> start_us e <= start_us e'.
Proof.
  induction pre as [|a pre IH]; cbn [app]; intros S e' Hin.
  - apply StronglySorted_inv in S. destruct S as [_ Hall].
    destruct Hin as [<- | Hin]; [lia|].
    rewrite List.Forall_forall in Hall. apply Hall. exact Hin.
  - apply StronglySorted_inv in S. destruct S as [S _]. apply IH; assumption.
Qed.

Lemma find_sorted_min (f : Event -> bool) (l : list Event) e :
  StronglySorted (fun a b => start_us a <= start_us b) l ->
  List.find f l = Some e ->
  In e l /\ f e = true
  /\ forall e', In e' l -> f e' = true -> start_us e <= start_us e'.
Proof.
  induction 1 as [|a l S IH Hall]; simpl; [discriminate|].
  destruct (f a) eqn:Fa.
  - intros [= <-]. split; [auto|]. split; [exact Fa|].
    intros e' [<- | Hin] _; [lia|].
    rewrite List.Forall_forall in Hall. apply Hall. exact Hin.
  - intros H. destruct (IH H) as (Hin & Fe & Min).
    split; [auto|]. split; [exact Fe|].
    intros e' [<- | Hin'] Fe'; [congruence|]. apply Min; assumption.
Qed.

Lemma find_none_all (f : Event -> bool) (l : list Event) :
  List.find f l = None -> forall e, In e l -> f e = false.
Proof. intros H e Hin. exact (find_none f l H e Hin). Qed.

Lemma sorted_by_start (l : list Event) :
  Forall (fun e => is_instant (start_of e) = true
                   /\ is_Some (e !! "starttime")) l ->
  exists r, sorted l (fun i => getitem i "starttime") = Return r
            /\ Permutation l r
            /\ StronglySorted (fun a b => start_us a <= start_us b) r.
Proof.
  intros Hl. unfold sorted.
  rewrite with_keys_starts
    by (eapply Forall_impl; [exact Hl|]; intros ? [_ ?]; assumption).
  rewrite (bind_of_Return _ _ _ eq_refl).
  destruct (sort_keyed_spec (map (fun e => (start_of e, e)) l))
    as (r & E & P & S).
  { apply Forall_map. eapply Forall_impl; [exact Hl|].
    intros ? [? _]. assumption. }
  rewrite (bind_of_Return _ _ _ E). exists (map snd r).
  split; [reflexivity|].
  assert (K : Forall (fun p : value * Event => fst p = start_of (snd p)) r).
  { eapply Permutation_Forall; [exact P|]. apply Forall_map.
    apply Forall_forall. reflexivity. }
  split.
  - apply (Permutation_map snd) in P. rewrite map_map, map_id in P. exact P.
  - clear E P. induction S as [|p r S IH Hall]; simpl; constructor.
    + inversion K; subst. apply IH. assumption.
    + inversion K as [|? ? Kp Kr]; subst. apply Forall_map.
      rewrite Forall_forall in Hall, Kr |- *. intros q Hq.
      specialize (Hall q Hq). specialize (Kr q Hq).
      unfold by_key in Hall. unfold start_us. simpl.
      rewrite <- Kp, <- Kr. exact Hall.
Qed.

End ScanFacts.

(* ================================================================== *)
(** ** Facts: substring search *)
(* ================================================================== *)

Lemma append_cons a p q : String a p ++ q = String a (p ++ q).
Proof. reflexivity. Qed.

Lemma append_nil q : "" ++ q = q.
Proof. reflexivity. Qed.

Lemma startswith_spec p s :
  Str.startswith p s = true <-> exists post, s = p ++ post.
Proof.
  revert s. induction p as [|a p IH]; intros s; cbn [Str.startswith].
  - split; [intros _; exists s; reflexivity | reflexivity].
  - destruct s as [|b s].
    + split; [discriminate | intros [post E]; discriminate].
    + destruct (Ascii.eqb_spec a b) as [-> | Ne].
      * rewrite IH. split; intros [post E]; exists post;
          rewrite append_cons in *; congruence.
      * split; [discriminate|].
        intros [post E]. rewrite append_cons in E. congruence.
Qed.

Lemma contains_spec sub s :
  Str.contains sub s = true <-> exists pre post, s = pre ++ sub ++ post.
Proof.
  split.
  - induction s as [|c s IH]; cbn [Str.contains].
    + destruct (Str.startswith sub "") eqn:E; [|discriminate].
      intros _. apply startswith_spec in E. destruct E as [post E].
      exists "", post. exact E.
    + destruct (Str.startswith sub (String c s)) eqn:E.
      * intros _. apply startswith_spec in E. destruct E as [post E].
        exists "", post. exact E.
      * intros H. destruct (IH H) as (pre & post & ->).
        exists (String c pre), post. reflexivity.
  - intros (pre & post & ->). induction pre as [|c pre IH].
    + rewrite append_nil.
      assert (E : Str.startswith sub (sub ++ post) = true)
        by (apply startswith_spec; eauto).
      destruct (sub ++ post); cbn [Str.contains]; rewrite E; reflexivity.
    + rewrite append_cons. cbn [Str.contains]. rewrite IH.
      destruct (Str.startswith _ _); reflexivity.
Qed.

Lemma contains_empty s : Str.contains "" s = true.
Proof. destruct s; reflexivity. Qed.









Section SearchFacts.
Context {Cal : Type} `{!Transport Cal}.
Variable sys : system.
Variable self : CalDavInterface Cal.

Lemma matching_filter title (l : list Event) :
  Forall decoded_event l ->
  matching title l = Return (List.filter (title_matches title) l).
Proof.
  induction 1 as [|e l (t & s & en & u & ->) _ IH];
    cbn [matching List.filter]; [reflexivity|].
  destruct (attach_lookup u t s en) as (Ht & _).
  rewrite (bind_of_Return _ _ _ (getitem_Some _ _ _ Ht)).
  cbn [attr_lower]. rewrite (bind_of_Return _ _ _ eq_refl).
  rewrite (bind_of_Return _ _ _ IH).
  assert (M : title_matches title (attach u (mapping t s en))
              = Str.contains (Str.lower title) (Str.lower t))
    by (unfold title_matches; rewrite Ht; reflexivity).
  rewrite M. reflexivity.
Qed.

End SearchFacts.

(* ================================================================== *)
(** ** The queries *)
(* ================================================================== *)

Section QueryClaims.
Context {Cal : Type} `{!Transport Cal}.
Variable sys : system.
Variable self : CalDavInterface Cal.

Lemma decoded_event_ok_start e :
  decoded_event_ok e -> has_start e = true ->
  is_instant (start_of e) = true /\ is_Some (e !! "starttime").
Proof.
  intros (t & s & en & u & -> & Hs & _) Hh.
  destruct (attach_lookup u t s en) as (_ & Hst & _).
  unfold has_start in Hh. rewrite (start_of_Some _ _ Hst) in *.
  split; [|eauto]. destruct s; try discriminate. exact Hs.
Qed.

(** Claim C1.  When every decoded event of the collection has a start,
    [get_next_event] returns the event whose start instant is least among
    the events that start strictly after the current instant, and [None]
    when no event starts after it.  "Strictly after" is [strictly_after]:
    the clock reading, given the zone of the candidate's start, denotes an
    earlier instant.  The clock is read once per candidate and may advance
    during the scan, but does not go back: the current instant is the
    reading [today sys i] at which the event returned was examined, and for
    [None] the last reading (or any later one). *)
Theorem get_next_event_minimum all parsed :
  (forall i, wall_ok (today sys i) = true) ->
  (forall i j, (i <= j)%nat ->
               naive_us (today sys i) <= naive_us (today sys j)) ->
  timezone_ok (local_timezone self) ->
  events (calendar self) = Return all ->
  forallb object_ok all = true ->
  parse_ics_events sys self all = Return parsed ->
  forallb has_start parsed = true ->
  match get_next_event sys self with
  | Return (Some e) =>
      exists i, (i < length parsed)%nat
        /\ In e parsed /\ strictly_after (today sys i) e
        /\ forall e', In e' parsed -> strictly_after (today sys i) e' ->
                      start_us e <= start_us e'
  | Return None =>
      forall i, (length parsed <= S i)%nat ->
        forall e', In e' parsed -> ~ strictly_after (today sys i) e'
  | Raise _ => False
  end.
Proof.
  intros Wall Mono Tz Ev Ok Parse Starts.
  pose proof (parsed_shape_ok sys self _ _ Tz Ok Parse) as Shape.
  assert (Inst : Forall (fun e : Event => is_instant (start_of e) = true
                          /\ is_Some (e !! "starttime")) parsed).
  { rewrite forallb_forall in Starts.
    rewrite List.Forall_forall in Shape |- *. intros e He.
    apply decoded_event_ok_start; auto. }
  destruct (sorted_by_start parsed Inst) as (r & Es & P & S).
  unfold get_next_event.
  rewrite (bind_of_Return _ _ _ Ev), (bind_of_Return _ _ _ Parse),
    (bind_of_Return _ _ _ Es).
  destruct (next_event_scan_first sys 0 r Wall) as (res & -> & Hres).
  { eapply Permutation_Forall; [exact P|exact Inst]. }
  pose proof (Permutation_length P) as Len.
  destruct res as [e|].
  - destruct Hres as (pre & post & -> & A & Before).
    cbn [Nat.add] in A, Before.
    exists (length pre). rewrite Len, length_app. cbn [length].
    split; [lia|]. split.
    { eapply Permutation_in; [symmetry; exact P|].
      apply in_or_app. right. left. reflexivity. }
    split; [exact A|]. intros e' He' A'.
    apply (Permutation_in _ P) in He'. apply in_app_or in He'.
    destruct He' as [Hpre | Hrest]; [|exact (sorted_from pre post e S e' Hrest)].
    exfalso. apply In_nth_error in Hpre. destruct Hpre as [k Hk].
    apply (Before k e' Hk).
    apply (strictly_after_earlier _ (today sys (length pre))); [|exact A'].
    apply Mono. apply Nat.lt_le_incl.
    apply nth_error_Some. rewrite Hk. discriminate.
  - intros i Hi e' He' A'. cbn [Nat.add] in Hres.
    apply (Permutation_in _ P) in He'.
    apply In_nth_error in He'. destruct He' as [k Hk].
    apply (Hres k e' Hk).
    apply (strictly_after_earlier _ (today sys i)); [|exact A'].
    apply Mono.
    assert (k < length r)%nat by (apply nth_error_Some; rewrite Hk; discriminate).
    lia.
Qed.

Lemma decoded_event_ok_key e :
  decoded_event_ok e ->
  key_known (start_of e) = true /\ is_Some (e !! "starttime").
Proof.
  intros (t & s & en & u & -> & Hs & _).
  destruct (attach_lookup u t s en) as (_ & Hst & _).
  rewrite (start_of_Some _ _ Hst). split; [|eauto].
  unfold key_known. destruct s; try discriminate; simpl in *;
    rewrite ?Hs; reflexivity.
Qed.

(** Claim C2, as the code has it.  When some decoded event has a null
    start, [get_next_event] returns nothing and raises: the comparison
    failure ([TypeError]) of the sort when the collection decodes to two
    or more events, and the attribute failure ([AttributeError]) of
    reading [tzinfo] off the null start when that event is the only
    one. *)
Theorem get_next_event_null_start all parsed :
  timezone_ok (local_timezone self) ->
  events (calendar self) = Return all ->
  forallb object_ok all = true ->
  parse_ics_events sys self all = Return parsed ->
  existsb (fun e => negb (has_start e)) parsed = true ->
  get_next_event sys self
  = Raise (if (2 <=? length parsed)%nat then TypeError else AttributeError).
Proof.
  intros Tz Ev Ok Parse Null.
  pose proof (parsed_shape_ok sys self _ _ Tz Ok Parse) as Shape.
  assert (Keys : Forall (fun e : Event => key_known (start_of e) = true
                          /\ is_Some (e !! "starttime")) parsed).
  { eapply Forall_impl; [exact Shape|]. apply decoded_event_ok_key. }
  unfold get_next_event.
  rewrite (bind_of_Return _ _ _ Ev), (bind_of_Return _ _ _ Parse).
  unfold sorted.
  rewrite with_keys_starts
    by (eapply Forall_impl; [exact Keys|]; intros ? [_ ?]; assumption).
  rewrite (bind_of_Return _ _ _ eq_refl).
  apply existsb_exists in Null. destruct Null as (e0 & Hin0 & Hn0).
  assert (N0 : start_of e0 = VNone).
  { unfold has_start in Hn0. destruct (start_of e0); try discriminate.
    reflexivity. }
  destruct (Nat.leb_spec 2 (length parsed)) as [Many | One].
  - rewrite sort_keyed_null; [reflexivity | | |].
    + rewrite length_map. exact Many.
    + apply Forall_map. eapply Forall_impl; [exact Keys|].
      intros ? [? _]. assumption.
    + apply List.Exists_exists. exists (start_of e0, e0).
      split; [|exact N0]. apply in_map_iff. eauto.
  - destruct parsed as [|e [|e' rest]];
      [contradiction | | simpl in One; lia].
    destruct Hin0 as [<- | []].
    inversion Keys as [|? ? [_ [v Hv]] _]; subst.
    change (sort_keyed (map (fun e0 : Event => (start_of e0, e0)) [e]))
      with (Return [(start_of e, e)]).
    rewrite !(bind_of_Return _ _ _ eq_refl).
    cbn [map snd next_event_scan].
    rewrite (bind_of_Return _ _ _ (getitem_Some _ _ _ Hv)).
    rewrite (start_of_Some _ _ Hv) in N0. subst v. reflexivity.
Qed.


(** Claim C10.  With the empty string as the query,
    [get_events_with_title] returns every decoded event. *)
Theorem get_events_with_title_empty all parsed :
  events (calendar self) = Return all ->
  parse_ics_events sys self all = Return parsed ->
  get_events_with_title sys self "" = Return parsed.
Proof.
  intros Ev Parse.
  pose proof (parsed_shape sys self _ _ Parse) as Shape.
  unfold get_events_with_title.
  rewrite (bind_of_Return _ _ _ Ev), (bind_of_Return _ _ _ Parse).
  rewrite (matching_filter "" parsed Shape).
  rewrite (bind_of_Return _ _ _ eq_refl). f_equal. clear Parse.
  induction Shape as [|e l (t & s & en & u & ->) _ IH]; simpl; [reflexivity|].
  destruct (attach_lookup u t s en) as (Ht & _).
  unfold title_matches at 1. rewrite Ht. cbn [Str.lower].
  rewrite contains_empty. f_equal. exact IH.
Qed.

End QueryClaims.

(* ================================================================== *)
(** ** Decoding, creation and mutation *)
(* ================================================================== *)

Lemma timedelta_days n :
  timedelta_new n 0 0
  = if Z.abs n <=? 999999999 then Return (mk_timedelta n 0 0)
    else Raise OverflowError.
Proof.
  unfold timedelta_new.
  change (0 / 1000000) with 0. change (0 mod 1000000) with 0.
  change ((0 + 0) / 86400) with 0. change ((0 + 0) mod 86400) with 0.
  rewrite Z.add_0_r. reflexivity.
Qed.

Lemma datetime_add_days {B} x n (k : date -> result B) :
  wall_ok x = true ->
  (td ← timedelta_new n 0 0; e ← datetime_add x td; k (datetime_date e))
  = (e ← date_add (datetime_date x) n; k e).
Proof.
  intros W. unfold date_add. rewrite timedelta_days.
  destruct (Z.leb_spec (Z.abs n) 999999999) as [Hn | Hn]; [|reflexivity].
  rewrite !(bind_of_Return _ _ _ eq_refl). cbn [days].
  change (date_toordinal (datetime_date x)) with (datetime_toordinal x).
  pose proof W as W'. apply wall_ok_iff in W'.
  destruct W' as (_ & Hh & Hmi & Hs & Hu).
  unfold wall_ok in W. apply andb_true_iff in W. destruct W as [Wd _].
  apply ymd2ord_bounds in Wd. fold (datetime_toordinal x) in Wd.
  unfold _MAXORDINAL in Wd.
  unfold datetime_add.
  rewrite timedelta_new_normal by lia.
  rewrite (bind_of_Return _ _ _ eq_refl).
  unfold timedelta_add. cbn [days seconds microseconds].
  rewrite !Z.add_0_r.
  destruct (Z.leb_spec (Z.abs (datetime_toordinal x + n)) 999999999)
    as [Ho | Ho].
  - rewrite timedelta_new_normal by lia.
    rewrite (bind_of_Return _ _ _ eq_refl). cbn [days seconds microseconds].
    destruct ((0 <? datetime_toordinal x + n)
              && (datetime_toordinal x + n <=? _MAXORDINAL)); [|reflexivity].
    rewrite !(bind_of_Return _ _ _ eq_refl).
    rewrite datetime_date_combine. reflexivity.
  - assert (E : timedelta_new (datetime_toordinal x + n)
                  (dt_hour x * 3600 + dt_minute x * 60 + dt_second x)
                  (dt_microsecond x) = Raise OverflowError).
    { unfold timedelta_new.
      rewrite (Z.div_small (dt_microsecond x)),
        (Z.mod_small (dt_microsecond x)), Z.add_0_r by lia.
      rewrite (Z.div_small (_ + dt_second x)), Z.add_0_r by lia.
      apply Z.leb_gt in Ho. rewrite Ho. reflexivity. }
    rewrite E. cbn.
    assert (R : (0 <? datetime_toordinal x + n)
                && (datetime_toordinal x + n <=? _MAXORDINAL) = false).
    { apply andb_false_iff. unfold _MAXORDINAL.
      destruct (Z.ltb_spec 0 (datetime_toordinal x + n)); [right|left; reflexivity].
      apply Z.leb_gt. lia. }
    rewrite R. reflexivity.
Qed.

Section DecodeClaims.
Context {Cal : Type} `{!Transport Cal}.
Variable sys : system.
Variable self : CalDavInterface Cal.

(** Claim C4.  [create_new_event] submits one calendar object with one
    event.  For a full-day event both ends are dates and the end is the
    start date plus the duration in days; otherwise both ends are
    timestamps and the end is the start plus the duration as a time span
    (same zone, instant moved by the span).  Where the sum is out of the
    range of [datetime] nothing is submitted and the overflow is
    raised. *)
Theorem create_new_event_payload title date :
  wall_ok date = true ->
  (forall n,
     create_new_event self title date (Days n) true
     = (e ← date_add (datetime_date date) n;
        add_event (calendar self)
          (payload title (DDate (datetime_date date)) (DDate e))))
  /\ (forall td,
        create_new_event self title date (Delta td) false
        = (e ← datetime_add date td;
           add_event (calendar self)
             (payload title (DDateTime date) (DDateTime e))))
  /\ (forall td e, datetime_add date td = Return e ->
        naive_us e = naive_us date + timedelta_us td
        /\ dt_tzinfo e = dt_tzinfo date).
Proof.
  intros W. split; [|split].
  - intros n. unfold create_new_event.
    rewrite <- (datetime_add_days date n _ W).
    destruct (timedelta_new n 0 0) as [td|]; [|reflexivity].
    rewrite !(bind_of_Return _ _ _ eq_refl).
    destruct (datetime_add date td) as [e|]; reflexivity.
  - intros td. unfold create_new_event.
    destruct (datetime_add date td) as [e|]; reflexivity.
  - intros td e E. apply datetime_add_us in E. tauto.
Qed.

(** Claim C5.  [get_events_for_date D] is [get_events_for_timeperiod]
    from midnight of [D] to the end of day of [D]. *)
Theorem get_events_for_date_is_range D :
  get_events_for_date sys self D
  = get_events_for_timeperiod sys self (midnight D) (end_of_day D).
Proof. reflexivity. Qed.

(** Claim C7.  When the URL of an Event mapping does not resolve, the
    failure [e] of the transport's lookup is what [delete_event] and
    [rename_event] raise, and the mapping is as it was. *)
Theorem lookup_failure_propagates (event : Event) u e new_title :
  event !! "event_url" = Some (VUrl u) ->
  event_by_url (calendar self) u = Raise e ->
  delete_event self event = (Raise e, event)
  /\ rename_event self event new_title = (Raise e, event).
Proof.
  intros Hu He. unfold delete_event, rename_event.
  rewrite !(bind_of_Return _ _ _ (getitem_Some _ _ _ Hu)).
  rewrite !(bind_of_Raise _ _ _ He). split; reflexivity.
Qed.

(** Claim C3.  [get_event_details] decodes DTSTART and DTEND each by
    the same rule: a date becomes midnight of that date in UTC, a
    timestamp becomes the same instant in an instance of the configured
    zone, an absent field becomes null. *)
Theorem get_event_details_dates event :
  timezone_ok (local_timezone self) -> system_ok sys ->
  field_convertible (props event !! "DTSTART") ->
  field_convertible (props event !! "DTEND") ->
  exists ev start end_,
    get_event_details sys self event = Return ev
    /\ ev !! "starttime" = Some start /\ ev !! "endtime" = Some end_
    /\ decoded_as sys self (props event !! "DTSTART") start
    /\ decoded_as sys self (props event !! "DTEND") end_.
Proof.
  intros Tz So Cs Ce.
  destruct (decode_when_returns sys self _ Tz So Cs) as [start Es].
  destruct (decode_when_returns sys self _ Tz So Ce) as [end_ Ee].
  exists (mapping (title_of event) start end_), start, end_.
  rewrite get_event_details_unfold.
  rewrite (bind_of_Return _ _ _ Es), (bind_of_Return _ _ _ Ee).
  destruct (mapping_lookup (title_of event) start end_) as (_ & Hs & He & _).
  apply field_convertible_ok in Cs, Ce.
  apply (decode_when_spec sys self _ _ Tz Cs) in Es.
  apply (decode_when_spec sys self _ _ Tz Ce) in Ee.
  tauto.
Qed.

(** Claim C9.  An event component without a summary decodes to a
    mapping whose title is "untitled event". *)
Theorem get_event_details_untitled event :
  props event !! "SUMMARY" = None ->
  (forall ev, get_event_details sys self event = Return ev ->
              ev !! "title" = Some (VStr "untitled event"))
  /\ (timezone_ok (local_timezone self) -> system_ok sys ->
      field_convertible (props event !! "DTSTART") ->
      field_convertible (props event !! "DTEND") ->
      exists ev, get_event_details sys self event = Return ev).
Proof.
  intros Hs. split.
  - intros ev E. apply get_event_details_Return in E.
    destruct E as (start & end_ & -> & _).
    unfold title_of. rewrite Hs. apply mapping_lookup.
  - intros Tz So Cs Ce.
    destruct (decode_when_returns sys self _ Tz So Cs) as [start Es].
    destruct (decode_when_returns sys self _ Tz So Ce) as [end_ Ee].
    rewrite get_event_details_unfold.
    rewrite (bind_of_Return _ _ _ Es), (bind_of_Return _ _ _ Ee). eauto.
Qed.

(** Claim C8, as the code has it.  [parse_ics_events] returns exactly
    when every result decodes, and then gives, in the order of the
    results, one Event mapping for each event component under the first
    top-level component of each payload, carrying the URL of the result
    it came from.  Later top-level components of a payload are not
    read. *)
Theorem parse_ics_events_per_result events parsed :
  parse_ics_events sys self events = Return parsed
  <-> exists groups, Forall2 (decodes_to sys self) events groups
                     /\ parsed = concat groups.
Proof. apply parse_ics_events_Return. Qed.

End DecodeClaims.

(* ================================================================== *)
(** ** The claims on the example data *)
(* ================================================================== *)

Import Examples.

Lemma get_next_event_minimum_witness :
  match get_next_event sys_ticking client0 with
  | Return (Some e) =>
      exists i, (i < length (parsed_of client0))%nat
        /\ In e (parsed_of client0) /\ strictly_after (today sys_ticking i) e
        /\ forall e', In e' (parsed_of client0) ->
                      strictly_after (today sys_ticking i) e' ->
                      start_us e <= start_us e'
  | Return None =>
      forall i, (length (parsed_of client0) <= S i)%nat ->
        forall e', In e' (parsed_of client0) ->
                   ~ strictly_after (today sys_ticking i) e'
  | Raise _ => False
  end.
Proof.
  apply (get_next_event_minimum sys_ticking client0 store0 (parsed_of client0)).
  - intros i. apply wall_ok_iff. unfold sys_ticking, ticking. cbn.
    repeat split; try lia. vm_compute. discriminate.
  - intros i j Le. unfold sys_ticking, ticking, naive_us, datetime_toordinal.
    cbn [today dt_year dt_month dt_day dt_hour dt_minute dt_second
         dt_microsecond]. lia.
  - split; [reflexivity|]. intros u. unfold example_zone. simpl.
    destruct (_ || _); reflexivity.
  - reflexivity.
  - vm_compute. reflexivity.
  - reflexivity.
  - vm_compute. reflexivity.
Defined.

(** The event that is found there is "beta", on 2 June at 01:30 in the
    summer offset of the zone. *)
Example get_next_event_example :
  (r ← get_next_event sys0 client0;
   Return (option_map (fun e : Event => (e !! "title", e !! "starttime")) r))
  = Return (Some (Some (VStr "beta"),
                  Some (VDatetime
                          (mk_datetime 2024 6 2 1 30 0 0
                             (Some (mk_tzinfo "Europe/Berlin" 7200)))))).
Proof. vm_compute. reflexivity. Qed.

Lemma get_next_event_null_start_witness :
  get_next_event sys0 client_mixed = Raise TypeError.
Proof.
  rewrite (get_next_event_null_start sys0 client_mixed store_mixed
             (parsed_of client_mixed)).
  - vm_compute. reflexivity.
  - split; [reflexivity|]. intros u. unfold example_zone. simpl.
    destruct (_ || _); reflexivity.
  - reflexivity.
  - vm_compute. reflexivity.
  - reflexivity.
  - vm_compute. reflexivity.
Defined.

(** Claim C2 as it is worded fails on a collection of one event without
    a start: nothing is compared, and the failure is the attribute
    failure of the scan. *)
Lemma single_null_start_is_attribute_failure :
  get_next_event sys0 client_null = Raise AttributeError
  /\ ~ null_start_is_comparison_failure sys0 client_null.
Proof.
  split; [vm_compute; reflexivity|]. intros H.
  assert (E : get_next_event sys0 client_null = Raise TypeError).
  { apply (H store_null (parsed_of client_null));
      [reflexivity | reflexivity | vm_compute; reflexivity]. }
  vm_compute in E. discriminate E.
Qed.


(** "A" matches "Alpha" and "beta", not "old". *)
Example get_events_with_title_example :
  (r ← get_events_with_title sys0 client0 "A";
   Return (map (fun e : Event => e !! "title") r))
  = Return [Some (VStr "Alpha"); Some (VStr "beta")].
Proof. vm_compute. reflexivity. Qed.

(** Case is ignored beyond ASCII too: the query with a small a-umlaut
    finds the title written with the capital one, and the other way
    round. *)
Example get_events_with_title_umlaut :
  (r ← get_events_with_title sys0 client_umlaut (String a_umlaut "RGER");
   Return (map (fun e : Event => e !! "event_url") r))
  = Return [Some (VUrl "/calendar/u")]
  /\ Str.lower (String A_umlaut "rger") = String a_umlaut "rger".
Proof. split; vm_compute; reflexivity. Qed.

Lemma get_events_with_title_empty_witness :
  get_events_with_title sys0 client0 "" = Return (parsed_of client0).
Proof.
  apply (get_events_with_title_empty sys0 client0 store0 (parsed_of client0)).
  - reflexivity.
  - reflexivity.
Defined.

(** The scenario of the specification: a full-day event "Holiday" from
    2024-06-01 for 3 days. *)
Lemma create_new_event_payload_witness :
  wall_ok june_first = true
  /\ create_new_event client0 "Holiday" june_first (Days 3) true
     = add_event store0
         (payload "Holiday" (DDate (mk_date 2024 6 1))
                            (DDate (mk_date 2024 6 4))).
Proof.
  split; [reflexivity|].
  rewrite (proj1 (create_new_event_payload client0 "Holiday" june_first
                    eq_refl) 3).
  reflexivity.
Defined.

(** ... and a timed event of one hour. *)
Example create_new_event_one_hour :
  create_new_event client0 "Call" (mk_datetime 2024 6 1 23 30 0 0 (Some Utc))
    (Delta (mk_timedelta 0 3600 0)) false
  = add_event store0
      (payload "Call"
         (DDateTime (mk_datetime 2024 6 1 23 30 0 0 (Some Utc)))
         (DDateTime (mk_datetime 2024 6 2 0 30 0 0 (Some Utc)))).
Proof. reflexivity. Qed.

Lemma lookup_failure_propagates_witness :
  delete_event client0 gone = (Raise NotFoundError, gone)
  /\ rename_event client0 gone "back" = (Raise NotFoundError, gone).
Proof.
  apply (lookup_failure_propagates client0 gone "/calendar/gone"
           NotFoundError "back").
  - reflexivity.
  - reflexivity.
Defined.

Lemma get_event_details_dates_witness :
  exists ev start end_,
    get_event_details sys0 client0 meeting = Return ev
    /\ ev !! "starttime" = Some start /\ ev !! "endtime" = Some end_
    /\ decoded_as sys0 client0 (props meeting !! "DTSTART") start
    /\ decoded_as sys0 client0 (props meeting !! "DTEND") end_.
Proof.
  apply (get_event_details_dates sys0 client0 meeting).
  - split; [reflexivity|]. intros u. unfold example_zone. simpl.
    destruct (_ || _); reflexivity.
  - intros x. simpl. lia.
  - change (datetime_ok (mk_datetime 2024 6 1 23 30 0 0 (Some Utc)) = true
            /\ 2 <= 2024 <= 9998).
    split; [reflexivity|lia].
  - change (date_ok (mk_date 2024 6 2) = true). reflexivity.
Defined.

Example get_event_details_example :
  (ev ← get_event_details sys0 client0 meeting;
   Return (ev !! "title", ev !! "starttime", ev !! "endtime"))
  = Return (Some (VStr "untitled event"),
            Some (VDatetime (mk_datetime 2024 6 2 1 30 0 0
                               (Some (mk_tzinfo "Europe/Berlin" 7200)))),
            Some (VDatetime (mk_datetime 2024 6 2 0 0 0 0 (Some Utc)))).
Proof. vm_compute. reflexivity. Qed.

Lemma get_event_details_untitled_witness :
  (forall ev, get_event_details sys0 client0 meeting = Return ev ->
              ev !! "title" = Some (VStr "untitled event"))
  /\ (timezone_ok (local_timezone client0) -> system_ok sys0 ->
      field_convertible (props meeting !! "DTSTART") ->
      field_convertible (props meeting !! "DTEND") ->
      exists ev, get_event_details sys0 client0 meeting = Return ev).
Proof.
  apply (get_event_details_untitled sys0 client0 meeting).
  reflexivity.
Defined.

(** Claim C8 as it is worded fails on a payload that is a stream of two
    calendar objects: the event of the second one is embedded in the
    result and gets no mapping. *)
Lemma later_calendars_are_not_read :
  (r ← parse_ics_events sys0 client0 [two_calendars];
   Return (map (fun e : Event => e !! "title") r))
  = Return [Some (VStr "first")]
  /\ length (embedded_events two_calendars) = 2%nat
  /\ ~ one_mapping_per_embedded_event sys0 client0 [two_calendars].
Proof.
  split; [vm_compute; reflexivity|].
  split; [reflexivity|]. intros H.
  specialize (H (match parse_ics_events sys0 client0 [two_calendars] with
                 | Return l => l
                 | Raise _ => []
                 end) eq_refl).
  vm_compute in H. discriminate H.
Qed.

(* ================================================================== *)
(** ** Further properties: batch decoding *)
(* ================================================================== *)

Import Laws MoreExamples.

Section BatchLaws.
Context {Cal : Type} `{!Transport Cal}.
Variable sys : system.
Variable self : CalDavInterface Cal.

Lemma for_each_app {A S} (l1 l2 : list A) (s : S) body :
  for_each (l1 ++ l2) s body = (s' ← for_each l1 s body; for_each l2 s' body).
Proof.
  revert s. induction l1 as [|a l1 IH]; intros s; cbn [for_each app];
    [reflexivity|].
  destruct (body s a) as [s'|e]; [|reflexivity].
  rewrite !(bind_of_Return _ _ s' eq_refl). apply IH.
Qed.

(** Appending loops only ever extend the accumulator. *)
Lemma appending_loop {A B} (l : list A) (acc : list B)
    (f : A -> result (list B)) :
  for_each l acc (fun acc a => r ← f a; Return (acc ++ r)%list)
  = (r ← for_each l [] (fun acc a => r ← f a; Return (acc ++ r)%list);
     Return (acc ++ r)%list).
Proof.
  revert acc. induction l as [|a l IH]; intros acc; cbn [for_each].
  - rewrite (bind_of_Return _ _ [] eq_refl). by rewrite app_nil_r.
  - destruct (f a) as [r|e]; [|reflexivity].
    rewrite !(bind_of_Return _ _ r eq_refl).
    rewrite !(bind_of_Return _ _ _ eq_refl).
    rewrite (IH (acc ++ r)%list). change ([] ++ r)%list with r.
    rewrite (IH r).
    destruct (for_each l [] _) as [r'|e]; [|reflexivity].
    rewrite !(bind_of_Return _ _ r' eq_refl).
    rewrite !(bind_of_Return _ _ _ eq_refl). simpl. by rewrite app_assoc.
Qed.

Lemma for_each_ext {A S} (l : list A) (s : S) body body' :
  (forall s a, body s a = body' s a) ->
  for_each l s body = for_each l s body'.
Proof.
  intros E. revert s. induction l as [|a l IH]; intros s; cbn [for_each];
    [reflexivity|].
  rewrite E. destruct (body' s a); [|reflexivity].
  rewrite !(bind_of_Return _ _ _ eq_refl). apply IH.
Qed.

Lemma parse_ics_events_one o :
  parse_ics_events sys self [o]
  = (cal ← from_ical (data o);
     cal0 ← index cal 0;
     for_each (walk "vevent" cal0) []
       (fun acc vevent =>
          r ← (d ← get_event_details sys self vevent;
               Return [attach (url o) d]);
          Return (acc ++ r)%list)).
Proof.
  unfold parse_ics_events. cbn [for_each].
  destruct (from_ical (data o)) as [cal|e]; [|reflexivity].
  rewrite !(bind_of_Return _ _ cal eq_refl). cbv zeta.
  destruct (index cal 0) as [cal0|e]; [|reflexivity].
  rewrite !(bind_of_Return _ _ cal0 eq_refl).
  rewrite (for_each_ext (walk "vevent" cal0) []
             (fun acc vevent =>
                r ← (d ← get_event_details sys self vevent;
                     Return [attach (url o) d]);
                Return (acc ++ r)%list)
             (fun parsed_events vevent =>
                event_details ← get_event_details sys self vevent;
                Return (parsed_events
                        ++ [<["event_url" := VUrl (url o)]> event_details])%list)).
  - destruct (for_each _ _ _); reflexivity.
  - intros acc v. destruct (get_event_details sys self v); reflexivity.
Qed.

Lemma parse_ics_events_loop events :
  parse_ics_events sys self events
  = for_each events []
      (fun acc o => r ← parse_ics_events sys self [o]; Return (acc ++ r)%list).
Proof.
  unfold parse_ics_events at 1. apply for_each_ext. intros acc o.
  rewrite parse_ics_events_one.
  destruct (from_ical (data o)) as [cal|e]; [|reflexivity].
  rewrite !(bind_of_Return _ _ cal eq_refl). cbv zeta.
  destruct (index cal 0) as [cal0|e]; [|reflexivity].
  rewrite !(bind_of_Return _ _ cal0 eq_refl).
  rewrite <- (appending_loop (walk "vevent" cal0) acc
     (fun vevent => d ← get_event_details sys self vevent;
                    Return [attach (url o) d])).
  apply for_each_ext. intros acc' v.
  destruct (get_event_details sys self v); reflexivity.
Qed.

Lemma parse_ics_events_split a b :
  parse_ics_events sys self (a ++ b)
  = (la ← parse_ics_events sys self a;
     lb ← parse_ics_events sys self b;
     Return (la ++ lb)%list).
Proof.
  rewrite !parse_ics_events_loop.
  rewrite for_each_app.
  destruct (for_each a [] _) as [la|e]; [|reflexivity].
  rewrite !(bind_of_Return _ _ la eq_refl).
  apply appending_loop.
Qed.

(** X1.  Decoding a batch is decoding its parts in order: the events of
    [a ++ b] are those of [a] followed by those of [b], and the first
    failure (of [a], else of [b]) is the failure of the whole. *)
Theorem parse_ics_events_app a b :
  match parse_ics_events sys self a, parse_ics_events sys self b with
  | Return la, Return lb =>
      parse_ics_events sys self (a ++ b) = Return (la ++ lb)%list
  | Return _, Raise e => parse_ics_events sys self (a ++ b) = Raise e
  | Raise e, _ => parse_ics_events sys self (a ++ b) = Raise e
  end.
Proof.
  rewrite parse_ics_events_split.
  destruct (parse_ics_events sys self a) as [la|e]; [|reflexivity].
  destruct (parse_ics_events sys self b) as [lb|e]; reflexivity.
Qed.

Lemma parse_ics_events_undecodable o :
  (data o = Malformed -> parse_ics_events sys self [o] = Raise ValueError)
  /\ (data o = Stream [] -> parse_ics_events sys self [o] = Raise IndexError).
Proof.
  rewrite parse_ics_events_one. split; intros ->; reflexivity.
Qed.

Lemma parse_ics_events_cons o post :
  parse_ics_events sys self (o :: post)
  = (lo ← parse_ics_events sys self [o];
     lp ← parse_ics_events sys self post;
     Return (lo ++ lp)%list).
Proof. apply (parse_ics_events_split [o] post). Qed.

(** X2.  One result whose payload does not parse, or has no top-level
    component, makes the whole batch raise, whatever the other results
    are; when the results before it decode, the failure is [ValueError]
    for the unparsable payload and [IndexError] for the empty one. *)
Theorem parse_ics_events_aborts events o :
  In o events ->
  data o = Malformed \/ data o = Stream [] ->
  raises (parse_ics_events sys self events)
  /\ forall pre post l,
       events = (pre ++ o :: post)%list ->
       parse_ics_events sys self pre = Return l ->
       parse_ics_events sys self events
       = Raise (match data o with Malformed => ValueError | _ => IndexError end).
Proof.
  intros Hin Bad.
  assert (One : parse_ics_events sys self [o]
                = Raise (match data o with
                         | Malformed => ValueError | _ => IndexError end)).
  { destruct (parse_ics_events_undecodable o) as [M E].
    destruct Bad as [B|B]; rewrite B; auto. }
  assert (Exact : forall pre post l,
            events = (pre ++ o :: post)%list ->
            parse_ics_events sys self pre = Return l ->
            parse_ics_events sys self events
            = Raise (match data o with
                     | Malformed => ValueError | _ => IndexError end)).
  { intros pre post l -> Hpre.
    rewrite parse_ics_events_split, (bind_of_Return _ _ _ Hpre).
    rewrite parse_ics_events_cons, One. reflexivity. }
  split; [|exact Exact].
  apply in_split in Hin. destruct Hin as (pre & post & ->).
  destruct (parse_ics_events sys self pre) as [l|e] eqn:Hpre.
  - eexists. eapply Exact; eauto.
  - exists e. rewrite parse_ics_events_split, Hpre. reflexivity.
Qed.

(** X3.  A result whose first top-level component holds no event
    component adds nothing and breaks nothing: the batch decodes as it
    does without that result. *)
Theorem parse_ics_events_skips_eventless pre o post cal rest :
  data o = Stream (cal :: rest) ->
  walk "vevent" cal = [] ->
  parse_ics_events sys self (pre ++ o :: post)
  = parse_ics_events sys self (pre ++ post).
Proof.
  intros D W.
  assert (One : parse_ics_events sys self [o] = Return []).
  { rewrite parse_ics_events_one, D.
    change (from_ical (Stream (cal :: rest))) with (Return (cal :: rest)).
    rewrite (bind_of_Return _ _ _ eq_refl).
    change (index (cal :: rest) 0) with (Return cal).
    rewrite (bind_of_Return _ _ _ eq_refl). rewrite W. reflexivity. }
  rewrite !parse_ics_events_split, parse_ics_events_cons, One.
  rewrite (bind_of_Return _ _ _ eq_refl).
  destruct (parse_ics_events sys self pre); [|reflexivity].
  rewrite !(bind_of_Return _ _ _ eq_refl).
  destruct (parse_ics_events sys self post); reflexivity.
Qed.

Lemma decoded_keys u t s en :
  dom (attach u (mapping t s en))
  = ({[ "title"; "starttime"; "endtime"; "event_url" ]} : gset string).
Proof.
  unfold attach, mapping.
  rewrite !dom_insert_L, dom_singleton_L. set_solver.
Qed.

(** X4.  Every mapping that [parse_ics_events] returns has exactly the
    keys title, starttime, endtime and event_url; its title is a string
    and its event_url is the URL of one of the results given. *)
Theorem parsed_events_keys events parsed e :
  parse_ics_events sys self events = Return parsed ->
  In e parsed ->
  dom e = ({[ "title"; "starttime"; "endtime"; "event_url" ]} : gset string)
  /\ (exists t, e !! "title" = Some (VStr t))
  /\ (exists o, In o events /\ e !! "event_url" = Some (VUrl (url o))).
Proof.
  intros H Hin. apply parse_ics_events_Return in H.
  destruct H as (gs & F & ->).
  induction F as [|o g os gs (cal0 & rest & D & Fg) F IH]; simpl in Hin;
    [contradiction|].
  apply in_app_or in Hin. destruct Hin as [Hin | Hin].
  - clear IH F.
    assert (G : exists d, e = attach (url o) d
                          /\ exists v, get_event_details sys self v = Return d).
    { clear D. induction Fg as [|v e' vs g (d & Ed & ->) Fg IH];
        [contradiction|].
      destruct Hin as [<- | Hin]; [eauto | auto]. }
    destruct G as (d & -> & v & Ed).
    apply get_event_details_Return in Ed.
    destruct Ed as (start & end_ & -> & _).
    destruct (attach_lookup (url o) (title_of v) start end_) as (Ht & _ & _ & Hu).
    split; [apply decoded_keys|]. split; [eauto|].
    exists o. split; [left; reflexivity | exact Hu].
  - destruct (IH Hin) as (K & T & o' & Ho' & U).
    split; [exact K|]. split; [exact T|]. exists o'. split; [right|]; assumption.
Qed.

(** X5.  The start and the end of every decoded event are null or a
    timezone-aware datetime with fields in range: no naive datetime
    leaves the decoder. *)
Theorem parsed_events_aware events parsed e k :
  timezone_ok (local_timezone self) ->
  forallb object_ok events = true ->
  parse_ics_events sys self events = Return parsed ->
  In e parsed ->
  k = "starttime" \/ k = "endtime" ->
  e !! k = Some VNone
  \/ exists y tz, e !! k = Some (VDatetime y)
                  /\ dt_tzinfo y = Some tz /\ tzinfo_ok tz = true
                  /\ wall_ok y = true.
Proof.
  intros Tz Ok H Hin Hk.
  pose proof (parsed_shape_ok sys self _ _ Tz Ok H) as Shape.
  rewrite List.Forall_forall in Shape.
  destruct (Shape e Hin) as (t & s & en & u & -> & Hs & He).
  destruct (attach_lookup u t s en) as (_ & Ls & Le & _).
  assert (G : forall v, when_ok v = true ->
            v = VNone \/ exists y tz, v = VDatetime y /\ dt_tzinfo y = Some tz
                                      /\ tzinfo_ok tz = true /\ wall_ok y = true).
  { intros [| |y|] Hv; try discriminate; [left; reflexivity|right].
    apply aware_ok_inv in Hv. destruct Hv as (tz & T & W & O).
    exists y, tz. auto. }
  destruct Hk as [-> | ->].
  - rewrite Ls. destruct (G s Hs) as [-> | (y & tz & -> & R)]; [auto|].
    right. exists y, tz. auto.
  - rewrite Le. destruct (G en He) as [-> | (y & tz & -> & R)]; [auto|].
    right. exists y, tz. auto.
Qed.

End BatchLaws.

(* ================================================================== *)
(** ** Further properties: initialisation, failures, creation *)
(* ================================================================== *)

Section InitLaws.
Context {Cal : Type}.

(** X6.  Initialisation takes the first calendar of the principal and
    the zone it is given; a principal without a calendar makes it fail
    with [IndexError], and a failure of the discovery is passed on. *)
Theorem init_first_calendar (calendars : result (list Cal)) tz :
  init calendars tz
  = match calendars with
    | Return (c :: _) => Return (mk_client tz c)
    | Return [] => Raise IndexError
    | Raise e => Raise e
    end.
Proof. destruct calendars as [[|c cs]|e]; reflexivity. Qed.

End InitLaws.

Section MoreLaws.
Context {Cal : Type} `{!Transport Cal}.
Variable sys : system.
Variable self : CalDavInterface Cal.

(** X7.  A failure of the transport's query is what each of the four
    query methods raises: nothing is retried, wrapped or replaced by an
    empty result. *)
Theorem queries_propagate_transport_failure e :
  (forall a b, date_search (calendar self) a b true = Raise e ->
               get_events_for_timeperiod sys self a b = Raise e)
  /\ (forall D, date_search (calendar self) (midnight D) (end_of_day D) true
                = Raise e ->
                get_events_for_date sys self D = Raise e)
  /\ (events (calendar self) = Raise e ->
      get_next_event sys self = Raise e
      /\ forall t, get_events_with_title sys self t = Raise e).
Proof.
  split; [|split].
  - intros a b H. unfold get_events_for_timeperiod. rewrite H. reflexivity.
  - intros D H. unfold get_events_for_date, get_events_for_timeperiod.
    change (datetime_combine D (datetime_time datetime_min)) with (midnight D).
    change (datetime_combine D (datetime_time datetime_max))
      with (end_of_day D).
    rewrite H. reflexivity.
  - intros H. split; [|intros t].
    + unfold get_next_event. rewrite H. reflexivity.
    + unfold get_events_with_title. rewrite H. reflexivity.
Qed.

(** X8.  [get_event_details] reads DTSTART, DTEND and SUMMARY and
    nothing else: components that agree on these three decode alike,
    whatever their other properties (DURATION, RRULE, ...) and their
    sub-components are. *)
Theorem get_event_details_reads_three_props v v' :
  props v !! "DTSTART" = props v' !! "DTSTART" ->
  props v !! "DTEND" = props v' !! "DTEND" ->
  props v !! "SUMMARY" = props v' !! "SUMMARY" ->
  get_event_details sys self v = get_event_details sys self v'.
Proof.
  intros Hs He Ht. rewrite !get_event_details_unfold.
  unfold title_of. rewrite Hs, He, Ht. reflexivity.
Qed.

Lemma getitem_None (e : Event) k : e !! k = None -> getitem e k = Raise KeyError.
Proof. unfold getitem. intros ->. reflexivity. Qed.

(** X9.  A mapping as [get_event_details] returns it has no event_url:
    handing it to [delete_event] or [rename_event] raises [KeyError]
    before the transport is asked anything. *)
Theorem mutation_needs_event_url v d new_title :
  get_event_details sys self v = Return d ->
  delete_event self d = (Raise KeyError, d)
  /\ rename_event self d new_title = (Raise KeyError, d).
Proof.
  intros H. apply get_event_details_Return in H.
  destruct H as (start & end_ & -> & _).
  destruct (mapping_lookup (title_of v) start end_) as (_ & _ & _ & Hu).
  unfold delete_event, rename_event.
  rewrite !(bind_of_Raise _ _ _ (getitem_None _ _ Hu)). split; reflexivity.
Qed.

Lemma date_add_overflow d n :
  ~ (1 <= date_toordinal d + n <= _MAXORDINAL) ->
  date_add d n = Raise OverflowError.
Proof.
  intros Out. unfold date_add. rewrite timedelta_days.
  destruct (Z.abs n <=? 999999999); [|reflexivity].
  rewrite (bind_of_Return _ _ _ eq_refl). cbn [days].
  destruct ((0 <? date_toordinal d + n)
            && (date_toordinal d + n <=? _MAXORDINAL)) eqn:R; [|reflexivity].
  apply andb_true_iff in R. rewrite Z.ltb_lt, Z.leb_le in R. lia.
Qed.

Lemma create_fullday_unfold title date n :
  wall_ok date = true ->
  create_new_event self title date (Days n) true
  = (e ← date_add (datetime_date date) n;
     add_event (calendar self)
       (payload title (DDate (datetime_date date)) (DDate e))).
Proof.
  intros W. unfold create_new_event.
  rewrite <- (datetime_add_days date n _ W).
  destruct (timedelta_new n 0 0) as [td|]; [|reflexivity].
  rewrite !(bind_of_Return _ _ _ eq_refl).
  destruct (datetime_add date td) as [e|]; reflexivity.
Qed.

Lemma create_timed_unfold title date td :
  create_new_event self title date (Delta td) false
  = (e ← datetime_add date td;
     add_event (calendar self)
       (payload title (DDateTime date) (DDateTime e))).
Proof.
  unfold create_new_event.
  destruct (datetime_add date td) as [e|]; reflexivity.
Qed.

(** X10.  [create_new_event] submits nothing and raises [TypeError]
    when the duration does not fit the flag (a [timedelta] for a full-day
    event, a number for a timed one), and [OverflowError] when the end
    of a full-day event falls outside the years 1..9999. *)
Theorem create_new_event_rejects title date :
  (forall td, create_new_event self title date (Delta td) true
              = Raise TypeError)
  /\ (forall n, create_new_event self title date (Days n) false
                = Raise TypeError)
  /\ (forall n, wall_ok date = true ->
                ~ (1 <= datetime_toordinal date + n <= _MAXORDINAL) ->
                create_new_event self title date (Days n) true
                = Raise OverflowError).
Proof.
  split; [|split]; try reflexivity.
  intros n W Out. rewrite (create_fullday_unfold title date n W).
  rewrite date_add_overflow; [reflexivity|exact Out].
Qed.

End MoreLaws.

(* ================================================================== *)
(** ** Further properties: what is created is what is read back *)
(* ================================================================== *)

Section RoundTrip.
Context {Cal : Type} `{!Transport Cal}.
Variable sys : system.
Variable self : CalDavInterface Cal.

Lemma payload_lookup title s e :
  let p : gmap string prop_value :=
    {[ "SUMMARY" := vText title; "DTSTART" := vDDDTypes s;
       "DTEND" := vDDDTypes e ]} in
  p !! "SUMMARY" = Some (vText title)
  /\ p !! "DTSTART" = Some (vDDDTypes s)
  /\ p !! "DTEND" = Some (vDDDTypes e).
Proof. cbv zeta. repeat split; by simplify_map_eq. Qed.

Lemma parse_stored_payload u title s e :
  parse_ics_events sys self [stored u (payload title s e)]
  = (start ← decode_when sys self (Some (vDDDTypes s));
     end_ ← decode_when sys self (Some (vDDDTypes e));
     Return [attach u (mapping title start end_)]).
Proof.
  rewrite parse_ics_events_one. unfold stored. cbn [data url].
  change (from_ical (Stream [payload title s e]))
    with (Return [payload title s e]).
  rewrite (bind_of_Return _ _ _ eq_refl).
  change (index [payload title s e] 0) with (Return (payload title s e)).
  rewrite (bind_of_Return _ _ _ eq_refl).
  change (walk "vevent" (payload title s e))
    with [mk_component "VEVENT"
            ({[ "SUMMARY" := vText title; "DTSTART" := vDDDTypes s;
                "DTEND" := vDDDTypes e ]} : gmap string prop_value) []].
  cbn [for_each]. rewrite get_event_details_unfold.
  unfold title_of. cbn [props].
  destruct (payload_lookup title s e) as (Lt & Ls & Le).
  cbv zeta in Lt, Ls, Le. rewrite Lt, Ls, Le. cbn [str].
  destruct (decode_when sys self (Some (vDDDTypes s))) as [start|];
    [|reflexivity].
  rewrite !(bind_of_Return _ _ start eq_refl).
  destruct (decode_when sys self (Some (vDDDTypes e))) as [end_|];
    reflexivity.
Qed.

Lemma date_add_in_range d n :
  date_ok d = true ->
  1 <= date_toordinal d + n <= _MAXORDINAL ->
  date_add d n = Return (date_fromordinal (date_toordinal d + n)).
Proof.
  intros Ok R. unfold date_add. rewrite timedelta_days.
  destruct d as [y m dd]. apply ymd2ord_bounds in Ok.
  change (_ymd2ord y m dd) with (date_toordinal (mk_date y m dd)) in Ok.
  unfold _MAXORDINAL in *.
  destruct (Z.leb_spec (Z.abs n) 999999999); [|lia].
  rewrite (bind_of_Return _ _ _ eq_refl). cbn [days].
  destruct (Z.ltb_spec 0 (date_toordinal (mk_date y m dd) + n)); [|lia].
  destruct (Z.leb_spec (date_toordinal (mk_date y m dd) + n) 3652059);
    [reflexivity|lia].
Qed.

(** X11.  Round trip of a full-day event: the object submitted for
    [n] days from [date] ends [n] days after the start date, and decoding
    it from a resource [u] gives the title back, with start and end at
    midnight UTC of the two dates, and [u] as event_url. *)
Theorem created_fullday_event_reads_back title date n u :
  wall_ok date = true ->
  1 <= datetime_toordinal date + n <= _MAXORDINAL ->
  exists end_date,
    create_new_event self title date (Days n) true
    = add_event (calendar self)
        (payload title (DDate (datetime_date date)) (DDate end_date))
    /\ date_ok end_date = true
    /\ date_toordinal end_date = datetime_toordinal date + n
    /\ parse_ics_events sys self
         [stored u (payload title (DDate (datetime_date date))
                                  (DDate end_date))]
       = Return [attach u (mapping title
                             (VDatetime (utc_midnight (datetime_date date)))
                             (VDatetime (utc_midnight end_date)))].
Proof.
  intros W R.
  exists (date_fromordinal (datetime_toordinal date + n)).
  assert (Dok : date_ok (datetime_date date) = true).
  { unfold wall_ok in W. apply andb_true_iff in W. tauto. }
  destruct (fromordinal_ok (datetime_toordinal date + n) R) as [Eok Eord].
  split; [|split; [exact Eok|split; [exact Eord|]]].
  - rewrite (create_fullday_unfold self title date n W).
    rewrite (date_add_in_range _ _ Dok R). reflexivity.
  - rewrite parse_stored_payload. reflexivity.
Qed.

(** X12.  Round trip of a timed event whose start the text of the
    format holds as it is (a UTC timestamp in whole seconds), for a
    duration in whole seconds: the end submitted is such a timestamp too,
    and decoding the submitted object gives the title back, with a start
    and an end in the configured zone that denote the instants of [date]
    and of [date + td], exactly [td] apart. *)
Theorem created_timed_event_reads_back title date td e u :
  timezone_ok (local_timezone self) -> system_ok sys ->
  datetime_ok date = true -> 2 <= dt_year date <= 9998 ->
  wire_exact date -> microseconds td = 0 ->
  datetime_add date td = Return e -> 2 <= dt_year e <= 9998 ->
  wire_exact e
  /\ create_new_event self title date (Delta td) false
     = add_event (calendar self)
         (payload title (DDateTime date) (DDateTime e))
  /\ exists s en,
       parse_ics_events sys self
         [stored u (payload title (DDateTime date) (DDateTime e))]
       = Return [attach u (mapping title (VDatetime s) (VDatetime en))]
       /\ in_zone (local_timezone self) s /\ in_zone (local_timezone self) en
       /\ utc_us s = utc_us date
       /\ utc_us en = utc_us e
       /\ utc_us en - utc_us s = timedelta_us td.
Proof.
  intros Tz So Ok Yr [Wz Wu] Whole Add Yre.
  pose proof (datetime_add_us _ _ _ Add) as (Us & Dok & Tok & Tze).
  assert (We : wire_exact e).
  { split; [congruence|].
    apply time_ok_iff in Tok. cbn [datetime_time microsecond] in Tok.
    unfold naive_us, timedelta_us in Us. rewrite Wu, Whole in Us.
    lia. }
  split; [exact We|]. split.
  { rewrite create_timed_unfold, Add. reflexivity. }
  assert (Oke : datetime_ok e = true).
  { apply datetime_ok_iff. split; [exact Dok|]. split; [exact Tok|].
    rewrite Tze. apply datetime_ok_iff in Ok. tauto. }
  assert (Cs : field_convertible (Some (vDDDTypes (DDateTime date))))
    by (split; assumption).
  assert (Ce : field_convertible (Some (vDDDTypes (DDateTime e))))
    by (split; assumption).
  destruct (decode_when_returns sys self _ Tz So Cs) as [vs Es].
  destruct (decode_when_returns sys self _ Tz So Ce) as [ve Ee].
  pose proof (decode_when_spec sys self
                (Some (vDDDTypes (DDateTime date))) _ Tz Ok Es)
    as [(s & -> & Zs & Is) _].
  pose proof (decode_when_spec sys self
                (Some (vDDDTypes (DDateTime e))) _ Tz Oke Ee)
    as [(en & -> & Ze & Ie) _].
  exists s, en. rewrite parse_stored_payload, Es, Ee.
  split; [reflexivity|].
  unfold instant_us in Is, Ie. rewrite Tze in Ie. rewrite Wz in Is, Ie.
  repeat split; try assumption.
  rewrite Is, Ie. unfold utc_us, offset_us. rewrite Tze, Wz. lia.
Qed.

End RoundTrip.

(* ================================================================== *)
(** ** Further properties: title search *)
(* ================================================================== *)


Lemma append_nil_r' a : a ++ "" = a.
Proof.
  induction a as [|x a IH]; [reflexivity|]. rewrite append_cons, IH.
  reflexivity.
Qed.

Lemma contains_refl s : Str.contains s s = true.
Proof.
  apply contains_spec. exists "", "". rewrite append_nil, append_nil_r'.
  reflexivity.
Qed.


Section SearchLaws.
Context {Cal : Type} `{!Transport Cal}.
Variable sys : system.
Variable self : CalDavInterface Cal.

Lemma matching_lower t1 t2 (l : list Event) :
  Str.lower t1 = Str.lower t2 -> matching t1 l = matching t2 l.
Proof.
  intros E. induction l as [|e l IH]; cbn [matching]; [reflexivity|].
  rewrite IH, E. reflexivity.
Qed.

(** X13.  The case of the query does not matter: two queries that are
    equal when lowered give the same outcome, result or failure. *)
Theorem get_events_with_title_ignores_case t1 t2 :
  Str.lower t1 = Str.lower t2 ->
  get_events_with_title sys self t1 = get_events_with_title sys self t2.
Proof.
  intros E. unfold get_events_with_title.
  destruct (events (calendar self)) as [all|]; [|reflexivity].
  rewrite !(bind_of_Return _ _ all eq_refl).
  destruct (parse_ics_events sys self all) as [parsed|]; [|reflexivity].
  rewrite !(bind_of_Return _ _ parsed eq_refl).
  rewrite (matching_lower t1 t2 parsed E). reflexivity.
Qed.

Lemma search_result (c : CalDavInterface Cal) title all parsed :
  events (calendar c) = Return all ->
  parse_ics_events sys c all = Return parsed ->
  get_events_with_title sys c title
  = Return (List.filter (title_matches title) parsed).
Proof.
  intros Ev Parse. unfold get_events_with_title.
  rewrite (bind_of_Return _ _ _ Ev), (bind_of_Return _ _ _ Parse).
  rewrite (matching_filter title parsed (parsed_shape sys c _ _ Parse)).
  reflexivity.
Qed.


(** X15.  Every decoded event is found by a search for its own
    title. *)
Theorem event_is_found_by_its_title all parsed e s :
  events (calendar self) = Return all ->
  parse_ics_events sys self all = Return parsed ->
  In e parsed -> e !! "title" = Some (VStr s) ->
  exists r, get_events_with_title sys self s = Return r /\ In e r.
Proof.
  intros Ev Parse Hin Ht.
  exists (List.filter (title_matches s) parsed).
  rewrite (search_result self _ all parsed Ev Parse). split; [reflexivity|].
  apply filter_In. split; [exact Hin|].
  unfold title_matches. rewrite Ht. apply contains_refl.
Qed.

(** X16.  Creating then searching: on a transport that enumerates a
    created object after the ones it had, under some URL [u], a search
    for the title of the full-day event just created returns the earlier
    matches followed by the new event. *)
Theorem created_event_is_found title date n u all parsed c' :
  wall_ok date = true ->
  1 <= datetime_toordinal date + n <= _MAXORDINAL ->
  events (calendar self) = Return all ->
  parse_ics_events sys self all = Return parsed ->
  create_new_event self title date (Days n) true = Return c' ->
  (forall p, add_event (calendar self) p = Return c' ->
             events c' = Return (all ++ [stored u p])%list) ->
  get_events_with_title sys (mk_client (local_timezone self) c') title
  = Return (List.filter (title_matches title) parsed
            ++ [attach u
                  (mapping title
                     (VDatetime (utc_midnight (datetime_date date)))
                     (VDatetime
                        (utc_midnight
                           (date_fromordinal
                              (datetime_toordinal date + n)))))])%list.
Proof.
  intros W R Ev Parse Create Law.
  assert (Dok : date_ok (datetime_date date) = true).
  { unfold wall_ok in W. apply andb_true_iff in W. tauto. }
  rewrite (create_fullday_unfold self title date n W) in Create.
  rewrite (date_add_in_range _ _ Dok R) in Create.
  rewrite (bind_of_Return _ _ _ eq_refl) in Create.
  specialize (Law _ Create).
  set (new := attach u (mapping title
                 (VDatetime (utc_midnight (datetime_date date)))
                 (VDatetime (utc_midnight
                    (date_fromordinal (datetime_toordinal date + n)))))).
  assert (P' : parse_ics_events sys (mk_client (local_timezone self) c')
                 (all ++ [stored u (payload title
                     (DDate (datetime_date date))
                     (DDate (date_fromordinal
                               (datetime_toordinal date + n))))])
               = Return (parsed ++ [new])%list).
  { change (parse_ics_events sys (mk_client (local_timezone self) c'))
      with (parse_ics_events sys self).
    rewrite parse_ics_events_split, (bind_of_Return _ _ _ Parse).
    rewrite parse_stored_payload. reflexivity. }
  rewrite (search_result (mk_client (local_timezone self) c') title _ _ Law P').
  rewrite List.filter_app. f_equal. cbn [List.filter].
  assert (M : title_matches title new = true).
  { unfold title_matches, new.
    destruct (attach_lookup u title
                (VDatetime (utc_midnight (datetime_date date)))
                (VDatetime (utc_midnight
                   (date_fromordinal (datetime_toordinal date + n)))))
      as (-> & _).
    apply contains_refl. }
  rewrite M. reflexivity.
Qed.

End SearchLaws.

(* ================================================================== *)
(** ** Further properties: renaming *)
(* ================================================================== *)

Lemma set_first_vevent_summary_found pre v post t :
  Forall (fun c => name c <> "VEVENT") pre ->
  name v = "VEVENT" ->
  set_first_vevent_summary (pre ++ v :: post) t
  = match props v !! "SUMMARY" with
    | Some _ => Return (pre ++ retitle v t :: post)%list
    | None => Raise AttributeError
    end.
Proof.
  intros Hpre Hv. induction Hpre as [|c pre Hc _ IH];
    cbn [app set_first_vevent_summary].
  - destruct (decide (name v = "VEVENT")); [|contradiction].
    destruct (props v !! "SUMMARY"); reflexivity.
  - destruct (decide (name c = "VEVENT")); [contradiction|].
    rewrite IH. destruct (props v !! "SUMMARY"); reflexivity.
Qed.

Lemma set_first_vevent_summary_none subs t :
  Forall (fun c => name c <> "VEVENT") subs ->
  set_first_vevent_summary subs t = Raise AttributeError.
Proof.
  induction 1 as [|c subs Hc _ IH]; cbn [set_first_vevent_summary];
    [reflexivity|].
  destruct (decide (name c = "VEVENT")); [contradiction|].
  rewrite IH. reflexivity.
Qed.

Section RenameLaws.
Context {Cal : Type} `{!Transport Cal}.
Variable sys : system.
Variable self : CalDavInterface Cal.

Lemma get_event_details_retitle v t :
  get_event_details sys self (retitle v t)
  = (d ← get_event_details sys self v; Return (<["title" := VStr t]> d)).
Proof.
  rewrite !get_event_details_unfold. unfold title_of, retitle. cbn [props].
  rewrite lookup_insert_eq.
  rewrite !lookup_insert_ne by discriminate. cbn [str].
  destruct (decode_when sys self (props v !! "DTSTART")) as [s|];
    [|reflexivity].
  rewrite !(bind_of_Return _ _ s eq_refl).
  destruct (decode_when sys self (props v !! "DTEND")) as [e|];
    [|reflexivity].
  rewrite !(bind_of_Return _ _ _ eq_refl).
  unfold mapping. rewrite insert_insert_eq. reflexivity.
Qed.

Lemma walk_single cal pre v post :
  name cal <> "VEVENT" ->
  subcomponents cal = (pre ++ v :: post)%list ->
  eventless pre -> eventless post -> eventless (subcomponents v) ->
  name v = "VEVENT" ->
  walk "vevent" cal = [v].
Proof.
  intros Hc Hs Epre Epost Ev Hv. unfold walk.
  change (Str.upper "vevent") with "VEVENT".
  destruct cal as [cn cp subs]. cbn [name subcomponents] in *. subst subs.
  cbn [_walk]. destruct (decide (cn = "VEVENT")); [contradiction|].
  rewrite flat_map_app. cbn [flat_map app].
  unfold eventless in *. rewrite Epre, Epost.
  destruct v as [vn vp vs]. cbn [name subcomponents] in *. subst vn.
  cbn [_walk]. destruct (decide ("VEVENT" = "VEVENT")); [|contradiction].
  rewrite Ev. reflexivity.
Qed.

Lemma decode_loop_keeps u (l l' : list Component) (acc : list Event) :
  Forall2 same_when_and_title l l' ->
  for_each l acc
    (fun acc vevent =>
       r ← (d ← get_event_details sys self vevent; Return [attach u d]);
       Return (acc ++ r)%list)
  = for_each l' acc
      (fun acc vevent =>
         r ← (d ← get_event_details sys self vevent; Return [attach u d]);
         Return (acc ++ r)%list).
Proof.
  intros K. revert acc.
  induction K as [|v v' l l' (Hs & He & Ht) _ IH]; intros acc;
    cbn [for_each]; [reflexivity|].
  assert (E : get_event_details sys self v = get_event_details sys self v').
  { rewrite !get_event_details_unfold. unfold title_of.
    rewrite Hs, He, Ht. reflexivity. }
  rewrite E. destruct (get_event_details sys self v') as [d|]; [|reflexivity].
  rewrite !(bind_of_Return _ _ _ eq_refl). apply IH.
Qed.

Lemma parse_keeps_events u a b ra rb :
  keeps_events a b ->
  parse_ics_events sys self [mk_object u (Stream (a :: ra))]
  = parse_ics_events sys self [mk_object u (Stream (b :: rb))].
Proof.
  intros K. rewrite !parse_ics_events_one. cbn [data url].
  change (from_ical (Stream (a :: ra))) with (Return (a :: ra)).
  change (from_ical (Stream (b :: rb))) with (Return (b :: rb)).
  rewrite !(bind_of_Return _ _ _ eq_refl).
  change (index (a :: ra) 0) with (Return a).
  change (index (b :: rb) 0) with (Return b).
  rewrite !(bind_of_Return _ _ _ eq_refl).
  apply decode_loop_keeps. exact K.
Qed.

(** X17.  Renaming an event that has a summary: [save] is called on the
    resource when its instance is the first component of the payload with
    the summary of its first event replaced and all else as it was, and
    the mapping passed in keeps its old title.  For a resource with one
    event, whatever the server then holds for it (the serialisation adds
    properties), if that has the event of the instance with its start,
    end and summary, it decodes to the event of the old resource with the
    new title (same start, end and URL). *)
Theorem rename_event_saves_new_title
    (event : Event) u o cal others pre v post t :
  event !! "event_url" = Some (VUrl u) ->
  event_by_url (calendar self) u = Return o ->
  data o = Stream (cal :: others) ->
  subcomponents cal = (pre ++ v :: post)%list ->
  Forall (fun c => name c <> "VEVENT") pre ->
  name v = "VEVENT" -> is_Some (props v !! "SUMMARY") ->
  let inst :=
    mk_component (name cal) (props cal) (pre ++ retitle v t :: post) in
  rename_event self event t = (save (calendar self) (url o) inst, event)
  /\ forall held others',
       name cal <> "VEVENT" ->
       eventless pre -> eventless post -> eventless (subcomponents v) ->
       keeps_events inst held ->
       parse_ics_events sys self [mk_object (url o) (Stream (held :: others'))]
       = (l ← parse_ics_events sys self [o];
          Return (map (fun e : Event => <["title" := VStr t]> e) l)).
Proof.
  intros Hu Ho D Hs Hpre Hv [old Hold]. cbv zeta. split.
  - unfold rename_event.
    rewrite (bind_of_Return _ _ _ (getitem_Some _ _ _ Hu)).
    rewrite (bind_of_Return _ _ _ Ho).
    unfold set_summary, vobject_instance. rewrite D.
    rewrite (bind_of_Return _ _ _ eq_refl). rewrite Hs.
    rewrite (set_first_vevent_summary_found pre v post t Hpre Hv), Hold.
    rewrite !(bind_of_Return _ _ _ eq_refl). reflexivity.
  - intros held others' Hc Epre Epost Ev K.
    rewrite <- (parse_keeps_events (url o) _ held others others' K).
    rewrite !parse_ics_events_one. cbn [data url]. rewrite D.
    change (from_ical (Stream (cal :: others))) with (Return (cal :: others)).
    match goal with
    | |- context [from_ical (Stream (?c :: others))] =>
        change (from_ical (Stream (c :: others))) with (Return (c :: others))
    end.
    rewrite !(bind_of_Return _ _ _ eq_refl).
    match goal with
    | |- context [index (?c :: others) 0] =>
        change (index (c :: others) 0) with (Return c)
    end.
    change (index (cal :: others) 0) with (Return cal).
    rewrite !(bind_of_Return _ _ _ eq_refl).
    rewrite (walk_single cal pre v post Hc Hs Epre Epost Ev Hv).
    rewrite (walk_single
               (mk_component (name cal) (props cal)
                  (pre ++ retitle v t :: post))
               pre (retitle v t) post Hc eq_refl Epre Epost Ev Hv).
    cbn [for_each]. rewrite get_event_details_retitle.
    destruct (get_event_details sys self v) as [d|]; [|reflexivity].
    rewrite !(bind_of_Return _ _ _ eq_refl). cbn [app map].
    unfold attach. rewrite insert_insert_ne by discriminate. reflexivity.
Qed.

(** X18.  An event without a summary (which decodes with the title
    "untitled event") cannot be renamed: [rename_event] raises
    [AttributeError] and saves nothing. *)
Theorem rename_untitled_event_fails
    (event : Event) u o cal others pre v post t :
  event !! "event_url" = Some (VUrl u) ->
  event_by_url (calendar self) u = Return o ->
  data o = Stream (cal :: others) ->
  subcomponents cal = (pre ++ v :: post)%list ->
  Forall (fun c => name c <> "VEVENT") pre ->
  name v = "VEVENT" -> props v !! "SUMMARY" = None ->
  rename_event self event t = (Raise AttributeError, event)
  /\ forall d, get_event_details sys self v = Return d ->
               d !! "title" = Some (VStr "untitled event").
Proof.
  intros Hu Ho D Hs Hpre Hv Hnone. split.
  - unfold rename_event.
    rewrite (bind_of_Return _ _ _ (getitem_Some _ _ _ Hu)).
    rewrite (bind_of_Return _ _ _ Ho).
    unfold set_summary, vobject_instance. rewrite D.
    rewrite (bind_of_Return _ _ _ eq_refl). rewrite Hs.
    rewrite (set_first_vevent_summary_found pre v post t Hpre Hv), Hnone.
    reflexivity.
  - intros d E. apply get_event_details_Return in E.
    destruct E as (s & e & -> & _). unfold title_of. rewrite Hnone.
    apply mapping_lookup.
Qed.

End RenameLaws.

(* ================================================================== *)
(** ** Further properties: ties in the next event *)
(* ================================================================== *)

Section StableSort.
Context {A : Type}.
Implicit Types (x : value * A) (l r : list (value * A)).

Lemma insort_stable x l r k :
  is_instant (fst x) = true ->
  Forall (fun p => is_instant (fst p) = true) l ->
  insort x l = Return r ->
  List.filter (has_key k) r = List.filter (has_key k) (x :: l).
Proof.
  intros Hx Hl. revert r. induction Hl as [|y l Hy Hl IH]; intros r;
    cbn [insort].
  - intros [= <-]. reflexivity.
  - rewrite (py_lt_instants _ _ Hy Hx).
    rewrite (bind_of_Return _ _ _ eq_refl).
    destruct (Z.ltb_spec (key_us (fst y)) (key_us (fst x))) as [Lt | Ge].
    + destruct (insort x l) as [r'|] eqn:E; [|discriminate].
      rewrite (bind_of_Return _ _ _ eq_refl). intros [= <-].
      specialize (IH r' eq_refl). cbn [List.filter] in *. rewrite IH.
      unfold has_key.
      destruct (Z.eqb_spec (key_us (fst x)) k), (Z.eqb_spec (key_us (fst y)) k);
        try reflexivity; lia.
    + intros [= <-]. reflexivity.
Qed.

Lemma sort_keyed_stable l r k :
  Forall (fun p => is_instant (fst p) = true) l ->
  sort_keyed l = Return r ->
  List.filter (has_key k) r = List.filter (has_key k) l.
Proof.
  intros Hl. revert r. induction Hl as [|x l Hx Hl IH]; intros r;
    cbn [sort_keyed].
  - intros [= <-]. reflexivity.
  - destruct (sort_keyed_spec l Hl) as (r0 & E0 & P0 & _).
    rewrite (bind_of_Return _ _ _ E0). intros E.
    rewrite (insort_stable x r0 r k Hx) by
      (try (eapply Permutation_Forall; [exact P0|exact Hl]); exact E).
    cbn [List.filter]. rewrite (IH r0 E0). reflexivity.
Qed.

End StableSort.

Lemma find_conj {B} (f g : B -> bool) (l : list B) :
  List.find (fun x => f x && g x) l = List.find f (List.filter g l).
Proof.
  induction l as [|a l IH]; cbn [List.find List.filter]; [reflexivity|].
  destruct (g a); cbn [List.find]; destruct (f a); simpl; auto.
Qed.

Lemma find_conj_keeps {B} (f g : B -> bool) (l : list B) e :
  List.find f l = Some e -> g e = true ->
  List.find (fun x => f x && g x) l = Some e.
Proof.
  induction l as [|a l IH]; cbn [List.find]; [discriminate|].
  destruct (f a) eqn:Fa.
  - intros [= ->] G. rewrite G. reflexivity.
  - intros H G. simpl. auto.
Qed.

Section NextEventLaws.
Context {Cal : Type} `{!Transport Cal}.
Variable sys : system.

Lemma sorted_stable (l r : list Event) k :
  Forall (fun e => is_instant (start_of e) = true
                   /\ is_Some (e !! "starttime")) l ->
  sorted l (fun i => getitem i "starttime") = Return r ->
  List.filter (starts_at k) r = List.filter (starts_at k) l.
Proof.
  intros Hl. unfold sorted.
  rewrite with_keys_starts
    by (eapply Forall_impl; [exact Hl|]; intros ? [_ ?]; assumption).
  rewrite (bind_of_Return _ _ _ eq_refl).
  assert (Hk : Forall (fun p : value * Event => is_instant (fst p) = true)
                 (map (fun e => (start_of e, e)) l)).
  { apply Forall_map. eapply Forall_impl; [exact Hl|].
    intros ? [? _]. assumption. }
  destruct (sort_keyed_spec _ Hk) as (rp & E & P & _).
  rewrite (bind_of_Return _ _ _ E). intros [= <-].
  pose proof (sort_keyed_stable _ _ k Hk E) as St.
  assert (K : Forall (fun p : value * Event => fst p = start_of (snd p)) rp).
  { eapply Permutation_Forall; [exact P|]. apply Forall_map.
    apply Forall_forall. reflexivity. }
  assert (M : forall ps : list (value * Event),
            Forall (fun p => fst p = start_of (snd p)) ps ->
            List.filter (starts_at k) (map snd ps)
            = map snd (List.filter (has_key k) ps)).
  { induction 1 as [|p ps Hp _ IH]; cbn [map List.filter]; [reflexivity|].
    unfold starts_at at 1, has_key at 1, start_us. rewrite <- Hp.
    destruct (key_us (fst p) =? k); cbn [map]; rewrite IH; reflexivity. }
  rewrite (M rp K), St, <- M.
  - rewrite map_map, map_id. reflexivity.
  - apply Forall_map. apply Forall_forall. reflexivity.
Qed.

Lemma get_next_event_find (c : CalDavInterface Cal) now all parsed :
  (forall i, today sys i = now) ->
  timezone_ok (local_timezone c) ->
  events (calendar c) = Return all ->
  forallb object_ok all = true ->
  parse_ics_events sys c all = Return parsed ->
  forallb has_start parsed = true ->
  exists r,
    get_next_event sys c = Return (List.find (is_after now) r)
    /\ Permutation parsed r
    /\ StronglySorted (fun a b => start_us a <= start_us b) r
    /\ forall k, List.filter (starts_at k) r = List.filter (starts_at k) parsed.
Proof.
  intros Clock Tz Ev Ok Parse Starts.
  pose proof (parsed_shape_ok sys c _ _ Tz Ok Parse) as Shape.
  assert (Inst : Forall (fun e : Event => is_instant (start_of e) = true
                          /\ is_Some (e !! "starttime")) parsed).
  { rewrite forallb_forall in Starts.
    rewrite List.Forall_forall in Shape |- *. intros e He.
    apply decoded_event_ok_start; auto. }
  destruct (sorted_by_start parsed Inst) as (r & Es & P & S).
  exists r. unfold get_next_event.
  rewrite (bind_of_Return _ _ _ Ev), (bind_of_Return _ _ _ Parse),
    (bind_of_Return _ _ _ Es).
  rewrite (next_event_scan_find sys now 0 r Clock)
    by (eapply Permutation_Forall; [exact P|exact Inst]).
  split; [reflexivity|]. split; [exact P|]. split; [exact S|].
  intros k. exact (sorted_stable parsed r k Inst Es).
Qed.

(** X19.  Ties: of the events that start after the clock reading at
    the same instant as the event returned, the one returned is the first
    in the order of the transport (the sort is stable). *)
Theorem get_next_event_first_among_ties
    (c : CalDavInterface Cal) now all parsed e :
  (forall i, today sys i = now) ->
  timezone_ok (local_timezone c) ->
  events (calendar c) = Return all ->
  forallb object_ok all = true ->
  parse_ics_events sys c all = Return parsed ->
  forallb has_start parsed = true ->
  get_next_event sys c = Return (Some e) ->
  List.find (fun x => is_after now x && starts_at (start_us e) x) parsed
  = Some e.
Proof.
  intros Clock Tz Ev Ok Parse Starts Next.
  destruct (get_next_event_find c now all parsed Clock Tz Ev Ok Parse Starts)
    as (r & E & _ & _ & St).
  rewrite E in Next. injection Next as F.
  rewrite find_conj, <- St, <- find_conj.
  apply find_conj_keeps; [exact F|]. unfold starts_at. apply Z.eqb_refl.
Qed.

End NextEventLaws.

(* ================================================================== *)
(** ** Further properties: enumeration order, the range of a day *)
(* ================================================================== *)

Lemma forallb_Permutation {B} (f : B -> bool) (l l' : list B) :
  Permutation l l' -> forallb f l = true -> forallb f l' = true.
Proof.
  intros P. rewrite !forallb_forall. intros H x Hx. apply H.
  eapply Permutation_in; [symmetry; exact P|exact Hx].
Qed.

Section OrderLaws.
Context {Cal : Type} `{!Transport Cal}.
Variable sys : system.

Lemma parse_ics_events_same_zone (c c' : CalDavInterface Cal) l :
  local_timezone c' = local_timezone c ->
  parse_ics_events sys c' l = parse_ics_events sys c l.
Proof.
  destruct c as [tz cal], c' as [tz' cal']. cbn [local_timezone].
  intros ->. reflexivity.
Qed.

Lemma parse_ics_events_cons_Return (c : CalDavInterface Cal) o l p :
  parse_ics_events sys c (o :: l) = Return p ->
  exists po pl, parse_ics_events sys c [o] = Return po
                /\ parse_ics_events sys c l = Return pl
                /\ p = (po ++ pl)%list.
Proof.
  rewrite parse_ics_events_cons. intros H.
  apply bind_Return in H. destruct H as (po & Eo & H).
  apply bind_Return in H. destruct H as (pl & El & H).
  injection H as <-. eauto.
Qed.

Lemma parse_ics_events_Permutation (c : CalDavInterface Cal) all all' :
  Permutation all all' ->
  forall p, parse_ics_events sys c all = Return p ->
  exists p', parse_ics_events sys c all' = Return p' /\ Permutation p p'.
Proof.
  induction 1 as [|x l l' P IH|x y l|l l' l'' P1 IH1 P2 IH2]; intros p Hp.
  - exists p. split; [exact Hp|reflexivity].
  - apply parse_ics_events_cons_Return in Hp.
    destruct Hp as (po & pl & Eo & El & ->).
    destruct (IH pl El) as (pl' & El' & Pl).
    exists (po ++ pl')%list. split.
    + rewrite parse_ics_events_cons, Eo, El'. reflexivity.
    + apply Permutation_app_head. exact Pl.
  - apply parse_ics_events_cons_Return in Hp.
    destruct Hp as (py & p1 & Ey & E1 & ->).
    apply parse_ics_events_cons_Return in E1.
    destruct E1 as (px & pl & Ex & El & ->).
    exists (px ++ py ++ pl)%list. split.
    + rewrite parse_ics_events_cons, Ex.
      rewrite (bind_of_Return _ _ _ eq_refl).
      rewrite parse_ics_events_cons, Ey, El. reflexivity.
    + rewrite !app_assoc. apply Permutation_app_tail.
      apply Permutation_app_comm.
  - destruct (IH1 p Hp) as (p' & Hp' & Pp).
    destruct (IH2 p' Hp') as (p'' & Hp'' & Pp').
    exists p''. split; [exact Hp''|]. etransitivity; eassumption.
Qed.

(** X20.  The start instant of the next event does not depend on the
    order in which the transport enumerates the collection. *)
Theorem get_next_event_order_independent
    (c c' : CalDavInterface Cal) now all all' parsed :
  (forall i, today sys i = now) ->
  timezone_ok (local_timezone c) ->
  local_timezone c' = local_timezone c ->
  events (calendar c) = Return all ->
  events (calendar c') = Return all' ->
  Permutation all all' ->
  forallb object_ok all = true ->
  parse_ics_events sys c all = Return parsed ->
  forallb has_start parsed = true ->
  exists r r',
    get_next_event sys c = Return r
    /\ get_next_event sys c' = Return r'
    /\ option_map start_us r = option_map start_us r'.
Proof.
  intros Clock Tz Same Ev Ev' P Ok Parse Starts.
  destruct (parse_ics_events_Permutation c all all' P parsed Parse)
    as (parsed' & Parse' & Pp).
  rewrite <- (parse_ics_events_same_zone c c' all' Same) in Parse'.
  assert (Tz' : timezone_ok (local_timezone c')) by (rewrite Same; exact Tz).
  destruct (get_next_event_find sys c now all parsed Clock Tz Ev Ok Parse Starts)
    as (r & E & Pr & S & _).
  destruct (get_next_event_find sys c' now all' parsed' Clock Tz' Ev'
              (forallb_Permutation _ _ _ P Ok) Parse'
              (forallb_Permutation _ _ _ Pp Starts))
    as (r' & E' & Pr' & S' & _).
  exists (List.find (is_after now) r), (List.find (is_after now) r').
  split; [exact E|]. split; [exact E'|].
  assert (Prr : Permutation r r').
  { transitivity parsed; [symmetry; exact Pr|].
    transitivity parsed'; [exact Pp|exact Pr']. }
  destruct (List.find (is_after now) r) as [e|] eqn:F;
    destruct (List.find (is_after now) r') as [e'|] eqn:F'; cbn [option_map].
  - destruct (find_sorted_min _ _ _ S F) as (Hin & Ha & Min).
    destruct (find_sorted_min _ _ _ S' F') as (Hin' & Ha' & Min').
    f_equal. apply Z.le_antisymm.
    + apply Min; [|exact Ha'].
      eapply Permutation_in; [symmetry; exact Prr|exact Hin'].
    + apply Min'; [|exact Ha].
      eapply Permutation_in; [exact Prr|exact Hin].
  - destruct (find_sorted_min _ _ _ S F) as (Hin & Ha & _).
    pose proof (find_none_all _ _ F' e
                  (Permutation_in _ Prr Hin)) as N. congruence.
  - destruct (find_sorted_min _ _ _ S' F') as (Hin' & Ha' & _).
    pose proof (find_none_all _ _ F e'
                  (Permutation_in _ (Permutation_sym Prr) Hin')) as N.
    congruence.
  - reflexivity.
Qed.

End OrderLaws.

Lemma tuple3_eq y1 m1 d1 y2 m2 d2 :
  tuple_cmp [y1; m1; d1] [y2; m2; d2] = Eq ->
  y1 = y2 /\ m1 = m2 /\ d1 = d2.
Proof.
  cbn [tuple_cmp].
  destruct (Z.compare_spec y1 y2); try discriminate.
  destruct (Z.compare_spec m1 m2); try discriminate.
  destruct (Z.compare_spec d1 d2); try discriminate. auto.
Qed.

Lemma toordinal_inj (d1 d2 : date) :
  date_ok d1 = true -> date_ok d2 = true ->
  date_toordinal d1 = date_toordinal d2 -> d1 = d2.
Proof.
  destruct d1 as [y1 m1 dd1], d2 as [y2 m2 dd2].
  rewrite !date_ok_iff. intros (_ & Hm1 & Hd1) (_ & Hm2 & Hd2) E.
  unfold date_toordinal in E. cbn [year month day] in E.
  pose proof (ymd2ord_cmp y1 m1 dd1 y2 m2 dd2 Hm1 Hd1 Hm2 Hd2) as C.
  rewrite E, Z.compare_refl in C. apply tuple3_eq in C.
  destruct C as (-> & -> & ->). reflexivity.
Qed.

(** X21.  The two bounds that [get_events_for_date] passes on are naive
    datetimes with fields in range, and a naive datetime lies between
    them (in Python's order) exactly when its date is [D]: the range is
    the whole day and nothing else, to the microsecond. *)
Theorem get_events_for_date_covers_day D x :
  date_ok D = true -> wall_ok x = true -> dt_tzinfo x = None ->
  let first := datetime_combine D (datetime_time datetime_min) in
  let last := datetime_combine D (datetime_time datetime_max) in
  wall_ok first = true /\ wall_ok last = true
  /\ dt_tzinfo first = None /\ dt_tzinfo last = None
  /\ ((exists c1 c2, datetime_cmp first x = Return c1 /\ c1 <> Gt
                     /\ datetime_cmp x last = Return c2 /\ c2 <> Gt)
      <-> datetime_date x = D).
Proof.
  intros OkD Wx Tx. cbv zeta.
  set (first := datetime_combine D (datetime_time datetime_min)).
  set (last := datetime_combine D (datetime_time datetime_max)).
  assert (Wf : wall_ok first = true).
  { unfold wall_ok, first. destruct D. cbn. rewrite andb_true_r. exact OkD. }
  assert (Wl : wall_ok last = true).
  { unfold wall_ok, last. destruct D. cbn. rewrite andb_true_r. exact OkD. }
  split; [exact Wf|]. split; [exact Wl|]. split; [reflexivity|].
  split; [reflexivity|].
  assert (Cf : datetime_cmp first x = Return (naive_us first ?= naive_us x)).
  { unfold datetime_cmp. rewrite Tx. cbn [dt_tzinfo first datetime_combine].
    rewrite fields_cmp by assumption. reflexivity. }
  assert (Cl : datetime_cmp x last = Return (naive_us x ?= naive_us last)).
  { unfold datetime_cmp. rewrite Tx. cbn [dt_tzinfo last datetime_combine].
    rewrite fields_cmp by assumption. reflexivity. }
  assert (Nf : naive_us first = date_toordinal D * 86400000000)
    by (destruct D as [y m d];
        unfold naive_us, datetime_toordinal, date_toordinal, first,
          datetime_combine, datetime_time, datetime_min;
        cbn [dt_year dt_month dt_day dt_hour dt_minute dt_second
           dt_microsecond year month day hour minute second microsecond];
        lia).
  assert (Nl : naive_us last = date_toordinal D * 86400000000 + 86399999999)
    by (destruct D as [y m d];
        unfold naive_us, datetime_toordinal, date_toordinal, last,
          datetime_combine, datetime_time, datetime_max;
        cbn [dt_year dt_month dt_day dt_hour dt_minute dt_second
           dt_microsecond year month day hour minute second microsecond];
        lia).
  pose proof Wx as Wx'. apply wall_ok_iff in Wx'.
  destruct Wx' as (_ & Hh & Hmi & Hs & Hu).
  assert (Dx : date_ok (datetime_date x) = true).
  { unfold wall_ok in Wx. apply andb_true_iff in Wx. tauto. }
  rewrite Cf, Cl, Nf, Nl. split.
  - intros (c1 & c2 & [= <-] & N1 & [= <-] & N2).
    apply toordinal_inj; [exact Dx|exact OkD|].
    change (date_toordinal (datetime_date x)) with (datetime_toordinal x).
    rewrite Z.compare_le_iff in N1, N2.
    unfold naive_us in *. lia.
  - intros <-. do 2 eexists. split; [reflexivity|].
    split; [|split; [reflexivity|]]; rewrite Z.compare_le_iff;
      change (date_toordinal (datetime_date x)) with (datetime_toordinal x);
      unfold naive_us; lia.
Qed.

(* ================================================================== *)
(** ** The further properties on the example data *)
(* ================================================================== *)

Lemma hd_In {B} (d : B) (l : list B) : l <> [] -> In (hd d l) l.
Proof. destruct l; [congruence|]. intros _. left. reflexivity. Qed.

Lemma parsed_of_client0_nonempty : parsed_of client0 <> [].
Proof.
  intros E. apply (f_equal (@length _)) in E. vm_compute in E. discriminate E.
Qed.

Lemma queries_propagate_transport_failure_witness :
  get_events_for_timeperiod sys0 client_offline now0 now0 = Raise ConnectionError
  /\ get_events_for_date sys0 client_offline (mk_date 2024 7 1)
     = Raise ConnectionError
  /\ get_next_event sys0 client_offline = Raise ConnectionError
  /\ get_events_with_title sys0 client_offline "a" = Raise ConnectionError.
Proof.
  destruct (queries_propagate_transport_failure sys0 client_offline
              ConnectionError) as (A & B & C).
  split; [apply A; reflexivity|]. split; [apply B; reflexivity|].
  destruct (C eq_refl) as [N T]. split; [exact N | apply T].
Defined.

Lemma parse_ics_events_aborts_witness :
  raises (parse_ics_events sys0 client0 (store0 ++ broken :: store0))
  /\ parse_ics_events sys0 client0 (store0 ++ broken :: store0)
     = Raise ValueError.
Proof.
  destruct (parse_ics_events_aborts sys0 client0 (store0 ++ broken :: store0)
              broken) as [R E].
  - apply in_or_app. right. left. reflexivity.
  - left. reflexivity.
  - split; [exact R|].
    exact (E store0 store0 (parsed_of client0) eq_refl eq_refl).
Defined.

Lemma parse_ics_events_skips_eventless_witness :
  parse_ics_events sys0 client0 (store0 ++ todo_only :: store0)
  = parse_ics_events sys0 client0 (store0 ++ store0).
Proof.
  apply (parse_ics_events_skips_eventless sys0 client0 store0 todo_only store0
           (vcalendar [mk_component "VTODO"
                         ({[ "SUMMARY" := vText "buy milk" ]}
                            : gmap string prop_value) []]) []).
  - reflexivity.
  - reflexivity.
Defined.

Lemma parsed_events_keys_witness :
  dom alpha = ({[ "title"; "starttime"; "endtime"; "event_url" ]} : gset string)
  /\ (exists t, alpha !! "title" = Some (VStr t))
  /\ (exists o, In o store0 /\ alpha !! "event_url" = Some (VUrl (url o))).
Proof.
  apply (parsed_events_keys sys0 client0 store0 (parsed_of client0) alpha).
  - reflexivity.
  - apply hd_In. apply parsed_of_client0_nonempty.
Defined.

Lemma parsed_events_aware_witness :
  alpha !! "starttime" = Some VNone
  \/ exists y tz, alpha !! "starttime" = Some (VDatetime y)
                  /\ dt_tzinfo y = Some tz /\ tzinfo_ok tz = true
                  /\ wall_ok y = true.
Proof.
  apply (parsed_events_aware sys0 client0 store0 (parsed_of client0) alpha
           "starttime").
  - split; [reflexivity|]. intros u. unfold example_zone. simpl.
    destruct (_ || _); reflexivity.
  - vm_compute. reflexivity.
  - reflexivity.
  - apply hd_In. apply parsed_of_client0_nonempty.
  - left. reflexivity.
Defined.

Lemma get_event_details_reads_three_props_witness :
  get_event_details sys0 client0 meeting
  = get_event_details sys0 client0 meeting_weekly.
Proof.
  apply (get_event_details_reads_three_props sys0 client0 meeting
           meeting_weekly); reflexivity.
Defined.

Lemma mutation_needs_event_url_witness :
  delete_event client0 (decoded_of meeting) = (Raise KeyError, decoded_of meeting)
  /\ rename_event client0 (decoded_of meeting) "x"
     = (Raise KeyError, decoded_of meeting).
Proof.
  apply (mutation_needs_event_url sys0 client0 meeting (decoded_of meeting) "x").
  reflexivity.
Defined.

Lemma create_new_event_rejects_witness :
  create_new_event client0 "x" june_first (Delta one_hour) true
  = Raise TypeError
  /\ create_new_event client0 "x" june_first (Days 1) false = Raise TypeError
  /\ create_new_event client0 "x" datetime_max (Days 1) true
     = Raise OverflowError.
Proof.
  split; [apply (create_new_event_rejects client0 "x" june_first)|].
  split; [apply (create_new_event_rejects client0 "x" june_first)|].
  apply (create_new_event_rejects client0 "x" datetime_max).
  - reflexivity.
  - vm_compute. intros [_ H]. apply H. reflexivity.
Defined.

Lemma created_fullday_event_reads_back_witness :
  exists end_date,
    create_new_event client0 "Holiday" june_first (Days 3) true
    = add_event (calendar client0)
        (payload "Holiday" (DDate (datetime_date june_first)) (DDate end_date))
    /\ date_ok end_date = true
    /\ date_toordinal end_date = datetime_toordinal june_first + 3
    /\ parse_ics_events sys0 client0
         [stored "/calendar/h"
            (payload "Holiday" (DDate (datetime_date june_first))
                               (DDate end_date))]
       = Return [attach "/calendar/h"
                   (mapping "Holiday"
                      (VDatetime (utc_midnight (datetime_date june_first)))
                      (VDatetime (utc_midnight end_date)))].
Proof.
  apply (created_fullday_event_reads_back sys0 client0 "Holiday" june_first 3
           "/calendar/h").
  - reflexivity.
  - vm_compute. split; discriminate.
Defined.

Lemma created_timed_event_reads_back_witness :
  wire_exact call_end
  /\ create_new_event client0 "Call" call_start (Delta one_hour) false
     = add_event (calendar client0)
         (payload "Call" (DDateTime call_start) (DDateTime call_end))
  /\ exists s en,
       parse_ics_events sys0 client0
         [stored "/calendar/k"
            (payload "Call" (DDateTime call_start) (DDateTime call_end))]
       = Return [attach "/calendar/k" (mapping "Call" (VDatetime s) (VDatetime en))]
       /\ in_zone (local_timezone client0) s
       /\ in_zone (local_timezone client0) en
       /\ utc_us s = utc_us call_start
       /\ utc_us en = utc_us call_end
       /\ utc_us en - utc_us s = timedelta_us one_hour.
Proof.
  apply (created_timed_event_reads_back sys0 client0 "Call" call_start
           one_hour call_end "/calendar/k").
  - split; [reflexivity|]. intros u. unfold example_zone. simpl.
    destruct (_ || _); reflexivity.
  - intros x. simpl. lia.
  - reflexivity.
  - simpl. lia.
  - split; reflexivity.
  - reflexivity.
  - vm_compute. reflexivity.
  - simpl. lia.
Defined.

Lemma created_event_is_found_witness :
  get_events_with_title sys0
    (mk_client (local_timezone client0) store_holiday) "Holiday"
  = Return (List.filter (title_matches "Holiday") (parsed_of client0)
            ++ [attach (fresh_url (length store0))
                  (mapping "Holiday"
                     (VDatetime (utc_midnight (datetime_date june_first)))
                     (VDatetime
                        (utc_midnight
                           (date_fromordinal
                              (datetime_toordinal june_first + 3)))))])%list.
Proof.
  apply (created_event_is_found sys0 client0 "Holiday" june_first 3
           (fresh_url (length store0)) store0 (parsed_of client0) store_holiday).
  - reflexivity.
  - vm_compute. split; discriminate.
  - reflexivity.
  - reflexivity.
  - reflexivity.
  - intros p H. symmetry. exact H.
Defined.

Lemma rename_event_saves_new_title_witness :
  rename_event client0 alpha_ref "Omega"
  = (save store0 "/calendar/a" omega_instance, alpha_ref)
  /\ parse_ics_events sys0 client0
       [mk_object "/calendar/a" (Stream [omega_held])]
     = (l ← parse_ics_events sys0 client0 [alpha_object];
        Return (map (fun e : Event => <["title" := VStr "Omega"]> e) l)).
Proof.
  destruct (rename_event_saves_new_title sys0 client0 alpha_ref "/calendar/a"
              alpha_object (vcalendar [alpha_event]) [] [] alpha_event []
              "Omega")
    as [Saved Read].
  - reflexivity.
  - reflexivity.
  - reflexivity.
  - reflexivity.
  - constructor.
  - reflexivity.
  - eexists. reflexivity.
  - split; [exact Saved|].
    apply (Read omega_held []).
    + discriminate.
    + reflexivity.
    + reflexivity.
    + reflexivity.
    + unfold keeps_events.
      change (walk "vevent"
                (mk_component (name (vcalendar [alpha_event]))
                   (props (vcalendar [alpha_event]))
                   ([] ++ retitle alpha_event "Omega" :: [])))
        with [retitle alpha_event "Omega"].
      change (walk "vevent" omega_held)
        with [mk_component "VEVENT"
                (<["UID" := vText "20240530T120000Z-1@example"]>
                   (props (retitle alpha_event "Omega"))) []].
      constructor; [|constructor].
      repeat split; vm_compute; reflexivity.
Defined.

Lemma rename_untitled_event_fails_witness :
  rename_event client_untitled untitled "Standup"
  = (Raise AttributeError, untitled)
  /\ forall d, get_event_details sys0 client_untitled meeting = Return d ->
               d !! "title" = Some (VStr "untitled event").
Proof.
  apply (rename_untitled_event_fails sys0 client_untitled untitled
           "/calendar/u"
           (mk_object "/calendar/u" (Stream [vcalendar [meeting]]))
           (vcalendar [meeting]) [] [] meeting [] "Standup").
  - reflexivity.
  - reflexivity.
  - reflexivity.
  - reflexivity.
  - constructor.
  - reflexivity.
  - reflexivity.
Defined.

Lemma get_events_with_title_ignores_case_witness :
  get_events_with_title sys0 client0 "ALPHA"
  = get_events_with_title sys0 client0 "alpha".
Proof.
  apply (get_events_with_title_ignores_case sys0 client0 "ALPHA" "alpha").
  reflexivity.
Defined.


Lemma event_is_found_by_its_title_witness :
  exists r, get_events_with_title sys0 client0 "Alpha" = Return r /\ In alpha r.
Proof.
  apply (event_is_found_by_its_title sys0 client0 store0 (parsed_of client0)
           alpha "Alpha").
  - reflexivity.
  - reflexivity.
  - apply hd_In. apply parsed_of_client0_nonempty.
  - vm_compute. reflexivity.
Defined.

Lemma get_events_for_date_covers_day_witness :
  let D := mk_date 2024 7 1 in
  let x := mk_datetime 2024 7 1 12 0 0 0 None in
  let first := datetime_combine D (datetime_time datetime_min) in
  let last := datetime_combine D (datetime_time datetime_max) in
  wall_ok first = true /\ wall_ok last = true
  /\ dt_tzinfo first = None /\ dt_tzinfo last = None
  /\ ((exists c1 c2, datetime_cmp first x = Return c1 /\ c1 <> Gt
                     /\ datetime_cmp x last = Return c2 /\ c2 <> Gt)
      <-> datetime_date x = D).
Proof.
  apply (get_events_for_date_covers_day (mk_date 2024 7 1)
           (mk_datetime 2024 7 1 12 0 0 0 None)); reflexivity.
Defined.

Lemma get_next_event_first_among_ties_witness :
  List.find (fun x => is_after now0 x
                      && starts_at (start_us (next_of client_ties)) x)
    (parsed_of client_ties)
  = Some (next_of client_ties).
Proof.
  apply (get_next_event_first_among_ties sys0 client_ties now0 store_ties
           (parsed_of client_ties) (next_of client_ties)).
  - intros i. reflexivity.
  - split; [reflexivity|]. intros u. unfold example_zone. simpl.
    destruct (_ || _); reflexivity.
  - reflexivity.
  - vm_compute. reflexivity.
  - reflexivity.
  - vm_compute. reflexivity.
  - reflexivity.
Defined.

(** Of the two events at the same instant the one enumerated first is
    returned, although the other one is later in the list only. *)
Example get_next_event_tie_example :
  (r ← get_next_event sys0 client_ties;
   Return (option_map (fun e : Event => e !! "event_url") r))
  = Return (Some (Some (VUrl "/calendar/first"))).
Proof. vm_compute. reflexivity. Qed.

Lemma get_next_event_order_independent_witness :
  exists r r',
    get_next_event sys0 client0 = Return r
    /\ get_next_event sys0 client_reversed = Return r'
    /\ option_map start_us r = option_map start_us r'.
Proof.
  apply (get_next_event_order_independent sys0 client0 client_reversed now0
           store0 (rev store0) (parsed_of client0)).
  - intros i. reflexivity.
  - split; [reflexivity|]. intros u. unfold example_zone. simpl.
    destruct (_ || _); reflexivity.
  - reflexivity.
  - reflexivity.
  - reflexivity.
  - apply Permutation_rev.
  - vm_compute. reflexivity.
  - reflexivity.
  - vm_compute. reflexivity.
Defined.
